(** * cobmo: the optimization problem of a building model

    A shallow embedding of [cobmo/optimization_problem.py]: the constructor
    [OptimizationProblem.__init__], which formulates a linear program over
    the state space model of a building, and [OptimizationProblem.solve],
    which runs a solver on it and reads the results back.

    Conventions of the embedding.
    - Python floats are rationals ([Q]), compared with [==].
    - Timestamps are integers (seconds); a difference of two of them is a
      number of seconds, and the [seconds] attribute of a pandas Timedelta
      is its remainder modulo one day.
    - Pyomo expressions are kept as syntax trees ([expr]); a Python float is
      the tree [Const q], and the Python operators fold two floats into a
      float, as Python does, and build a node otherwise.
    - Names of states, controls, outputs and disturbances are strings, and
      [x in name] is the substring test.
    - The matrices and time series of the building are total lookups; the
      electricity price series is a data frame living in a store, because
      the constructor copies it and writes to the copy.
    - Exceptions are values of [exn]; a computation that may raise returns
      a [res].
    - The solver is a function from the model to the termination status
      and the values it loads into the variables; a variable may be left
      without a value, and the call raises when the solver status is bad.
      The frames of the building have distinct row labels, so that
      [.loc] yields a number. A cell of a result table that receives [None] holds
      no number (pandas stores NaN).
    - Pyomo's own rewriting of expressions (dropping a zero term, and the
      like) is not modelled: an expression keeps the terms the source
      writes, and the rewriting changes no value. *)

From Stdlib Require Import ZArith QArith Lqa String List Bool Lia.
From stdpp Require Import base gmap strings list fin_maps.

Local Open Scope Z_scope.

(** ** Exceptions and results *)

Inductive exn : Type :=
| IndexError
| KeyError
| TypeError
| AttributeError
| ZeroDivisionError
| ValueError.

Inductive res (A : Type) : Type :=
| Ok (a : A)
| Raise (e : exn).
Arguments Ok {A} a.
Arguments Raise {A} e.

Definition res_bind {A B} (r : res A) (k : A → res B) : res B :=
  match r with
  | Ok a => k a
  | Raise e => Raise e
  end.

(** ** Strings and sequences *)

(** [needle in hay] of Python, for strings. *)
Fixpoint contains (needle hay : string) : bool :=
  String.prefix needle hay
  || match hay with
     | EmptyString => false
     | String _ rest => contains needle rest
     end.

(** [l[i]] of Python for a non-negative index. *)
Definition getitem {A} (l : list A) (i : nat) : res A :=
  match nth_error l i with
  | Some x => Ok x
  | None => Raise IndexError
  end.

(** [l[:-1]] of Python. *)
Definition all_but_last {A} (l : list A) : list A := removelast l.

Definition mem_Z (t : Z) (l : list Z) : bool := existsb (Z.eqb t) l.
Definition mem_string (s : string) (l : list string) : bool :=
  existsb (String.eqb s) l.

(** ** Pyomo variables, expressions and constraints *)

Inductive var : Type :=
| variable_state_vector (timestep : Z) (state : string)
| variable_control_vector (timestep : Z) (control : string)
| variable_output_vector (timestep : Z) (output : string)
| variable_storage_size
| variable_storage_peak_power
| variable_storage_exists
| variable_load_reduction.

#[global] Instance var_eq_dec : EqDecision var.
Proof. solve_decision. Defined.

Inductive domain : Type := Reals | NonNegativeReals | Binary.

Inductive expr : Type :=
| Const (q : Q)
| Var (v : var)
| Add (a b : expr)
| Sub (a b : expr)
| Mul (a b : expr)
| Div (a b : expr).


(** The Python operators [+ - * /] on floats and Pyomo expressions. *)
Definition add (a b : expr) : expr :=
  match a, b with
  | Const x, Const y => Const (x + y)
  | _, _ => Add a b
  end.

Definition sub (a b : expr) : expr :=
  match a, b with
  | Const x, Const y => Const (x - y)
  | _, _ => Sub a b
  end.

Definition mul (a b : expr) : expr :=
  match a, b with
  | Const x, Const y => Const (x * y)
  | _, _ => Mul a b
  end.

Definition div (a b : expr) : expr :=
  match a, b with
  | Const x, Const y => Const (x / y)
  | _, _ => Div a b
  end.

(** [sum(...)] of Python: it starts from 0 and adds from the left. *)
Definition py_sum (l : list expr) : expr := fold_left add l (Const 0).

Inductive constraint : Type :=
| CEq (l r : expr)
| CLe (l r : expr)
| CGe (l r : expr).

(** The value of an expression when every variable has a value. *)
Fixpoint eval (rho : var → Q) (e : expr) : Q :=
  match e with
  | Const q => q
  | Var v => rho v
  | Add a b => eval rho a + eval rho b
  | Sub a b => eval rho a - eval rho b
  | Mul a b => eval rho a * eval rho b
  | Div a b => eval rho a / eval rho b
  end.

Definition sat (rho : var → Q) (c : constraint) : Prop :=
  match c with
  | CEq l r => eval rho l == eval rho r
  | CLe l r => (eval rho l <= eval rho r)%Q
  | CGe l r => (eval rho r <= eval rho l)%Q
  end.

Definition in_domain (d : domain) (q : Q) : Prop :=
  match d with
  | Reals => True
  | NonNegativeReals => (0 <= q)%Q
  | Binary => q == 0 ∨ q == 1
  end.

(** [pyo.value(e)]: the variables carry the values the solver loaded, or
    none; a variable without a value makes the evaluation raise. *)
Fixpoint value (sigma : var → option Q) (e : expr) : res Q :=
  match e with
  | Const q => Ok q
  | Var v =>
      match sigma v with
      | Some q => Ok q
      | None => Raise ValueError
      end
  | Add a b =>
      res_bind (value sigma a) (λ x, res_bind (value sigma b) (λ y, Ok (x + y)%Q))
  | Sub a b =>
      res_bind (value sigma a) (λ x, res_bind (value sigma b) (λ y, Ok (x - y)%Q))
  | Mul a b =>
      res_bind (value sigma a) (λ x, res_bind (value sigma b) (λ y, Ok (x * y)%Q))
  | Div a b =>
      res_bind (value sigma a) (λ x,
        res_bind (value sigma b) (λ y,
          if Qeq_bool y 0 then Raise ZeroDivisionError else Ok (x / y)%Q))
  end.

(** ** The building model *)

Definition loc := positive.

(** A data frame with the single column ['price'], indexed by timestep. *)
Abbreviation price_frame := (gmap Z Q).
Abbreviation store := (gmap loc (gmap Z Q)).

Record Scenarios : Type := {
  building_storage_type : string;
  storage_battery_depth_of_discharge : Q;
  storage_lifetime : Q;
  storage_planning_energy_installation_cost : Q;
  storage_planning_power_installation_cost : Q;
  storage_planning_fixed_installation_cost : Q
}.

Record Building : Type := {
  timesteps : list Z;
  states : list string;
  controls : list string;
  outputs : list string;
  disturbances : list string;
  state_matrix : string → string → Q;
  control_matrix : string → string → Q;
  disturbance_matrix : string → string → Q;
  state_output_matrix : string → string → Q;
  control_output_matrix : string → string → Q;
  disturbance_output_matrix : string → string → Q;
  disturbance_timeseries : Z → string → Q;
  state_vector_initial : string → Q;
  output_constraint_timeseries_minimum : Z → string → Q;
  output_constraint_timeseries_maximum : Z → string → Q;
  electricity_price_timeseries : loc;
  scenarios : Scenarios;
  (** [parse_parameter('water_density')] *)
  parse_parameter_water_density : Q
}.

(** The keyword arguments of the constructor; [None] is Python's [None]. *)
Record Arguments_ : Type := {
  output_vector_reference : option (Z → string → Q);
  load_reduction_start_time : option Z;
  load_reduction_end_time : option Z;
  price_sensitivity_factor : option Q;
  price_sensitivity_timestep : option Z
}.

Definition no_arguments : Arguments_ :=
  {| output_vector_reference := None;
     load_reduction_start_time := None;
     load_reduction_end_time := None;
     price_sensitivity_factor := None;
     price_sensitivity_timestep := None |}.

(** ** Computations on the store *)

Definition M (A : Type) : Type := store → res A * store.

Definition ret {A} (a : A) : M A := λ h, (Ok a, h).

Definition bind {A B} (m : M A) (k : A → M B) : M B :=
  λ h, match m h with
       | (Ok a, h') => k a h'
       | (Raise e, h') => (Raise e, h')
       end.

Definition lift {A} (r : res A) : M A := λ h, (r, h).

Declare Scope py_scope.
Delimit Scope py_scope with py.
Notation "x <- m ;; k" := (bind m (λ x, k))
  (at level 100, m at next level, right associativity) : py_scope.
Notation "'try' x := r ;; k" := (res_bind r (λ x, k))
  (at level 100, r at next level, right associativity) : py_scope.
Local Open Scope py_scope.

(** [for x in l: ...] where the body yields the constraints it adds. *)
Fixpoint for_each {A B} (body : A → res (list B)) (l : list A) : res (list B) :=
  match l with
  | [] => Ok []
  | x :: rest =>
      try here := body x ;;
      try there := for_each body rest ;;
      Ok (here ++ there)
  end.

(** [frame.copy()]: a new data frame with the same rows. *)
Definition copy (l : loc) : M loc :=
  λ h, match h !! l with
       | Some frame => let l' := fresh (dom h) in (Ok l', <[l' := frame]> h)
       | None => (Raise KeyError, h)
       end.

(** [frame.loc[timestep, 'price']] on a frame already fetched. *)
Definition price_loc (frame : gmap Z Q) (timestep : Z) : res Q :=
  match frame !! timestep with
  | Some p => Ok p
  | None => Raise KeyError
  end.

Definition read_frame (l : loc) : M (gmap Z Q) :=
  λ h, match h !! l with
       | Some frame => (Ok frame, h)
       | None => (Raise KeyError, h)
       end.

(** [frame.at[timestep, 'price'] *= factor]: the read comes first, then the
    product, then the write. *)
Definition price_at_imul (l : loc) (timestep : option Z) (factor : option Q) : M unit :=
  λ h, match h !! l with
       | None => (Raise KeyError, h)
       | Some frame =>
           match timestep with
           | None => (Raise KeyError, h)
           | Some t =>
               match frame !! t with
               | None => (Raise KeyError, h)
               | Some p =>
                   match factor with
                   | None => (Raise TypeError, h)
                   | Some f => (Ok tt, <[l := <[t := (p * f)%Q]> frame]> h)
                   end
               end
           end
       end.

(** ** The constructor, section by section *)

Section Formulation.

Variable building : Building.
Variable problem_type : string.
Variable arguments : Arguments_.

(** The index sets of the three indexed variables are
    [timesteps × states], [timesteps × controls] and [timesteps × outputs];
    indexing outside them raises. The constructor indexes with a computed
    timestep in one place only, the state equation. *)
Definition state_vector_getitem (timestep : Z) (state : string) : res expr :=
  if mem_Z timestep (timesteps building) && mem_string state (states building)
  then Ok (Var (variable_state_vector timestep state))
  else Raise KeyError.

(** The variables declared, with their domains. A timestep or a name that
    the building repeats repeats the pair in this list; the index set of
    Pyomo holds it once. *)
Definition indexed_variables (mk : Z → string → var) (names : list string)
    (d : domain) : list (var * domain) :=
  flat_map (λ t, map (λ n, (mk t n, d)) names) (timesteps building).

Definition variables_declared : list (var * domain) :=
  indexed_variables variable_state_vector (states building) Reals
  ++ indexed_variables variable_control_vector (controls building) NonNegativeReals
  ++ indexed_variables variable_output_vector (outputs building) Reals
  ++ (if String.eqb problem_type "storage_planning"
      then [(variable_storage_size, NonNegativeReals);
            (variable_storage_peak_power, NonNegativeReals);
            (variable_storage_exists, Binary)]
      else [])
  ++ (if String.eqb problem_type "load_reduction"
      then [(variable_load_reduction, NonNegativeReals)]
      else []).

(** [self.problem.variable_storage_size[0]]: the variable under
    ['storage_planning'], the float of the list [[0.0]] under
    ['storage_planning_baseline']. It is read under these two types only. *)
Definition variable_storage_size_0 : expr :=
  if String.eqb problem_type "storage_planning_baseline"
  then Const 0
  else Var variable_storage_size.

(** Initial state constraint. *)
Definition initial_state_constraints : res (list constraint) :=
  for_each
    (λ state,
       try t0 := getitem (timesteps building) 0 ;;
       Ok [CEq (Var (variable_state_vector t0 state))
               (Const (state_vector_initial building state))])
    (states building).

(** [timestep_delta = timesteps[1] - timesteps[0]] *)
Definition timestep_delta : res Z :=
  try t1 := getitem (timesteps building) 1 ;;
  try t0 := getitem (timesteps building) 0 ;;
  Ok (t1 - t0).

(** The right-hand side of the state equation of [state] at [timestep]. *)
Definition state_equation_rhs (state : string) (timestep : Z) : expr :=
  add
    (add
       (py_sum
          (map (λ state_other,
                  mul (Const (state_matrix building state state_other))
                      (Var (variable_state_vector timestep state_other)))
               (states building)))
       (py_sum
          (map (λ control,
                  mul (Const (control_matrix building state control))
                      (Var (variable_control_vector timestep control)))
               (controls building))))
    (py_sum
       (map (λ disturbance,
               mul (Const (disturbance_matrix building state disturbance))
                   (Const (disturbance_timeseries building timestep disturbance)))
            (disturbances building))).

(** State equation constraint. *)
Definition state_equation_constraints (delta : Z) : res (list constraint) :=
  for_each
    (λ state,
       for_each
         (λ timestep,
            try next := state_vector_getitem (timestep + delta) state ;;
            Ok [CEq next (state_equation_rhs state timestep)])
         (all_but_last (timesteps building)))
    (states building).

Definition output_equation_rhs (output : string) (timestep : Z) : expr :=
  add
    (add
       (py_sum
          (map (λ state,
                  mul (Const (state_output_matrix building output state))
                      (Var (variable_state_vector timestep state)))
               (states building)))
       (py_sum
          (map (λ control,
                  mul (Const (control_output_matrix building output control))
                      (Var (variable_control_vector timestep control)))
               (controls building))))
    (py_sum
       (map (λ disturbance,
               mul (Const (disturbance_output_matrix building output disturbance))
                   (Const (disturbance_timeseries building timestep disturbance)))
            (disturbances building))).

(** Output equation constraint. *)
Definition output_equation_constraints : list constraint :=
  flat_map
    (λ output,
       map (λ timestep,
              CEq (Var (variable_output_vector timestep output))
                  (output_equation_rhs output timestep))
           (timesteps building))
    (outputs building).

(** The minimum part of the bounds of one output at one timestep. *)
Definition output_minimum_constraint (output : string) (timestep : Z)
    : res (list constraint) :=
  if contains "temperature" output && String.eqb problem_type "maximum_load"
  then
    try t0 := getitem (timesteps building) 0 ;;
    if Z.eqb timestep t0
    then Ok []
    else Ok [CEq (Var (variable_output_vector timestep output))
                 (Const (output_constraint_timeseries_minimum building timestep output))]
  else
    Ok [CGe (Var (variable_output_vector timestep output))
            (Const (output_constraint_timeseries_minimum building timestep output))].

(** The maximum part. *)
Definition output_maximum_constraint (output : string) (timestep : Z)
    : list constraint :=
  if (String.eqb problem_type "storage_planning"
      || String.eqb problem_type "storage_planning_baseline")
     && contains "state_of_charge" output
  then
    if contains "sensible" (building_storage_type (scenarios building))
    then [CLe (Var (variable_output_vector timestep output))
              (mul variable_storage_size_0
                   (Const (parse_parameter_water_density building)))]
    else if contains "battery" (building_storage_type (scenarios building))
    then [CLe (Var (variable_output_vector timestep output))
              (mul variable_storage_size_0
                   (Const (storage_battery_depth_of_discharge (scenarios building))))]
    else []
  else
    [CLe (Var (variable_output_vector timestep output))
         (Const (output_constraint_timeseries_maximum building timestep output))].

(** Output minimum / maximum bounds constraint. *)
Definition output_bounds_constraints : res (list constraint) :=
  for_each
    (λ output,
       for_each
         (λ timestep,
            try lower := output_minimum_constraint output timestep ;;
            Ok (lower ++ output_maximum_constraint output timestep))
         (timesteps building))
    (outputs building).

(** The outputs that count as electric demand. *)
Definition is_electric_demand (output : string) : bool :=
  contains "electric_power" output && negb (contains "storage_to_zone" output).

(** Storage planning auxiliary constraints. *)
Definition storage_planning_constraints : list constraint :=
  flat_map
    (λ timestep,
       [CLe (py_sum
               (map (λ output,
                       if contains "storage_charge" output
                          && contains "electric_power" output
                       then Var (variable_output_vector timestep output)
                       else Const 0)
                    (outputs building)))
            (Var variable_storage_peak_power);
        CLe (Var variable_storage_size)
            (mul (Var variable_storage_exists) (Const (inject_Z (10 ^ 100))))])
    (timesteps building).

(** The sum over the outputs of the reference demand at one timestep; the
    reference is read only for an output that counts. *)
Fixpoint reference_terms (timestep : Z) (l : list string) : res (list expr) :=
  match l with
  | [] => Ok []
  | output :: rest =>
      try term :=
        (if is_electric_demand output
         then match output_vector_reference arguments with
              | Some reference => Ok (Const (reference timestep output))
              | None => Raise AttributeError
              end
         else Ok (Const 0)) ;;
      try terms := reference_terms timestep rest ;;
      Ok (term :: terms)
  end.

(** Demand side flexibility auxiliary constraints. *)
Definition load_reduction_constraint (timestep : Z) : res (list constraint) :=
  match load_reduction_start_time arguments with
  | None => Raise TypeError
  | Some start_time =>
      if Z.geb timestep start_time
      then
        match load_reduction_end_time arguments with
        | None => Raise TypeError
        | Some end_time =>
            if Z.ltb timestep end_time
            then
              let demand :=
                py_sum
                  (map (λ output,
                          if is_electric_demand output
                          then Var (variable_output_vector timestep output)
                          else Const 0)
                       (outputs building)) in
              try terms := reference_terms timestep (outputs building) ;;
              Ok [CEq demand
                      (mul (sub (Const 1)
                                (div (Var variable_load_reduction) (Const 100)))
                           (py_sum terms))]
            else Ok []
        end
      else Ok []
  end.

Definition load_reduction_constraints : res (list constraint) :=
  for_each load_reduction_constraint (timesteps building).

Definition auxiliary_constraints : res (list constraint) :=
  if String.eqb problem_type "storage_planning"
  then Ok storage_planning_constraints
  else if String.eqb problem_type "load_reduction"
  then load_reduction_constraints
  else Ok [].

End Formulation.

(** ** The objective *)

(** [for x in l: acc = body(acc, x)] where the body may raise. *)
Fixpoint fold_res {A B} (body : B → A → res B) (l : list A) (acc : B) : res B :=
  match l with
  | [] => Ok acc
  | x :: rest => try acc' := body acc x ;; fold_res body rest acc'
  end.

(** [pd.to_timedelta('1y')], in seconds: 365.2425 days. *)
Definition one_year : Z := 31556952.

(** [timedelta.seconds]: the seconds left once the whole days are taken out. *)
Definition timedelta_seconds (delta : Z) : Z := delta mod 86400.

Section Objective.

Variable building : Building.
Variable problem_type : string.

(** Operation cost factor. *)
Definition operation_cost_factor_of (delta : Z) : res Q :=
  if String.eqb problem_type "storage_planning"
     || String.eqb problem_type "storage_planning_baseline"
  then
    if Z.eqb delta 0
    then Raise ZeroDivisionError
    else Ok (inject_Z one_year / inject_Z delta
             / inject_Z (Z.of_nat (length (timesteps building)))
             * storage_lifetime (scenarios building)
             * 14)%Q
  else if String.eqb problem_type "load_reduction"
  then Ok (1 # 1000000)
  else Ok 1%Q.

Definition is_load_problem : bool :=
  String.eqb problem_type "minimum_load" || String.eqb problem_type "maximum_load".

(** One pass of the body of the operation cost loop. *)
Definition operation_cost_add (frame : gmap Z Q) (delta : Z) (factor : Q)
    (timestep : Z) (cost : expr) (output : string) : res expr :=
  if is_load_problem
  then
    if String.eqb output "grid_electric_power"
    then Ok (add cost (Var (variable_output_vector timestep output)))
    else Ok cost
  else
    if is_electric_demand output
    then
      try price := price_loc frame timestep ;;
      Ok (add cost
            (mul (mul (div (div (mul (Var (variable_output_vector timestep output))
                                     (Const (inject_Z (timedelta_seconds delta))))
                                (Const 3600))
                           (Const 1000))
                      (Const price))
                 (Const factor)))
    else Ok cost.

(** Operation cost (OPEX). *)
Definition operation_cost_of (frame : gmap Z Q) (delta : Z) (factor : Q) : res expr :=
  fold_res
    (λ cost timestep,
       fold_res (operation_cost_add frame delta factor timestep)
                (outputs building) cost)
    (timesteps building) (Const 0).

(** Investment cost (CAPEX). *)
Definition investment_cost_of : expr :=
  let scenario := scenarios building in
  if String.eqb problem_type "storage_planning"
  then
    if contains "sensible" (building_storage_type scenario)
    then
      add (Const 0)
          (add (add (mul (Var variable_storage_size)
                         (Const (storage_planning_energy_installation_cost scenario)))
                    (mul (div (Var variable_storage_peak_power) (Const 1000))
                         (Const (storage_planning_power_installation_cost scenario))))
               (mul (Var variable_storage_exists)
                    (Const (storage_planning_fixed_installation_cost scenario))))
    else if contains "battery" (building_storage_type scenario)
    then
      add (Const 0)
          (add (add (mul (div (div (Var variable_storage_size) (Const 3600))
                              (Const 1000))
                         (Const (storage_planning_energy_installation_cost scenario)))
                    (mul (div (Var variable_storage_peak_power) (Const 1000))
                         (Const (storage_planning_power_installation_cost scenario))))
               (mul (Var variable_storage_exists)
                    (Const (storage_planning_fixed_installation_cost scenario))))
    else Const 0
  else if String.eqb problem_type "load_reduction"
  then sub (Const 0) (Var variable_load_reduction)
  else Const 0.

End Objective.

(** ** The optimization problem object *)

Inductive termination : Type :=
| optimal
| infeasible
| unbounded
| other_termination.

(** What a run of the solver leaves behind: the results object it returns,
    and the values it loaded into the variables of the model.
    [bad_status] tells that the solver status of the results is one that
    Pyomo refuses to load (an error, an unknown status, an abort without a
    solution): [self.solver.solve] then raises ValueError and returns
    nothing. *)
Record SolverRun : Type := {
  bad_status : bool;
  termination_condition : termination;
  loaded : var → option Q
}.

Record ConcreteModel : Type := {
  variables : list (var * domain);
  constraints : list constraint;
  objective : expr;
  (** [v.value] for every variable [v] *)
  var_value : var → option Q
}.

Record OptimizationProblem : Type := {
  self_building : Building;
  self_problem_type : string;
  self_arguments : Arguments_;
  self_electricity_price_timeseries : loc;
  problem : ConcreteModel;
  solver : ConcreteModel → SolverRun;
  result : option termination;
  operation_cost_factor : Q;
  operation_cost : expr;
  investment_cost : expr
}.

(** [OptimizationProblem(building, problem_type, ...)] with the solver that
    the configuration names. *)
Definition __init__ (configured_solver : ConcreteModel → SolverRun)
    (building : Building) (problem_type : string) (arguments : Arguments_)
    : M OptimizationProblem :=
  price <- copy (electricity_price_timeseries building) ;;
  initial <- lift (initial_state_constraints building) ;;
  delta <- lift (timestep_delta building) ;;
  transition <- lift (state_equation_constraints building delta) ;;
  bounds <- lift (output_bounds_constraints building problem_type) ;;
  auxiliary <- lift (auxiliary_constraints building problem_type arguments) ;;
  factor <- lift (operation_cost_factor_of building problem_type delta) ;;
  _ <- (if String.eqb problem_type "price_sensitivity"
        then price_at_imul price (price_sensitivity_timestep arguments)
                           (price_sensitivity_factor arguments)
        else ret tt) ;;
  frame <- read_frame price ;;
  opex <- lift (operation_cost_of building problem_type frame delta factor) ;;
  let capex := investment_cost_of building problem_type in
  ret {| self_building := building;
         self_problem_type := problem_type;
         self_arguments := arguments;
         self_electricity_price_timeseries := price;
         problem :=
           {| variables := variables_declared building problem_type;
              constraints :=
                initial ++ transition ++ output_equation_constraints building
                ++ bounds ++ auxiliary;
              objective := add opex capex;
              var_value := λ _, None |};
         solver := configured_solver;
         result := None;
         operation_cost_factor := factor;
         operation_cost := opex;
         investment_cost := capex |}.

(** ** Solving and reading the results back *)

(** A data frame of floats indexed by timestep and name; a cell holds a
    float or, when [None] was written to it, no number (NaN). *)
Abbreviation DataFrame := (gmap (Z * string) (option Q)).

(** [pd.DataFrame(fill, index, columns)] *)
Definition DataFrame_filled (fill : Q) (index : list Z) (columns : list string)
    : DataFrame :=
  foldr (λ t frame, foldr (λ c frame, <[(t, c) := Some fill]> frame) frame columns)
        ∅ index.

(** [for name in names: frame.at[timestep, name] = mk(timestep, name).value] *)
Definition set_row (sigma : var → option Q) (mk : Z → string → var)
    (timestep : Z) (names : list string) (frame : DataFrame)
    : DataFrame :=
  fold_left (λ frame name, <[(timestep, name) := sigma (mk timestep name)]> frame)
            names frame.

Record SolveReturn : Type := {
  control_vector : DataFrame;
  state_vector : DataFrame;
  output_vector : DataFrame;
  operation_cost_value : Q;
  investment_cost_value : Q;
  storage_size : option Q
}.

(** [pyo.value] is called on a cost only when it is not a float. *)
Definition cost_value (sigma : var → option Q) (cost : expr) : res Q :=
  match cost with
  | Const q => Ok q
  | _ => value sigma cost
  end.

Definition solve (self : OptimizationProblem)
    : res SolveReturn * OptimizationProblem :=
  let run := solver self (problem self) in
  if bad_status run
  then (Raise ValueError, self)
  else
  let sigma := loaded run in
  let self' :=
    {| self_building := self_building self;
       self_problem_type := self_problem_type self;
       self_arguments := self_arguments self;
       self_electricity_price_timeseries := self_electricity_price_timeseries self;
       problem :=
         {| variables := variables (problem self);
            constraints := constraints (problem self);
            objective := objective (problem self);
            var_value := sigma |};
       solver := solver self;
       result := Some (termination_condition run);
       operation_cost_factor := operation_cost_factor self;
       operation_cost := operation_cost self;
       investment_cost := investment_cost self |} in
  let building := self_building self in
  let tables :=
    fold_left
      (λ '(cv, sv, ov) timestep,
         (set_row sigma variable_control_vector timestep (controls building) cv,
          set_row sigma variable_state_vector timestep (states building) sv,
          set_row sigma variable_output_vector timestep (outputs building) ov))
      (timesteps building)
      (DataFrame_filled 0 (timesteps building) (controls building),
       DataFrame_filled 0 (timesteps building) (states building),
       DataFrame_filled 0 (timesteps building) (outputs building)) in
  (try opex := cost_value sigma (operation_cost self) ;;
   try capex := cost_value sigma (investment_cost self) ;;
   Ok {| control_vector := tables.1.1;
         state_vector := tables.1.2;
         output_vector := tables.2;
         operation_cost_value := opex;
         investment_cost_value := capex;
         storage_size :=
           if String.eqb (self_problem_type self) "storage_planning"
           then sigma variable_storage_size
           else if String.eqb (self_problem_type self) "storage_planning_baseline"
           then Some 0%Q
           else None |},
   self').

(** ** What the specification talks about *)

(** The pairs of consecutive timesteps of the horizon. *)
Definition consecutive (l : list Z) : list (Z * Z) := combine l (tl l).

(** The timesteps are equally spaced: every step is the first one. *)
Definition equally_spaced (l : list Z) : bool :=
  match l with
  | t0 :: t1 :: _ => forallb (λ p, Z.eqb (p.2 - p.1) (t1 - t0)) (consecutive l)
  | _ => true
  end.

(** [Σ coefficient(n) · x(n)] over the names [l]. *)
Fixpoint dot (coefficient x : string → Q) (l : list string) : Q :=
  match l with
  | [] => 0
  | n :: rest => coefficient n * x n + dot coefficient x rest
  end.

(** A valuation is feasible for a model when every declared variable lies
    in its domain and every constraint holds. *)
Definition feasible (m : ConcreteModel) (rho : var → Q) : Prop :=
  (∀ v d, In (v, d) (variables m) → in_domain d (rho v))
  ∧ (∀ c, In c (constraints m) → sat rho c).

(** It is optimal when no feasible valuation has a smaller objective. *)
Definition is_optimal (m : ConcreteModel) (rho : var → Q) : Prop :=
  feasible m rho
  ∧ ∀ rho', feasible m rho' → (eval rho (objective m) <= eval rho' (objective m))%Q.

(** The price frame the cost is computed from: the copy, with the price of
    one timestep scaled under ['price_sensitivity']. *)
Definition perturbed (problem_type : string) (arguments : Arguments_)
    (frame0 frame : gmap Z Q) : Prop :=
  if String.eqb problem_type "price_sensitivity"
  then ∃ t p f,
      price_sensitivity_timestep arguments = Some t
      ∧ price_sensitivity_factor arguments = Some f
      ∧ frame0 !! t = Some p
      ∧ frame = <[t := (p * f)%Q]> frame0
  else frame = frame0.

(** The constraints that are lower bound inequalities. *)
Definition is_lower_bound (c : constraint) : bool :=
  match c with CGe _ _ => true | _ => false end.

(** ** Checking a valuation *)

Definition satb (rho : var → Q) (c : constraint) : bool :=
  match c with
  | CEq l r => Qeq_bool (eval rho l) (eval rho r)
  | CLe l r => Qle_bool (eval rho l) (eval rho r)
  | CGe l r => Qle_bool (eval rho r) (eval rho l)
  end.

Definition in_domainb (d : domain) (q : Q) : bool :=
  match d with
  | Reals => true
  | NonNegativeReals => Qle_bool 0 q
  | Binary => Qeq_bool q 0 || Qeq_bool q 1
  end.

Definition feasibleb (m : ConcreteModel) (rho : var → Q) : bool :=
  forallb (λ p, in_domainb p.2 (rho p.1)) (variables m)
  && forallb (satb rho) (constraints m).

(** The same problem with another solver configured. *)
Definition replace_solver (self : OptimizationProblem)
    (other : ConcreteModel → SolverRun) : OptimizationProblem :=
  {| self_building := self_building self;
     self_problem_type := self_problem_type self;
     self_arguments := self_arguments self;
     self_electricity_price_timeseries := self_electricity_price_timeseries self;
     problem := problem self;
     solver := other;
     result := result self;
     operation_cost_factor := operation_cost_factor self;
     operation_cost := operation_cost self;
     investment_cost := investment_cost self |}.

(** ** The operation cost as a sum *)

(** [Σ f(x)] over the elements of [l]. *)
Fixpoint total {A} (f : A → Q) (l : list A) : Q :=
  match l with
  | [] => 0
  | x :: rest => f x + total f rest
  end.

(** The price of a frame at a timestep (0 where the frame has no row). *)
Definition price_of (frame : gmap Z Q) (timestep : Z) : Q :=
  default 0%Q (frame !! timestep).

(** The operation cost in the words of the specification: over every
    timestep and every electric demand output, the output times the
    timestep spacing in hours, times the price, times the factor. *)
Definition operation_cost_stated (b : Building) (rho : var → Q) (delta : Z)
    (price : Z → Q) (factor : Q) : Q :=
  total (λ t,
           total (λ output,
                    (rho (variable_output_vector t output)
                     * (inject_Z delta / 3600) * price t * factor)%Q)
                 (List.filter is_electric_demand (outputs b)))
        (timesteps b).

(** The same with the power taken in kW: the spacing in hours is divided by
    1000 as well. *)
Definition operation_cost_in_kWh (b : Building) (rho : var → Q) (delta : Z)
    (price : Z → Q) (factor : Q) : Q :=
  total (λ t,
           total (λ output,
                    (rho (variable_output_vector t output)
                     * (inject_Z delta / 3600 / 1000) * price t * factor)%Q)
                 (List.filter is_electric_demand (outputs b)))
        (timesteps b).

(** The sum of the grid electric power output over all timesteps. *)
Definition grid_power_sum (b : Building) (rho : var → Q) : Q :=
  total (λ t,
           total (λ output, rho (variable_output_vector t output))
                 (List.filter (λ output, String.eqb output "grid_electric_power")
                         (outputs b)))
        (timesteps b).

(** A computation leaves alone every frame of the store whose location
    satisfies [P]. *)
Definition preserves {A} (P : loc → Prop) (m : M A) : Prop :=
  ∀ h r h', m h = (r, h') → ∀ l, P l → h' !! l = h !! l.

(** ** Storage planning *)

(** The large constant that stands for infinity. *)
Definition large_constant : Q := inject_Z (10 ^ 100).

(** A valuation with the existence indicator set to [x]. *)
Definition with_storage_exists (x : Q) (rho : var → Q) : var → Q :=
  λ v, match v with
       | variable_storage_exists => x
       | _ => rho v
       end.

(** An expression whose value does not depend on the existence indicator. *)
Definition ignores_storage_exists (e : expr) : Prop :=
  ∀ rho x, eval (with_storage_exists x rho) e == eval rho e.

Definition constraint_ignores_storage_exists (c : constraint) : Prop :=
  match c with
  | CEq l r | CLe l r | CGe l r =>
      ignores_storage_exists l ∧ ignores_storage_exists r
  end.

(** The storage existence constraint. *)
Definition storage_existence_constraint : constraint :=
  CLe (Var variable_storage_size)
      (mul (Var variable_storage_exists) (Const (inject_Z (10 ^ 100)))).

(** An expression that divides by non-zero floats only. *)
Fixpoint well_divided (e : expr) : Prop :=
  match e with
  | Const _ | Var _ => True
  | Add a b | Sub a b | Mul a b => well_divided a ∧ well_divided b
  | Div a b => well_divided a ∧ ∃ q, b = Const q ∧ Qeq_bool q 0 = false
  end.

(** ** A small building, for examples *)

Definition example_scenarios : Scenarios :=
  {| building_storage_type := "sensible";
     storage_battery_depth_of_discharge := 1;
     storage_lifetime := 1;
     storage_planning_energy_installation_cost := 1;
     storage_planning_power_installation_cost := 1;
     storage_planning_fixed_installation_cost := 0 |}.

(** Three hourly timesteps, one zone, one heater drawing grid power. *)
Definition example_building : Building :=
  {| timesteps := [0; 3600; 7200];
     states := ["zone_temperature"%string];
     controls := ["heat"%string];
     outputs := ["zone_temperature"%string; "grid_electric_power"%string];
     disturbances := ["ambient"%string];
     state_matrix := λ _ _, 1%Q;
     control_matrix := λ _ _, 1%Q;
     disturbance_matrix := λ _ _, 0%Q;
     state_output_matrix :=
       λ output _, if String.eqb output "zone_temperature" then 1%Q else 0%Q;
     control_output_matrix :=
       λ output _, if String.eqb output "zone_temperature" then 0%Q else 1%Q;
     disturbance_output_matrix := λ _ _, 0%Q;
     disturbance_timeseries := λ _ _, 0%Q;
     state_vector_initial := λ _, 20%Q;
     output_constraint_timeseries_minimum := λ _ _, 0%Q;
     output_constraint_timeseries_maximum := λ _ _, 100%Q;
     electricity_price_timeseries := 1%positive;
     scenarios := example_scenarios;
     parse_parameter_water_density := 1000 |}.

Definition example_prices : gmap Z Q :=
  {[ 0 := 1%Q; 3600 := 2%Q; 7200 := 3%Q ]}.

Definition example_store : gmap loc (gmap Z Q) :=
  {[ 1%positive := example_prices ]}.

(** A solver run that ends optimal and gives every variable the value 1. *)
Definition example_solver : ConcreteModel → SolverRun :=
  λ _, {| bad_status := false;
          termination_condition := optimal;
          loaded := λ _, Some 1%Q |}.

(** The heater stays off and the zone stays at its initial temperature. *)
Definition example_valuation : var → Q :=
  λ v, match v with
       | variable_state_vector _ _ => 20%Q
       | variable_output_vector _ output =>
           if String.eqb output "zone_temperature" then 20%Q else 0%Q
       | _ => 0%Q
       end.

(** A solver run that loads the valuation above. *)
Definition example_solver_off : ConcreteModel → SolverRun :=
  λ _, {| bad_status := false;
          termination_condition := optimal;
          loaded := λ v, Some (example_valuation v) |}.

(** A solver run that ends infeasible, with every variable at 1. *)
Definition example_solver_infeasible : ConcreteModel → SolverRun :=
  λ _, {| bad_status := false;
          termination_condition := infeasible;
          loaded := λ _, Some 1%Q |}.

(** A solver run that ends optimal and leaves the heater at the first
    timestep without a value. *)
Definition example_solver_gap : ConcreteModel → SolverRun :=
  λ _, {| bad_status := false;
          termination_condition := optimal;
          loaded := λ v, match v with
                         | variable_control_vector 0 _ => None
                         | _ => Some 1%Q
                         end |}.

(** A solver run that ends optimal and leaves the grid power at the first
    timestep without a value. *)
Definition example_solver_gap_in_cost : ConcreteModel → SolverRun :=
  λ _, {| bad_status := false;
          termination_condition := optimal;
          loaded := λ v, match v with
                         | variable_output_vector 0 _ => None
                         | _ => Some 1%Q
                         end |}.

(** The price at 3600 doubled. *)
Definition example_sensitivity : Arguments_ :=
  {| output_vector_reference := None;
     load_reduction_start_time := None;
     load_reduction_end_time := None;
     price_sensitivity_factor := Some 2%Q;
     price_sensitivity_timestep := Some 3600 |}.

(** A load reduction asked for after the end of the horizon, with neither an
    end time nor a reference. *)
Definition example_late_reduction : Arguments_ :=
  {| output_vector_reference := None;
     load_reduction_start_time := Some 10000;
     load_reduction_end_time := None;
     price_sensitivity_factor := None;
     price_sensitivity_timestep := None |}.

(** The example building with the zone temperature as its only output, so
    that nothing is paid for operation. *)
Definition example_storage_building : Building :=
  {| timesteps := timesteps example_building;
     states := states example_building;
     controls := controls example_building;
     outputs := ["zone_temperature"%string];
     disturbances := disturbances example_building;
     state_matrix := state_matrix example_building;
     control_matrix := control_matrix example_building;
     disturbance_matrix := disturbance_matrix example_building;
     state_output_matrix := state_output_matrix example_building;
     control_output_matrix := control_output_matrix example_building;
     disturbance_output_matrix := disturbance_output_matrix example_building;
     disturbance_timeseries := disturbance_timeseries example_building;
     state_vector_initial := state_vector_initial example_building;
     output_constraint_timeseries_minimum :=
       output_constraint_timeseries_minimum example_building;
     output_constraint_timeseries_maximum :=
       output_constraint_timeseries_maximum example_building;
     electricity_price_timeseries := electricity_price_timeseries example_building;
     scenarios := example_scenarios;
     parse_parameter_water_density := parse_parameter_water_density example_building |}.

(** No storage is built, and yet the indicator says that it exists. *)
Definition example_idle_storage : var → Q :=
  with_storage_exists 1 example_valuation.

(** The example building with two timesteps one day apart. *)
Definition example_daily_building : Building :=
  {| timesteps := [0; 86400];
     states := states example_building;
     controls := controls example_building;
     outputs := outputs example_building;
     disturbances := disturbances example_building;
     state_matrix := state_matrix example_building;
     control_matrix := control_matrix example_building;
     disturbance_matrix := disturbance_matrix example_building;
     state_output_matrix := state_output_matrix example_building;
     control_output_matrix := control_output_matrix example_building;
     disturbance_output_matrix := disturbance_output_matrix example_building;
     disturbance_timeseries := disturbance_timeseries example_building;
     state_vector_initial := state_vector_initial example_building;
     output_constraint_timeseries_minimum :=
       output_constraint_timeseries_minimum example_building;
     output_constraint_timeseries_maximum :=
       output_constraint_timeseries_maximum example_building;
     electricity_price_timeseries := electricity_price_timeseries example_building;
     scenarios := example_scenarios;
     parse_parameter_water_density := parse_parameter_water_density example_building |}.

Definition example_daily_store : gmap loc (gmap Z Q) :=
  {[ 1%positive := {[ 0 := 1%Q; 86400 := 2%Q ]} ]}.

(** The same building when building a storage costs a fixed amount. *)
Definition example_costly_building : Building :=
  {| timesteps := timesteps example_storage_building;
     states := states example_storage_building;
     controls := controls example_storage_building;
     outputs := outputs example_storage_building;
     disturbances := disturbances example_storage_building;
     state_matrix := state_matrix example_storage_building;
     control_matrix := control_matrix example_storage_building;
     disturbance_matrix := disturbance_matrix example_storage_building;
     state_output_matrix := state_output_matrix example_storage_building;
     control_output_matrix := control_output_matrix example_storage_building;
     disturbance_output_matrix := disturbance_output_matrix example_storage_building;
     disturbance_timeseries := disturbance_timeseries example_storage_building;
     state_vector_initial := state_vector_initial example_storage_building;
     output_constraint_timeseries_minimum :=
       output_constraint_timeseries_minimum example_storage_building;
     output_constraint_timeseries_maximum :=
       output_constraint_timeseries_maximum example_storage_building;
     electricity_price_timeseries :=
       electricity_price_timeseries example_storage_building;
     scenarios :=
       {| building_storage_type := "sensible";
          storage_battery_depth_of_discharge := 1;
          storage_lifetime := 1;
          storage_planning_energy_installation_cost := 1;
          storage_planning_power_installation_cost := 1;
          storage_planning_fixed_installation_cost := 1 |};
     parse_parameter_water_density :=
       parse_parameter_water_density example_storage_building |}.

(** The example building with a water tank: its state of charge and the
    electric power that charges it are outputs. *)
Definition example_tank_building : Building :=
  {| timesteps := timesteps example_building;
     states := states example_building;
     controls := controls example_building;
     outputs := ["zone_temperature"%string; "storage_state_of_charge"%string;
                 "storage_charge_electric_power"%string];
     disturbances := disturbances example_building;
     state_matrix := state_matrix example_building;
     control_matrix := control_matrix example_building;
     disturbance_matrix := disturbance_matrix example_building;
     state_output_matrix := state_output_matrix example_building;
     control_output_matrix := control_output_matrix example_building;
     disturbance_output_matrix := disturbance_output_matrix example_building;
     disturbance_timeseries := disturbance_timeseries example_building;
     state_vector_initial := state_vector_initial example_building;
     output_constraint_timeseries_minimum :=
       output_constraint_timeseries_minimum example_building;
     output_constraint_timeseries_maximum :=
       output_constraint_timeseries_maximum example_building;
     electricity_price_timeseries := electricity_price_timeseries example_building;
     scenarios := example_scenarios;
     parse_parameter_water_density := parse_parameter_water_density example_building |}.


(** The timesteps of the load reduction window. *)
Definition in_window (start_time end_time : Z) (timestep : Z) : bool :=
  Z.geb timestep start_time && Z.ltb timestep end_time.

(** A load reduction over the second and third timestep of the example,
    against a reference demand of 10 at every timestep. *)
Definition example_reduction : Arguments_ :=
  {| output_vector_reference := Some (λ _ _, 10%Q);
     load_reduction_start_time := Some 3600;
     load_reduction_end_time := Some 10000;
     price_sensitivity_factor := None;
     price_sensitivity_timestep := None |}.

(** The heater draws the reference demand in the first hour and nothing
    afterwards: a reduction of 100 percent over the window. *)
Definition example_reduced : var → Q :=
  λ v, match v with
       | variable_state_vector t _ => if Z.eqb t 0 then 20%Q else 30%Q
       | variable_control_vector t _ => if Z.eqb t 0 then 10%Q else 0%Q
       | variable_output_vector t output =>
           if String.eqb output "zone_temperature"
           then (if Z.eqb t 0 then 20%Q else 30%Q)
           else (if Z.eqb t 0 then 10%Q else 0%Q)
       | variable_load_reduction => 100%Q
       | _ => 0%Q
       end.


(** The example building with a single timestep. *)
Definition example_short_building : Building :=
  {| timesteps := [0];
     states := states example_building;
     controls := controls example_building;
     outputs := outputs example_building;
     disturbances := disturbances example_building;
     state_matrix := state_matrix example_building;
     control_matrix := control_matrix example_building;
     disturbance_matrix := disturbance_matrix example_building;
     state_output_matrix := state_output_matrix example_building;
     control_output_matrix := control_output_matrix example_building;
     disturbance_output_matrix := disturbance_output_matrix example_building;
     disturbance_timeseries := disturbance_timeseries example_building;
     state_vector_initial := state_vector_initial example_building;
     output_constraint_timeseries_minimum :=
       output_constraint_timeseries_minimum example_building;
     output_constraint_timeseries_maximum :=
       output_constraint_timeseries_maximum example_building;
     electricity_price_timeseries := electricity_price_timeseries example_building;
     scenarios := example_scenarios;
     parse_parameter_water_density := parse_parameter_water_density example_building |}.

(** The example building with the third timestep half an hour late. *)
Definition example_uneven_building : Building :=
  {| timesteps := [0; 3600; 9000];
     states := states example_building;
     controls := controls example_building;
     outputs := outputs example_building;
     disturbances := disturbances example_building;
     state_matrix := state_matrix example_building;
     control_matrix := control_matrix example_building;
     disturbance_matrix := disturbance_matrix example_building;
     state_output_matrix := state_output_matrix example_building;
     control_output_matrix := control_output_matrix example_building;
     disturbance_output_matrix := disturbance_output_matrix example_building;
     disturbance_timeseries := disturbance_timeseries example_building;
     state_vector_initial := state_vector_initial example_building;
     output_constraint_timeseries_minimum :=
       output_constraint_timeseries_minimum example_building;
     output_constraint_timeseries_maximum :=
       output_constraint_timeseries_maximum example_building;
     electricity_price_timeseries := electricity_price_timeseries example_building;
     scenarios := example_scenarios;
     parse_parameter_water_density := parse_parameter_water_density example_building |}.


(** The domain a variable is declared with, if it is declared at all. *)
Definition declared_domain (b : Building) (pt : string) (v : var) : option domain :=
  match v with
  | variable_state_vector t n =>
      if mem_Z t (timesteps b) && mem_string n (states b) then Some Reals else None
  | variable_control_vector t n =>
      if mem_Z t (timesteps b) && mem_string n (controls b)
      then Some NonNegativeReals else None
  | variable_output_vector t n =>
      if mem_Z t (timesteps b) && mem_string n (outputs b) then Some Reals else None
  | variable_storage_size | variable_storage_peak_power =>
      if String.eqb pt "storage_planning" then Some NonNegativeReals else None
  | variable_storage_exists =>
      if String.eqb pt "storage_planning" then Some Binary else None
  | variable_load_reduction =>
      if String.eqb pt "load_reduction" then Some NonNegativeReals else None
  end.


(** ** Reading a valuation back from the results *)

(** An expression whose value is fixed by the variables that satisfy [P]. *)
Definition depends_only_on (P : var → Prop) (e : expr) : Prop :=
  ∀ rho rho', (∀ v, P v → rho v == rho' v) → eval rho e == eval rho' e.

Definition constraint_depends_only_on (P : var → Prop) (c : constraint) : Prop :=
  match c with
  | CEq l r | CLe l r | CGe l r => depends_only_on P l ∧ depends_only_on P r
  end.

(** The variables whose values solve returns: the states, controls and
    outputs of the timesteps and names of the building, and the storage
    size under ['storage_planning']. *)
Definition returned_variable (b : Building) (pt : string) (v : var) : Prop :=
  match v with
  | variable_state_vector t n => In t (timesteps b) ∧ In n (states b)
  | variable_control_vector t n => In t (timesteps b) ∧ In n (controls b)
  | variable_output_vector t n => In t (timesteps b) ∧ In n (outputs b)
  | variable_storage_size => pt = "storage_planning"%string
  | _ => False
  end.

(** The number in a cell of a table (0 where there is none). *)
Definition cell (entry : option (option Q)) : Q :=
  match entry with
  | Some (Some q) => q
  | _ => 0
  end.

(** The valuation that the tuple solve returns describes. *)
Definition read_back (ret : SolveReturn) : var → Q :=
  λ v, match v with
       | variable_state_vector t n => cell (state_vector ret !! (t, n))
       | variable_control_vector t n => cell (control_vector ret !! (t, n))
       | variable_output_vector t n => cell (output_vector ret !! (t, n))
       | variable_storage_size => default 0%Q (storage_size ret)
       | _ => 0%Q
       end.





(** The variables that occur in an expression. *)
Fixpoint vars (e : expr) : list var :=
  match e with
  | Const _ => []
  | Var v => [v]
  | Add a b | Sub a b | Mul a b | Div a b => vars a ++ vars b
  end.

(** The outputs that the operation cost weighs, by problem type. *)
Definition is_cost_output (pt : string) (output : string) : bool :=
  if is_load_problem pt
  then String.eqb output "grid_electric_power"
  else is_electric_demand output.


(** A solver run whose status Pyomo refuses to load. *)
Definition example_solver_error : ConcreteModel → SolverRun :=
  λ _, {| bad_status := true;
          termination_condition := other_termination;
          loaded := λ _, None |}.

(** * Proofs *)

(** ** Basic facts *)

Lemma eval_add rho a b : eval rho (add a b) = (eval rho a + eval rho b)%Q.
Proof. destruct a, b; reflexivity. Qed.

Lemma eval_sub rho a b : eval rho (sub a b) = (eval rho a - eval rho b)%Q.
Proof. destruct a, b; reflexivity. Qed.

Lemma eval_mul rho a b : eval rho (mul a b) = (eval rho a * eval rho b)%Q.
Proof. destruct a, b; reflexivity. Qed.

Lemma eval_div rho a b : eval rho (div a b) = (eval rho a / eval rho b)%Q.
Proof. destruct a, b; reflexivity. Qed.

Lemma eval_fold_add rho l acc :
  eval rho (fold_left add l acc) == eval rho acc + eval rho (py_sum l).
Proof.
  unfold py_sum. revert acc.
  assert (H : ∀ l acc, eval rho (fold_left add l acc)
                       == eval rho acc + eval rho (fold_left add l (Const 0))).
  { clear l. induction l as [|e l IH]; intros acc; cbn [fold_left].
    - simpl. ring.
    - rewrite IH. rewrite (IH (add (Const 0) e)). rewrite !eval_add. simpl. ring. }
  intros acc. apply H.
Qed.

Lemma eval_py_sum_cons rho e l :
  eval rho (py_sum (e :: l)) == eval rho e + eval rho (py_sum l).
Proof.
  unfold py_sum at 1. cbn [fold_left]. rewrite eval_fold_add, eval_add. simpl. ring.
Qed.

Lemma eval_py_sum_nil rho : eval rho (py_sum []) = 0%Q.
Proof. reflexivity. Qed.

(** A sum of products of a float and a variable is a dot product. *)
Lemma eval_py_sum_dot rho (coefficient : string → Q) (mk : string → var) l :
  eval rho (py_sum (map (λ n, mul (Const (coefficient n)) (Var (mk n))) l))
  == dot coefficient (λ n, rho (mk n)) l.
Proof.
  induction l as [|n l IH]; simpl map.
  - reflexivity.
  - rewrite eval_py_sum_cons, IH. simpl. reflexivity.
Qed.

Lemma eval_py_sum_dot_const rho (coefficient x : string → Q) l :
  eval rho (py_sum (map (λ n, mul (Const (coefficient n)) (Const (x n))) l))
  == dot coefficient x l.
Proof.
  induction l as [|n l IH]; simpl map.
  - reflexivity.
  - rewrite eval_py_sum_cons, IH. simpl. reflexivity.
Qed.

Lemma res_bind_ok {A B} (r : res A) (k : A → res B) b :
  res_bind r k = Ok b → ∃ a, r = Ok a ∧ k a = Ok b.
Proof. destruct r as [a|e]; simpl; [eauto | discriminate]. Qed.

Ltac inv_res :=
  repeat match goal with
    | H : res_bind _ _ = Ok _ |- _ =>
        let a := fresh "a" in
        let Ha := fresh "Ha" in
        apply res_bind_ok in H; destruct H as (a & Ha & H)
    | H : Ok _ = Ok _ |- _ => injection H as H
    | H : Raise _ = Ok _ |- _ => discriminate H
    end.

Lemma for_each_ok_in {A B} (body : A → res (list B)) l cs x :
  for_each body l = Ok cs → In x l →
  ∃ here, body x = Ok here ∧ incl here cs.
Proof.
  revert cs. induction l as [|y l IH]; intros cs Hok Hin; [destruct Hin|].
  simpl in Hok. inv_res. subst cs.
  destruct Hin as [->|Hin].
  - exists a. split; [assumption | apply incl_appl, incl_refl].
  - destruct (IH _ Ha0 Hin) as (here & Hb & Hincl).
    exists here. split; [assumption | apply incl_appr, Hincl].
Qed.

Lemma for_each_ok_inv {A B} (body : A → res (list B)) l cs c :
  for_each body l = Ok cs → In c cs →
  ∃ x here, In x l ∧ body x = Ok here ∧ In c here.
Proof.
  revert cs. induction l as [|y l IH]; intros cs Hok Hin; simpl in Hok; inv_res.
  - subst cs. destruct Hin.
  - subst cs. apply in_app_or in Hin. destruct Hin as [Hin|Hin].
    + exists y, a. auto with datatypes.
    + destruct (IH _ Ha0 Hin) as (x & here & Hx & Hb & Hc).
      exists x, here. auto with datatypes.
Qed.

Lemma for_each_ok_flat_map {A B} (body : A → res (list B)) (g : A → list B) l :
  (∀ x, In x l → body x = Ok (g x)) → for_each body l = Ok (flat_map g l).
Proof.
  induction l as [|y l IH]; intros H; simpl; [reflexivity|].
  rewrite (H y) by (left; reflexivity). simpl.
  rewrite IH by (intros x Hx; apply H; right; exact Hx). reflexivity.
Qed.

Lemma for_each_ok_length {A B} (body : A → res (list B)) l cs k :
  for_each body l = Ok cs →
  (∀ x here, In x l → body x = Ok here → length here = k) →
  length cs = (k * length l)%nat.
Proof.
  revert cs. induction l as [|y l IH]; intros cs Hok Hk; simpl in Hok; inv_res.
  - subst cs. simpl. lia.
  - subst cs. rewrite length_app.
    rewrite (Hk y a) by (auto with datatypes).
    rewrite (IH _ Ha0) by (intros x here Hx; apply Hk; right; exact Hx).
    simpl. lia.
Qed.

Lemma getitem_ok {A} (l : list A) i x : getitem l i = Ok x ↔ nth_error l i = Some x.
Proof.
  unfold getitem. destruct (nth_error l i); split; intros H;
    try discriminate; congruence.
Qed.

Lemma consecutive_in_all_but_last (l : list Z) t t' :
  In (t, t') (consecutive l) → In t (all_but_last l).
Proof.
  unfold consecutive, all_but_last.
  induction l as [|a l IH]; intros H; [destruct H|].
  destruct l as [|b l]; [destruct H|].
  simpl in H. destruct H as [H|H].
  - injection H as -> ->. left. reflexivity.
  - right. apply IH. exact H.
Qed.

Lemma consecutive_length (l : list Z) :
  length (consecutive l) = (length l - 1)%nat.
Proof.
  unfold consecutive. rewrite length_combine.
  destruct l as [|a l]; cbn [tl length]; lia.
Qed.

Lemma all_but_last_length {A} (l : list A) :
  length (all_but_last l) = (length l - 1)%nat.
Proof.
  unfold all_but_last. induction l as [|a l IH]; [reflexivity|].
  destruct l as [|b l]; [reflexivity|].
  change (removelast (a :: b :: l)) with (a :: removelast (b :: l)).
  cbn [length]. rewrite IH. cbn [length]. lia.
Qed.

Lemma equally_spaced_step (l : list Z) t0 t1 t t' :
  equally_spaced l = true →
  nth_error l 0 = Some t0 → nth_error l 1 = Some t1 →
  In (t, t') (consecutive l) → t' = t + (t1 - t0).
Proof.
  intros Heq H0 H1 Hin.
  destruct l as [|a [|b l]]; try discriminate.
  simpl in H0, H1. injection H0 as ->. injection H1 as ->.
  unfold equally_spaced in Heq.
  rewrite forallb_forall in Heq. specialize (Heq _ Hin). simpl in Heq.
  apply Z.eqb_eq in Heq. lia.
Qed.

(** ** The constructor, taken apart *)

Lemma init_ok configured_solver b pt args h self h' :
  __init__ configured_solver b pt args h = (Ok self, h') →
  ∃ frame0 initial delta transition bounds auxiliary factor frame opex,
    h !! electricity_price_timeseries b = Some frame0
    ∧ initial_state_constraints b = Ok initial
    ∧ timestep_delta b = Ok delta
    ∧ state_equation_constraints b delta = Ok transition
    ∧ output_bounds_constraints b pt = Ok bounds
    ∧ auxiliary_constraints b pt args = Ok auxiliary
    ∧ operation_cost_factor_of b pt delta = Ok factor
    ∧ perturbed pt args frame0 frame
    ∧ h' = <[fresh (dom h) := frame]> h
    ∧ operation_cost_of b pt frame delta factor = Ok opex
    ∧ self =
        {| self_building := b;
           self_problem_type := pt;
           self_arguments := args;
           self_electricity_price_timeseries := fresh (dom h);
           problem :=
             {| variables := variables_declared b pt;
                constraints :=
                  initial ++ transition ++ output_equation_constraints b
                  ++ bounds ++ auxiliary;
                objective := add opex (investment_cost_of b pt);
                var_value := λ _, None |};
           solver := configured_solver;
           result := None;
           operation_cost_factor := factor;
           operation_cost := opex;
           investment_cost := investment_cost_of b pt |}.
Proof.
  unfold __init__, bind, lift, copy, read_frame, ret, perturbed.
  destruct (h !! electricity_price_timeseries b) as [frame0|] eqn:Hframe0;
    [|discriminate].
  destruct (initial_state_constraints b) as [initial|] eqn:Hinitial; [|discriminate].
  destruct (timestep_delta b) as [delta|] eqn:Hdelta; [|discriminate].
  destruct (state_equation_constraints b delta) as [transition|] eqn:Htransition;
    [|discriminate].
  destruct (output_bounds_constraints b pt) as [bounds|] eqn:Hbounds; [|discriminate].
  destruct (auxiliary_constraints b pt args) as [auxiliary|] eqn:Hauxiliary;
    [|discriminate].
  destruct (operation_cost_factor_of b pt delta) as [factor|] eqn:Hfactor;
    [|discriminate].
  set (l := fresh (dom h)).
  destruct (String.eqb pt "price_sensitivity") eqn:Hpt.
  - unfold price_at_imul. rewrite lookup_insert_eq.
    destruct (price_sensitivity_timestep args) as [t|]; [|discriminate].
    destruct (frame0 !! t) as [p|] eqn:Hp; [|discriminate].
    destruct (price_sensitivity_factor args) as [f|]; [|discriminate].
    rewrite lookup_insert_eq.
    destruct (operation_cost_of b pt (<[t:=(p * f)%Q]> frame0) delta factor)
      as [opex|] eqn:Hopex; [|discriminate].
    intros H. injection H as <- <-.
    exists frame0, initial, delta, transition, bounds, auxiliary, factor,
      (<[t:=(p * f)%Q]> frame0), opex.
    repeat split; try assumption; try reflexivity.
    + exists t, p, f. repeat split; try reflexivity. assumption.
    + apply insert_insert_eq.
  - rewrite lookup_insert_eq.
    destruct (operation_cost_of b pt frame0 delta factor) as [opex|] eqn:Hopex;
      [|discriminate].
    intros H. injection H as <- <-.
    exists frame0, initial, delta, transition, bounds, auxiliary, factor, frame0, opex.
    repeat split; try assumption; reflexivity.
Qed.

Lemma timestep_delta_ok b delta :
  timestep_delta b = Ok delta →
  ∃ t0 t1, nth_error (timesteps b) 0 = Some t0
           ∧ nth_error (timesteps b) 1 = Some t1
           ∧ delta = t1 - t0.
Proof.
  unfold timestep_delta. intros H. inv_res.
  apply getitem_ok in Ha, Ha0. exists a0, a. subst delta. auto.
Qed.

Lemma state_vector_getitem_ok b t s e :
  state_vector_getitem b t s = Ok e → e = Var (variable_state_vector t s).
Proof.
  unfold state_vector_getitem.
  destruct (mem_Z t (timesteps b) && mem_string s (states b)); intros H;
    [injection H as <-; reflexivity | discriminate].
Qed.

(** The value of both sides of the dynamics. *)
Lemma eval_state_equation_rhs b rho state timestep :
  eval rho (state_equation_rhs b state timestep)
  == dot (state_matrix b state)
         (λ n, rho (variable_state_vector timestep n)) (states b)
     + dot (control_matrix b state)
         (λ n, rho (variable_control_vector timestep n)) (controls b)
     + dot (disturbance_matrix b state)
         (disturbance_timeseries b timestep) (disturbances b).
Proof.
  unfold state_equation_rhs. rewrite !eval_add.
  rewrite (eval_py_sum_dot rho (state_matrix b state)
             (variable_state_vector timestep)).
  rewrite (eval_py_sum_dot rho (control_matrix b state)
             (variable_control_vector timestep)).
  rewrite (eval_py_sum_dot_const rho (disturbance_matrix b state)
             (disturbance_timeseries b timestep)).
  reflexivity.
Qed.

(** ** The dynamics *)

(** C1. When the constructor returns a problem for a building whose
    timesteps are equally spaced, the constraints of the problem contain,
    for each state, the equality of the state variable at the first timestep
    with the initial state vector, and for each state and each pair of
    consecutive timesteps the equality of the next state with
    A·state + B·control + E·disturbance at the current timestep; every
    feasible valuation satisfies these equations, and the state equation
    contributes N−1 equalities per state. *)
Theorem dynamics_constraints configured_solver b pt args h self h' :
  __init__ configured_solver b pt args h = (Ok self, h') →
  equally_spaced (timesteps b) = true →
  (∀ state t0,
      In state (states b) → nth_error (timesteps b) 0 = Some t0 →
      In (CEq (Var (variable_state_vector t0 state))
              (Const (state_vector_initial b state)))
         (constraints (problem self))
      ∧ ∀ rho, feasible (problem self) rho →
               rho (variable_state_vector t0 state) == state_vector_initial b state)
  ∧ (∀ state t t',
        In state (states b) → In (t, t') (consecutive (timesteps b)) →
        In (CEq (Var (variable_state_vector t' state)) (state_equation_rhs b state t))
           (constraints (problem self))
        ∧ ∀ rho, feasible (problem self) rho →
                 rho (variable_state_vector t' state)
                 == dot (state_matrix b state)
                        (λ n, rho (variable_state_vector t n)) (states b)
                    + dot (control_matrix b state)
                        (λ n, rho (variable_control_vector t n)) (controls b)
                    + dot (disturbance_matrix b state)
                        (disturbance_timeseries b t) (disturbances b))
  ∧ (∃ delta transition,
        timestep_delta b = Ok delta
        ∧ state_equation_constraints b delta = Ok transition
        ∧ incl transition (constraints (problem self))
        ∧ length transition
          = (length (states b) * (length (timesteps b) - 1))%nat).
Proof.
  intros Hinit Hspaced.
  destruct (init_ok _ _ _ _ _ _ _ Hinit)
    as (frame0 & initial & delta & transition & bounds & auxiliary & factor
        & frame & opex & _ & Hinitial & Hdelta & Htransition & _ & _ & _ & _ & _
        & _ & ->).
  cbn [problem constraints].
  destruct (timestep_delta_ok _ _ Hdelta) as (t0 & t1 & H0 & H1 & ->).
  assert (Hfirst : ∀ state t, In state (states b) →
            nth_error (timesteps b) 0 = Some t →
            In (CEq (Var (variable_state_vector t state))
                    (Const (state_vector_initial b state)))
               (initial ++ transition ++ output_equation_constraints b
                ++ bounds ++ auxiliary)).
  { intros state t Hstate Ht.
    destruct (for_each_ok_in _ _ _ _ Hinitial Hstate) as (here & Hbody & Hincl).
    apply getitem_ok in Ht. rewrite Ht in Hbody. simpl in Hbody.
    injection Hbody as <-.
    apply in_or_app. left. apply Hincl. left. reflexivity. }
  assert (Hnext : ∀ state t t', In state (states b) →
            In (t, t') (consecutive (timesteps b)) →
            In (CEq (Var (variable_state_vector t' state))
                    (state_equation_rhs b state t))
               (initial ++ transition ++ output_equation_constraints b
                ++ bounds ++ auxiliary)).
  { intros state t t' Hstate Hpair.
    destruct (for_each_ok_in _ _ _ _ Htransition Hstate) as (row & Hrow & Hincl).
    pose proof (consecutive_in_all_but_last _ _ _ Hpair) as Ht.
    destruct (for_each_ok_in _ _ _ _ Hrow Ht) as (here & Hbody & Hincl').
    inv_res. apply state_vector_getitem_ok in Ha. subst a here.
    rewrite (equally_spaced_step _ _ _ _ _ Hspaced H0 H1 Hpair).
    apply in_or_app. right. apply in_or_app. left.
    apply Hincl, Hincl'. left. reflexivity. }
  split; [|split].
  - intros state t Hstate Ht. split; [exact (Hfirst _ _ Hstate Ht)|].
    intros rho [_ Hsat]. exact (Hsat _ (Hfirst _ _ Hstate Ht)).
  - intros state t t' Hstate Hpair. split; [exact (Hnext _ _ _ Hstate Hpair)|].
    intros rho [_ Hsat]. pose proof (Hsat _ (Hnext _ _ _ Hstate Hpair)) as Heq.
    simpl in Heq. rewrite Heq. apply eval_state_equation_rhs.
  - exists (t1 - t0), transition. repeat split; try assumption.
    + intros c Hc. apply in_or_app. right. apply in_or_app. left. exact Hc.
    + rewrite <- all_but_last_length.
      rewrite (for_each_ok_length _ _ _ (length (all_but_last (timesteps b)))
                 Htransition); [lia|].
      intros state row _ Hrow.
      rewrite (for_each_ok_length _ _ _ 1%nat Hrow); [lia|].
      intros t here _ Hbody. inv_res. subst here. reflexivity.
Qed.

Lemma dynamics_constraints_witness :
  ∃ self h',
    __init__ example_solver example_building "operation" no_arguments example_store
    = (Ok self, h')
    ∧ In (CEq (Var (variable_state_vector 3600 "zone_temperature"))
              (state_equation_rhs example_building "zone_temperature" 0))
         (constraints (problem self)).
Proof.
  eexists _, _. split; [reflexivity|].
  eapply (dynamics_constraints example_solver example_building "operation"
            no_arguments example_store);
    [reflexivity | reflexivity | left; reflexivity | left; reflexivity].
Defined.

(** ** The bounds of the outputs *)

Lemma initial_state_not_lower_bound b cs c :
  initial_state_constraints b = Ok cs → In c cs → is_lower_bound c = false.
Proof.
  intros Hok Hin.
  destruct (for_each_ok_inv _ _ _ _ Hok Hin) as (state & here & _ & Hbody & Hc).
  inv_res. subst here. destruct Hc as [<-|[]]. reflexivity.
Qed.

Lemma state_equation_not_lower_bound b delta cs c :
  state_equation_constraints b delta = Ok cs → In c cs → is_lower_bound c = false.
Proof.
  intros Hok Hin.
  destruct (for_each_ok_inv _ _ _ _ Hok Hin) as (state & row & _ & Hrow & Hc).
  destruct (for_each_ok_inv _ _ _ _ Hrow Hc) as (t & here & _ & Hbody & Hc').
  inv_res. subst here. destruct Hc' as [<-|[]]. reflexivity.
Qed.

Lemma output_equation_not_lower_bound b c :
  In c (output_equation_constraints b) → is_lower_bound c = false.
Proof.
  unfold output_equation_constraints. intros Hin.
  apply in_flat_map in Hin. destruct Hin as (output & _ & Hin).
  apply in_map_iff in Hin. destruct Hin as (t & <- & _). reflexivity.
Qed.

Lemma output_maximum_not_lower_bound b pt output t c :
  In c (output_maximum_constraint b pt output t) → is_lower_bound c = false.
Proof.
  unfold output_maximum_constraint.
  repeat match goal with |- context [if ?x then _ else _] => destruct x end;
    intros [<-|[]] || intros []; reflexivity.
Qed.

Lemma auxiliary_not_lower_bound b pt args cs c :
  auxiliary_constraints b pt args = Ok cs → In c cs → is_lower_bound c = false.
Proof.
  unfold auxiliary_constraints.
  destruct (String.eqb pt "storage_planning").
  - intros H Hin. injection H as <-. unfold storage_planning_constraints in Hin.
    apply in_flat_map in Hin. destruct Hin as (t & _ & [<-|[<-|[]]]); reflexivity.
  - destruct (String.eqb pt "load_reduction").
    + unfold load_reduction_constraints. intros Hok Hin.
      destruct (for_each_ok_inv _ _ _ _ Hok Hin) as (t & here & _ & Hbody & Hc).
      unfold load_reduction_constraint in Hbody.
      destruct (load_reduction_start_time args); [|discriminate].
      destruct (Z.geb t z).
      * destruct (load_reduction_end_time args); [|discriminate].
        destruct (Z.ltb t z0).
        -- inv_res. subst here. destruct Hc as [<-|[]]. reflexivity.
        -- inv_res. subst here. destruct Hc.
      * inv_res. subst here. destruct Hc.
    + intros H Hin. injection H as <-. destruct Hin.
Qed.

(** The minimum part, once the first timestep is known. *)
Lemma output_minimum_constraint_eq b pt output t t0 :
  nth_error (timesteps b) 0 = Some t0 →
  output_minimum_constraint b pt output t
  = Ok (if contains "temperature" output && String.eqb pt "maximum_load"
        then if Z.eqb t t0
             then []
             else [CEq (Var (variable_output_vector t output))
                       (Const (output_constraint_timeseries_minimum b t output))]
        else [CGe (Var (variable_output_vector t output))
                  (Const (output_constraint_timeseries_minimum b t output))]).
Proof.
  intros H0. unfold output_minimum_constraint.
  apply getitem_ok in H0. rewrite H0. simpl.
  destruct (contains "temperature" output && String.eqb pt "maximum_load");
    [destruct (Z.eqb t t0)|]; reflexivity.
Qed.

Lemma output_bounds_in b pt cs output t :
  output_bounds_constraints b pt = Ok cs →
  In output (outputs b) → In t (timesteps b) →
  ∃ lower, output_minimum_constraint b pt output t = Ok lower
           ∧ incl (lower ++ output_maximum_constraint b pt output t) cs.
Proof.
  intros Hok Houtput Ht.
  destruct (for_each_ok_in _ _ _ _ Hok Houtput) as (row & Hrow & Hincl).
  destruct (for_each_ok_in _ _ _ _ Hrow Ht) as (here & Hbody & Hincl').
  inv_res. subst here. exists a. split; [assumption|].
  intros c Hc. apply Hincl, Hincl', Hc.
Qed.

Lemma output_bounds_inv b pt cs c :
  output_bounds_constraints b pt = Ok cs → In c cs →
  ∃ output t lower,
    In output (outputs b) ∧ In t (timesteps b)
    ∧ output_minimum_constraint b pt output t = Ok lower
    ∧ In c (lower ++ output_maximum_constraint b pt output t).
Proof.
  intros Hok Hin.
  destruct (for_each_ok_inv _ _ _ _ Hok Hin) as (output & row & Ho & Hrow & Hc).
  destruct (for_each_ok_inv _ _ _ _ Hrow Hc) as (t & here & Ht & Hbody & Hc').
  inv_res. subst here. exists output, t, a. auto.
Qed.

(** A lower bound inequality of the problem comes from the minimum part of
    the bounds of an output that is not pinned. *)
Lemma lower_bound_origin configured_solver b pt args h self h' v q :
  __init__ configured_solver b pt args h = (Ok self, h') →
  In (CGe (Var v) (Const q)) (constraints (problem self)) →
  ∃ output t,
    v = variable_output_vector t output
    ∧ contains "temperature" output && String.eqb pt "maximum_load" = false.
Proof.
  intros Hinit Hin.
  destruct (init_ok _ _ _ _ _ _ _ Hinit)
    as (frame0 & initial & delta & transition & bounds & auxiliary & factor
        & frame & opex & _ & Hinitial & Hdelta & Htransition & Hbounds & Haux
        & _ & _ & _ & _ & ->).
  cbn [problem constraints] in Hin.
  destruct (timestep_delta_ok _ _ Hdelta) as (t0 & t1 & H0 & _ & _).
  repeat (apply in_app_or in Hin; destruct Hin as [Hin|Hin]).
  - apply (initial_state_not_lower_bound _ _ _ Hinitial) in Hin. discriminate.
  - apply (state_equation_not_lower_bound _ _ _ _ Htransition) in Hin. discriminate.
  - apply output_equation_not_lower_bound in Hin. discriminate.
  - destruct (output_bounds_inv _ _ _ _ Hbounds Hin)
      as (output & t & lower & _ & _ & Hlower & Hc).
    apply in_app_or in Hc. destruct Hc as [Hc|Hc].
    + rewrite (output_minimum_constraint_eq _ _ _ _ _ H0) in Hlower.
      injection Hlower as <-.
      destruct (contains "temperature" output && String.eqb pt "maximum_load")
        eqn:Hpinned.
      * destruct (Z.eqb t t0); [destruct Hc|]. destruct Hc as [Hc|[]]. discriminate.
      * destruct Hc as [Hc|[]]. injection Hc as <- _. exists output, t. auto.
    + apply output_maximum_not_lower_bound in Hc. discriminate.
  - apply (auxiliary_not_lower_bound _ _ _ _ _ Haux) in Hin. discriminate.
Qed.

(** C8. In a problem the constructor returns, the minimum bound of an output
    at a timestep is: under ['maximum_load'] and for an output whose name
    contains ['temperature'], nothing at the first timestep and the equality
    with the minimum bound at every other timestep; in every other case
    (another output, or another problem type) the inequality with the
    minimum bound. *)
Theorem maximum_load_pinning configured_solver b pt args h self h' :
  __init__ configured_solver b pt args h = (Ok self, h') →
  ∃ t0, nth_error (timesteps b) 0 = Some t0 ∧
  ∀ output t,
    In output (outputs b) → In t (timesteps b) →
    let v := Var (variable_output_vector t output) in
    let lower := Const (output_constraint_timeseries_minimum b t output) in
    if contains "temperature" output && String.eqb pt "maximum_load"
    then
      ¬ In (CGe v lower) (constraints (problem self))
      ∧ if Z.eqb t t0
        then output_minimum_constraint b pt output t = Ok []
        else output_minimum_constraint b pt output t = Ok [CEq v lower]
             ∧ In (CEq v lower) (constraints (problem self))
             ∧ ∀ rho, feasible (problem self) rho →
                      rho (variable_output_vector t output)
                      == output_constraint_timeseries_minimum b t output
    else
      output_minimum_constraint b pt output t = Ok [CGe v lower]
      ∧ In (CGe v lower) (constraints (problem self))
      ∧ ∀ rho, feasible (problem self) rho →
               (output_constraint_timeseries_minimum b t output
                <= rho (variable_output_vector t output))%Q.
Proof.
  intros Hinit.
  pose proof (λ v q, lower_bound_origin _ _ _ _ _ _ _ v q Hinit) as Horigin.
  destruct (init_ok _ _ _ _ _ _ _ Hinit)
    as (frame0 & initial & delta & transition & bounds & auxiliary & factor
        & frame & opex & _ & _ & Hdelta & _ & Hbounds & _ & _ & _ & _ & _ & ->).
  cbn [problem constraints] in *.
  destruct (timestep_delta_ok _ _ Hdelta) as (t0 & t1 & H0 & _ & _).
  exists t0. split; [exact H0|].
  intros output t Houtput Ht.
  set (v := Var (variable_output_vector t output)).
  set (lower := Const (output_constraint_timeseries_minimum b t output)).
  destruct (output_bounds_in _ _ _ _ _ Hbounds Houtput Ht) as (low & Hlow & Hincl).
  pose proof (output_minimum_constraint_eq b pt output t t0 H0) as Hmin.
  assert (Hmember : ∀ c, In c low →
            In c (initial ++ transition ++ output_equation_constraints b
                  ++ bounds ++ auxiliary)).
  { intros c Hc. do 3 (apply in_or_app; right). apply in_or_app. left.
    apply Hincl. apply in_or_app. left. exact Hc. }
  rewrite Hmin in Hlow. injection Hlow as <-.
  destruct (contains "temperature" output && String.eqb pt "maximum_load")
    eqn:Hpinned.
  - split.
    + intros Hge. destruct (Horigin _ _ Hge) as (output' & t' & Hv & Hfree).
      injection Hv as _ <-. congruence.
    + destruct (Z.eqb t t0); [exact Hmin|].
      split; [exact Hmin|]. split; [apply Hmember; left; reflexivity|].
      intros rho [_ Hsat]. apply (Hsat (CEq v lower)). apply Hmember. left. reflexivity.
  - split; [exact Hmin|]. split; [apply Hmember; left; reflexivity|].
    intros rho [_ Hsat]. apply (Hsat (CGe v lower)). apply Hmember. left. reflexivity.
Qed.

Lemma maximum_load_pinning_witness :
  ∃ self h',
    __init__ example_solver example_building "maximum_load" no_arguments example_store
    = (Ok self, h')
    ∧ In (CEq (Var (variable_output_vector 3600 "zone_temperature")) (Const 0))
         (constraints (problem self)).
Proof.
  eexists _, _. split; [reflexivity|].
  destruct (maximum_load_pinning example_solver example_building "maximum_load"
              no_arguments example_store _ _ eq_refl) as (t0 & H0 & H).
  injection H0 as <-.
  exact (proj1 (proj2 (proj2
           (H "zone_temperature"%string 3600
              (or_introl eq_refl) (or_intror (or_introl eq_refl)))))).
Defined.

(** ** Reading the results back *)

Lemma set_row_other sigma mk t names frame t' n :
  t' ≠ t ∨ ¬ In n names →
  set_row sigma mk t names frame !! (t', n) = frame !! (t', n).
Proof.
  unfold set_row. revert frame.
  induction names as [|m names IH]; intros frame H; [reflexivity|].
  cbn [fold_left]. rewrite IH.
  - apply lookup_insert_ne. intros Heq. injection Heq as -> ->.
    destruct H as [H|H]; [congruence | apply H; left; reflexivity].
  - destruct H as [H|H]; [left; exact H | right; intros Hn; apply H; right; exact Hn].
Qed.

Lemma set_row_in sigma mk t names frame n :
  In n names →
  set_row sigma mk t names frame !! (t, n) = Some (sigma (mk t n)).
Proof.
  revert frame. induction names as [|m names IH]; intros frame H; [destruct H|].
  destruct (in_dec string_dec n names) as [Hin|Hout].
  - unfold set_row. cbn [fold_left]. apply IH. exact Hin.
  - destruct H as [->|H]; [|contradiction].
    change (set_row sigma mk t (n :: names) frame)
      with (set_row sigma mk t names (<[(t, n) := sigma (mk t n)]> frame)).
    rewrite set_row_other by (right; exact Hout).
    apply lookup_insert_eq.
Qed.

Lemma set_rows_other sigma mk names ts frame t n :
  ¬ In t ts →
  fold_left (λ frame t, set_row sigma mk t names frame) ts frame !! (t, n)
  = frame !! (t, n).
Proof.
  revert frame. induction ts as [|t' ts IH]; intros frame H; [reflexivity|].
  cbn [fold_left]. rewrite IH by (intros Hin; apply H; right; exact Hin).
  apply set_row_other. left. intros ->. apply H. left. reflexivity.
Qed.

Lemma set_rows_in sigma mk names ts frame t n :
  In t ts → In n names →
  fold_left (λ frame t, set_row sigma mk t names frame) ts frame !! (t, n)
  = Some (sigma (mk t n)).
Proof.
  revert frame. induction ts as [|t' ts IH]; intros frame Ht Hn; [destruct Ht|].
  cbn [fold_left].
  destruct (in_dec Z.eq_dec t ts) as [Hin|Hout].
  - apply IH; assumption.
  - destruct Ht as [->|Ht]; [|contradiction].
    rewrite set_rows_other by exact Hout. apply set_row_in. exact Hn.
Qed.

(** The loop over the timesteps fills the three tables side by side. *)
Lemma fold_left_triple {A B C T} (f : T → A → A) (g : T → B → B) (k : T → C → C)
    (l : list T) a b c :
  fold_left (λ '(x, y, z) t, (f t x, g t y, k t z)) l (a, b, c)
  = (fold_left (λ x t, f t x) l a,
     fold_left (λ y t, g t y) l b,
     fold_left (λ z t, k t z) l c).
Proof.
  revert a b c. induction l as [|t l IH]; intros a b c; [reflexivity|].
  cbn [fold_left]. apply IH.
Qed.

Lemma solve_ok self ret self' :
  solve self = (Ok ret, self') →
  let b := self_building self in
  let sigma := loaded (solver self (problem self)) in
  (∀ t n, In t (timesteps b) → In n (controls b) →
          control_vector ret !! (t, n) = Some (sigma (variable_control_vector t n)))
  ∧ (∀ t n, In t (timesteps b) → In n (states b) →
            state_vector ret !! (t, n) = Some (sigma (variable_state_vector t n)))
  ∧ (∀ t n, In t (timesteps b) → In n (outputs b) →
            output_vector ret !! (t, n) = Some (sigma (variable_output_vector t n)))
  ∧ cost_value sigma (operation_cost self) = Ok (operation_cost_value ret)
  ∧ cost_value sigma (investment_cost self) = Ok (investment_cost_value ret)
  ∧ storage_size ret
    = (if String.eqb (self_problem_type self) "storage_planning"
       then sigma variable_storage_size
       else if String.eqb (self_problem_type self) "storage_planning_baseline"
            then Some 0%Q
            else None)
  ∧ result self' = Some (termination_condition (solver self (problem self)))
  ∧ var_value (problem self') = sigma
  ∧ bad_status (solver self (problem self)) = false.
Proof.
  unfold solve. intros H.
  destruct (bad_status (solver self (problem self))); [discriminate|].
  injection H as Hret <-.
  rewrite fold_left_triple in Hret. inv_res. subst ret. cbn.
  repeat split; try assumption; intros t n Ht Hn; apply set_rows_in; assumption.
Qed.

Lemma satb_sat rho c : satb rho c = true → sat rho c.
Proof.
  destruct c; simpl; intros H;
    [apply Qeq_bool_iff | apply Qle_bool_iff | apply Qle_bool_iff]; exact H.
Qed.

Lemma in_domainb_in_domain d q : in_domainb d q = true → in_domain d q.
Proof.
  destruct d; simpl; intros H.
  - exact I.
  - apply Qle_bool_iff. exact H.
  - apply orb_true_iff in H. destruct H as [H|H]; apply Qeq_bool_iff in H; auto.
Qed.

Lemma feasibleb_feasible m rho : feasibleb m rho = true → feasible m rho.
Proof.
  unfold feasibleb, feasible. intros H.
  apply andb_true_iff in H. destruct H as [Hd Hc].
  rewrite forallb_forall in Hd, Hc. split.
  - intros v d Hin. apply in_domainb_in_domain. exact (Hd (v, d) Hin).
  - intros c Hin. apply satb_sat. exact (Hc c Hin).
Qed.

Lemma in_indexed_variables b mk names d t n :
  In t (timesteps b) → In n names →
  In (mk t n, d) (indexed_variables b mk names d).
Proof.
  intros Ht Hn. unfold indexed_variables.
  apply in_flat_map. exists t. split; [exact Ht|].
  apply in_map_iff. exists n. auto.
Qed.

(** C10. In a problem the constructor returns, whatever the problem type,
    every control variable of every timestep is declared over the
    non-negative reals; hence no feasible valuation gives a control a
    negative value, and when the solver loads a feasible valuation, no entry
    of the control table that solve returns is negative. *)
Theorem controls_nonnegative configured_solver b pt args h self h' :
  __init__ configured_solver b pt args h = (Ok self, h') →
  ∀ t control,
    In t (timesteps b) → In control (controls b) →
    In (variable_control_vector t control, NonNegativeReals)
       (variables (problem self))
    ∧ (∀ rho, feasible (problem self) rho →
              (0 <= rho (variable_control_vector t control))%Q)
    ∧ (∀ rho ret self',
          feasible (problem self) rho →
          loaded (solver self (problem self)) (variable_control_vector t control)
          = Some (rho (variable_control_vector t control)) →
          solve self = (Ok ret, self') →
          ∃ q, control_vector ret !! (t, control) = Some (Some q) ∧ (0 <= q)%Q).
Proof.
  intros Hinit t control Ht Hcontrol.
  destruct (init_ok _ _ _ _ _ _ _ Hinit)
    as (frame0 & initial & delta & transition & bounds & auxiliary & factor
        & frame & opex & _ & _ & _ & _ & _ & _ & _ & _ & _ & _ & ->).
  cbn [problem variables solver].
  assert (Hdecl : In (variable_control_vector t control, NonNegativeReals)
                     (variables_declared b pt)).
  { unfold variables_declared. apply in_or_app. right. apply in_or_app. left.
    apply in_indexed_variables; assumption. }
  assert (Hsign : ∀ rho, feasible
            {| variables := variables_declared b pt;
               constraints := initial ++ transition ++ output_equation_constraints b
                              ++ bounds ++ auxiliary;
               objective := add opex (investment_cost_of b pt);
               var_value := λ _, None |} rho →
            (0 <= rho (variable_control_vector t control))%Q).
  { intros rho [Hdom _]. exact (Hdom _ _ Hdecl). }
  split; [exact Hdecl|]. split; [exact Hsign|].
  intros rho ret self' Hfeasible Hloaded Hsolve.
  destruct (solve_ok _ _ _ Hsolve) as (Hcv & _).
  cbn [self_building solver problem] in Hcv.
  exists (rho (variable_control_vector t control)).
  split; [|exact (Hsign rho Hfeasible)].
  rewrite (Hcv t control Ht Hcontrol). rewrite Hloaded. reflexivity.
Qed.

Lemma controls_nonnegative_witness :
  ∃ self h' ret self',
    __init__ example_solver_off example_building "operation" no_arguments
      example_store = (Ok self, h')
    ∧ feasible (problem self) example_valuation
    ∧ solve self = (Ok ret, self')
    ∧ ∃ q, control_vector ret !! (3600, "heat"%string) = Some (Some q) ∧ (0 <= q)%Q.
Proof.
  eexists _, _, _, _. split; [reflexivity|].
  split; [apply feasibleb_feasible; vm_compute; reflexivity|].
  split; [reflexivity|].
  pose proof (controls_nonnegative example_solver_off example_building "operation"
                no_arguments example_store _ _ eq_refl 3600 "heat"%string
                (or_intror (or_introl eq_refl)) (or_introl eq_refl))
    as (_ & _ & H).
  eapply (H example_valuation);
    [apply feasibleb_feasible; vm_compute; reflexivity | reflexivity | reflexivity].
Defined.

(** A solver run that loads a value nowhere, or only outside the costs, is
    still read back; but a cost that mentions a variable without a value
    makes solve raise. *)
Example missing_value_in_cost_raises :
  ∃ self h',
    __init__ example_solver_gap_in_cost example_building "operation" no_arguments
      example_store = (Ok self, h')
    ∧ (solve self).1 = Raise ValueError.
Proof. eexists _, _. split; reflexivity. Qed.

(** ** The termination status *)

Lemma value_ext sigma sigma' e :
  (∀ v, sigma v = sigma' v) → value sigma e = value sigma' e.
Proof.
  intros H. induction e as [q|v|a IHa b IHb|a IHa b IHb|a IHa b IHb|a IHa b IHb];
    simpl; rewrite ?H, ?IHa, ?IHb; reflexivity.
Qed.

Lemma cost_value_ext sigma sigma' e :
  (∀ v, sigma v = sigma' v) → cost_value sigma e = cost_value sigma' e.
Proof.
  intros H. destruct e; try reflexivity; apply value_ext; exact H.
Qed.

Lemma set_row_ext sigma sigma' mk t names frame :
  (∀ v, sigma v = sigma' v) →
  set_row sigma mk t names frame = set_row sigma' mk t names frame.
Proof.
  intros H. unfold set_row. revert frame.
  induction names as [|n names IH]; intros frame; [reflexivity|].
  cbn [fold_left]. rewrite H. apply IH.
Qed.

Lemma set_rows_ext sigma sigma' mk names ts frame :
  (∀ v, sigma v = sigma' v) →
  fold_left (λ frame t, set_row sigma mk t names frame) ts frame
  = fold_left (λ frame t, set_row sigma' mk t names frame) ts frame.
Proof.
  intros H. revert frame. induction ts as [|t ts IH]; intros frame; [reflexivity|].
  cbn [fold_left]. rewrite (set_row_ext sigma sigma') by exact H. apply IH.
Qed.

(** ** Storage size and literal costs *)





(** ** The operation cost *)

Lemma fold_res_ok_cons {A B} (body : B → A → res B) x l acc r :
  fold_res body (x :: l) acc = Ok r →
  ∃ acc', body acc x = Ok acc' ∧ fold_res body l acc' = Ok r.
Proof. simpl. intros H. inv_res. eauto. Qed.

Lemma price_loc_ok frame t p : price_loc frame t = Ok p → frame !! t = Some p.
Proof.
  unfold price_loc. destruct (frame !! t); intros H; [congruence | discriminate].
Qed.

(** One timestep of the cost loop under a load problem. *)
Lemma operation_cost_row_load pt frame delta factor t rho l cost cost' :
  is_load_problem pt = true →
  fold_res (operation_cost_add pt frame delta factor t) l cost = Ok cost' →
  eval rho cost'
  == eval rho cost
     + total (λ output, rho (variable_output_vector t output))
             (List.filter (λ output, String.eqb output "grid_electric_power") l).
Proof.
  intros Hload. revert cost.
  induction l as [|output l IH]; intros cost H.
  - simpl in H. injection H as <-. simpl. ring.
  - apply fold_res_ok_cons in H. destruct H as (acc & Hadd & H).
    apply IH in H. rewrite H. clear H IH.
    unfold operation_cost_add in Hadd. rewrite Hload in Hadd.
    cbn [List.filter]. destruct (String.eqb output "grid_electric_power").
    + injection Hadd as <-. rewrite eval_add. simpl. ring.
    + injection Hadd as <-. ring.
Qed.

(** One timestep of the cost loop under any other problem type. *)
Lemma operation_cost_row_priced pt frame delta factor t rho l cost cost' :
  is_load_problem pt = false →
  fold_res (operation_cost_add pt frame delta factor t) l cost = Ok cost' →
  eval rho cost'
  == eval rho cost
     + total (λ output,
                (rho (variable_output_vector t output)
                 * (inject_Z (timedelta_seconds delta) / 3600 / 1000)
                 * price_of frame t * factor)%Q)
             (List.filter is_electric_demand l)
  ∧ (List.filter is_electric_demand l ≠ [] → is_Some (frame !! t)).
Proof.
  intros Hload. revert cost.
  induction l as [|output l IH]; intros cost H.
  - simpl in H. injection H as <-. split; [simpl; ring | intros Hne; contradiction].
  - apply fold_res_ok_cons in H. destruct H as (acc & Hadd & H).
    apply IH in H. destruct H as [H Hrow]. clear IH.
    unfold operation_cost_add in Hadd. rewrite Hload in Hadd.
    cbn [List.filter]. destruct (is_electric_demand output).
    + inv_res. apply price_loc_ok in Ha. split; [|intros _; eauto].
      rewrite H. subst acc. rewrite eval_add. cbn [eval total].
      unfold price_of. rewrite Ha. cbn [default from_option id]. field.
    + injection Hadd as <-. split; [rewrite H; ring | exact Hrow].
Qed.

Lemma operation_cost_load b pt frame delta factor rho opex :
  is_load_problem pt = true →
  operation_cost_of b pt frame delta factor = Ok opex →
  eval rho opex == grid_power_sum b rho.
Proof.
  intros Hload. unfold operation_cost_of, grid_power_sum.
  assert (H : ∀ ts cost cost',
             fold_res (λ cost t, fold_res (operation_cost_add pt frame delta factor t)
                                          (outputs b) cost) ts cost = Ok cost' →
             eval rho cost'
             == eval rho cost
                + total (λ t, total (λ output, rho (variable_output_vector t output))
                                    (List.filter (λ output,
                                               String.eqb output "grid_electric_power")
                                            (outputs b))) ts).
  { induction ts as [|t ts IH]; intros cost cost' H.
    - simpl in H. injection H as <-. simpl. ring.
    - apply fold_res_ok_cons in H. destruct H as (acc & Hrow & H).
      apply IH in H. rewrite H.
      rewrite (operation_cost_row_load pt frame delta factor t rho _ _ _ Hload Hrow).
      simpl. ring. }
  intros Hok. rewrite (H _ _ _ Hok). simpl. ring.
Qed.

Lemma operation_cost_priced b pt frame delta factor rho opex :
  is_load_problem pt = false →
  operation_cost_of b pt frame delta factor = Ok opex →
  eval rho opex
  == total (λ t,
              total (λ output,
                       (rho (variable_output_vector t output)
                        * (inject_Z (timedelta_seconds delta) / 3600 / 1000)
                        * price_of frame t * factor)%Q)
                    (List.filter is_electric_demand (outputs b)))
           (timesteps b)
  ∧ (List.filter is_electric_demand (outputs b) ≠ [] →
     ∀ t, In t (timesteps b) → is_Some (frame !! t)).
Proof.
  intros Hload. unfold operation_cost_of.
  assert (H : ∀ ts cost cost',
             fold_res (λ cost t, fold_res (operation_cost_add pt frame delta factor t)
                                          (outputs b) cost) ts cost = Ok cost' →
             eval rho cost'
             == eval rho cost
                + total (λ t,
                           total (λ output,
                                    (rho (variable_output_vector t output)
                                     * (inject_Z (timedelta_seconds delta)
                                        / 3600 / 1000)
                                     * price_of frame t * factor)%Q)
                                 (List.filter is_electric_demand (outputs b))) ts
             ∧ (List.filter is_electric_demand (outputs b) ≠ [] →
                ∀ t, In t ts → is_Some (frame !! t))).
  { induction ts as [|t ts IH]; intros cost cost' H.
    - simpl in H. injection H as <-. split; [simpl; ring | intros _ t []].
    - apply fold_res_ok_cons in H. destruct H as (acc & Hrow & H).
      apply IH in H. destruct H as [H Hrest].
      destruct (operation_cost_row_priced pt frame delta factor t rho _ _ _ Hload Hrow)
        as [Hhere Hprice].
      split.
      + rewrite H, Hhere. simpl. ring.
      + intros Hne t' [<-|Hin]; [exact (Hprice Hne) | exact (Hrest Hne t' Hin)]. }
  intros Hok. destruct (H _ _ _ Hok) as [Hsum Hprices].
  split; [rewrite Hsum; simpl; ring | exact Hprices].
Qed.

Lemma timedelta_seconds_small delta :
  0 <= delta < 86400 → timedelta_seconds delta = delta.
Proof. intros H. unfold timedelta_seconds. apply Z.mod_small. exact H. Qed.

(** C4, as amended. In a problem the constructor returns, the operation
    cost is, under ['minimum_load'] and ['maximum_load'], the sum of the
    grid electric power output over all timesteps, with no weight; under
    every other type, and for a timestep spacing below one day, it is the
    sum over every timestep and every output whose name contains
    ['electric_power'] but not ['storage_to_zone'] of the output times the
    spacing in hours divided by 1000 (W to kW), times the price of the
    timestep in the constructor's own, possibly perturbed, copy of the price
    series, times the operation cost factor of the type. *)
Theorem operation_cost_sum configured_solver b pt args h self h' :
  __init__ configured_solver b pt args h = (Ok self, h') →
  ∃ delta frame0 frame,
    timestep_delta b = Ok delta
    ∧ h !! electricity_price_timeseries b = Some frame0
    ∧ h' !! self_electricity_price_timeseries self = Some frame
    ∧ perturbed pt args frame0 frame
    ∧ operation_cost_factor_of b pt delta = Ok (operation_cost_factor self)
    ∧ ∀ rho,
        if is_load_problem pt
        then eval rho (operation_cost self) == grid_power_sum b rho
        else 0 <= delta < 86400 →
             eval rho (operation_cost self)
             == operation_cost_in_kWh b rho delta (price_of frame)
                  (operation_cost_factor self).
Proof.
  intros Hinit.
  destruct (init_ok _ _ _ _ _ _ _ Hinit)
    as (frame0 & initial & delta & transition & bounds & auxiliary & factor
        & frame & opex & Hframe0 & _ & Hdelta & _ & _ & _ & Hfactor & Hperturbed
        & -> & Hopex & ->).
  cbn [self_electricity_price_timeseries operation_cost operation_cost_factor].
  exists delta, frame0, frame.
  repeat (split; [first [assumption | apply lookup_insert_eq]|]).
  intros rho. destruct (is_load_problem pt) eqn:Hload.
  - exact (operation_cost_load _ _ _ _ _ _ _ Hload Hopex).
  - intros Hsmall.
    destruct (operation_cost_priced _ _ _ _ _ rho _ Hload Hopex) as [Hsum _].
    rewrite (timedelta_seconds_small _ Hsmall) in Hsum. exact Hsum.
Qed.

Lemma operation_cost_sum_witness :
  ∃ self h',
    __init__ example_solver example_building "operation" no_arguments example_store
    = (Ok self, h')
    ∧ eval (λ _, 1%Q) (operation_cost self)
      == operation_cost_in_kWh example_building (λ _, 1%Q) 3600
           (price_of example_prices) 1.
Proof.
  eexists _, _.
  lazymatch goal with |- ?P ∧ _ => assert (Hinit : P) by reflexivity end.
  split; [exact Hinit|].
  destruct (operation_cost_sum _ _ _ _ _ _ _ Hinit)
    as (delta & frame0 & frame & Hdelta & _ & Hframe & _ & _ & H).
  vm_compute in Hdelta. injection Hdelta as <-.
  vm_compute in Hframe. injection Hframe as <-.
  apply (H (λ _, 1%Q)). lia.
Defined.

(** C4, as stated, fails: on the example building, with every output at 1,
    the operation cost is 6/1000 while the sum of output × spacing in hours
    × price × factor is 6. *)
Lemma operation_cost_not_as_stated :
  ∃ self h',
    __init__ example_solver example_building "operation" no_arguments example_store
    = (Ok self, h')
    ∧ ¬ (eval (λ _, 1%Q) (operation_cost self)
         == operation_cost_stated example_building (λ _, 1%Q) 3600
              (price_of example_prices) (operation_cost_factor self)).
Proof.
  eexists _, _. split; [reflexivity|]. vm_compute. discriminate.
Qed.

(** With timesteps one day apart the [seconds] of the spacing are 0, and
    the operation cost is 0 whatever the outputs are. *)
Example daily_spacing_costs_nothing :
  ∃ self h',
    __init__ example_solver example_daily_building "operation" no_arguments
      example_daily_store = (Ok self, h')
    ∧ ∀ rho, eval rho (operation_cost self) == 0.
Proof.
  eexists _, _. split; [reflexivity|].
  intros rho.
  lazymatch goal with
  | |- eval _ ?e == _ => let e' := eval vm_compute in e in change e with e'
  end.
  cbn [eval]. field.
Qed.

(** ** The copy of the price series *)

Lemma preserves_ret {A} P (a : A) : preserves P (ret a).
Proof. intros h r h' H l _. injection H as _ <-. reflexivity. Qed.

Lemma preserves_lift {A} P (x : res A) : preserves P (lift x).
Proof. intros h r h' H l _. injection H as _ <-. reflexivity. Qed.

Lemma preserves_bind {A B} P (m : M A) (k : A → M B) :
  preserves P m → (∀ a, preserves P (k a)) → preserves P (bind m k).
Proof.
  intros Hm Hk h r h' H l Hl. unfold bind in H.
  destruct (m h) as [[a|e] h1] eqn:Hrun.
  - rewrite (Hk a _ _ _ H l Hl). exact (Hm _ _ _ Hrun l Hl).
  - injection H as _ <-. exact (Hm _ _ _ Hrun l Hl).
Qed.

Lemma preserves_read_frame P l : preserves P (read_frame l).
Proof.
  intros h r h' H l' _. unfold read_frame in H.
  destruct (h !! l); injection H as _ <-; reflexivity.
Qed.

Lemma preserves_price_at_imul target timestep factor :
  preserves (λ l, l ≠ target) (price_at_imul target timestep factor).
Proof.
  intros h r h' H l Hl. unfold price_at_imul in H.
  destruct (h !! target) as [frame|]; [|injection H as _ <-; reflexivity].
  destruct timestep as [t|]; [|injection H as _ <-; reflexivity].
  destruct (frame !! t) as [p|]; [|injection H as _ <-; reflexivity].
  destruct factor as [f|]; injection H as _ <-; [|reflexivity].
  apply lookup_insert_ne. congruence.
Qed.

(** Whatever the constructor does, and whether or not it raises, the frames
    that were in the store before are what they were. *)
Lemma init_frame configured_solver b pt args h r h' :
  __init__ configured_solver b pt args h = (r, h') →
  ∀ l frame, h !! l = Some frame → h' !! l = Some frame.
Proof.
  intros H l frame Hl. unfold __init__ in H.
  unfold bind at 1 in H. unfold copy in H.
  destruct (h !! electricity_price_timeseries b) as [frame0|];
    [|injection H as _ <-; exact Hl].
  set (l' := fresh (dom h)) in H.
  assert (Hfresh : l ≠ l').
  { intros ->. pose proof (is_fresh (dom h)) as Hnot.
    apply Hnot. apply elem_of_dom. eauto. }
  lazymatch type of H with
  | ?m _ = _ => assert (Hrest : preserves (λ l, l ≠ l') m)
  end.
  { repeat first
      [ apply preserves_bind; [|intros ?]
      | apply preserves_lift
      | apply preserves_ret
      | apply preserves_read_frame
      | apply preserves_price_at_imul
      | match goal with |- preserves _ (if ?c then _ else _) => destruct c end ]. }
  rewrite (Hrest _ _ _ H l Hfresh).
  rewrite lookup_insert_ne by congruence. exact Hl.
Qed.

(** C9. The constructor works on its own copy of the price series: it
    leaves every frame that was in the store, the building's price series
    among them, as it was, whether it returns or raises; when it returns,
    its copy is a new frame, equal to the building's except, under
    ['price_sensitivity'], at the one target timestep, where the price is
    multiplied by the factor; and the operation cost is accumulated from
    that copy. *)
Theorem price_perturbation_confined configured_solver b pt args h r h' :
  __init__ configured_solver b pt args h = (r, h') →
  (∀ l frame, h !! l = Some frame → h' !! l = Some frame)
  ∧ (∀ self, r = Ok self →
       ∃ frame0 frame delta,
         h !! electricity_price_timeseries b = Some frame0
         ∧ h' !! electricity_price_timeseries b = Some frame0
         ∧ self_electricity_price_timeseries self ≠ electricity_price_timeseries b
         ∧ h !! self_electricity_price_timeseries self = None
         ∧ h' !! self_electricity_price_timeseries self = Some frame
         ∧ timestep_delta b = Ok delta
         ∧ operation_cost_of b pt frame delta (operation_cost_factor self)
           = Ok (operation_cost self)
         ∧ if String.eqb pt "price_sensitivity"
           then ∃ t p f,
               price_sensitivity_timestep args = Some t
               ∧ price_sensitivity_factor args = Some f
               ∧ frame0 !! t = Some p
               ∧ frame !! t = Some (p * f)%Q
               ∧ ∀ t', t' ≠ t → frame !! t' = frame0 !! t'
           else frame = frame0).
Proof.
  intros Hinit. pose proof (init_frame _ _ _ _ _ _ _ Hinit) as Hframe.
  split; [exact Hframe|].
  intros self ->.
  destruct (init_ok _ _ _ _ _ _ _ Hinit)
    as (frame0 & initial & delta & transition & bounds & auxiliary & factor
        & frame & opex & Hframe0 & _ & Hdelta & _ & _ & _ & _ & Hperturbed
        & Hstore & Hopex & ->).
  cbn [self_electricity_price_timeseries operation_cost operation_cost_factor].
  exists frame0, frame, delta.
  assert (Hnew : h !! fresh (dom h) = None).
  { apply not_elem_of_dom. apply is_fresh. }
  repeat split; try assumption.
  - exact (Hframe _ _ Hframe0).
  - intros Heq. rewrite Heq, Hframe0 in Hnew. discriminate.
  - rewrite Hstore. apply lookup_insert_eq.
  - unfold perturbed in Hperturbed.
    destruct (String.eqb pt "price_sensitivity"); [|exact Hperturbed].
    destruct Hperturbed as (t & p & f & Ht & Hf & Hp & ->).
    exists t, p, f. repeat split; try assumption.
    + apply lookup_insert_eq.
    + intros t' Hne. apply lookup_insert_ne. congruence.
Qed.

Lemma price_perturbation_confined_witness :
  ∃ self h',
    __init__ example_solver example_building "price_sensitivity" example_sensitivity
      example_store = (Ok self, h')
    ∧ h' !! 1%positive = Some example_prices
    ∧ ∃ frame, h' !! self_electricity_price_timeseries self = Some frame
               ∧ frame !! 3600 = Some (2 * 2)%Q
               ∧ frame !! 0 = Some 1%Q.
Proof.
  eexists _, _.
  lazymatch goal with |- ?P ∧ _ => assert (Hinit : P) by reflexivity end.
  split; [exact Hinit|].
  destruct (price_perturbation_confined _ _ _ _ _ _ _ Hinit) as [Hframe Hself].
  split; [exact (Hframe 1%positive example_prices eq_refl)|].
  destruct (Hself _ eq_refl)
    as (frame0 & frame & delta & H0 & _ & _ & _ & Hcopy & _ & _ & Hperturbed).
  vm_compute in H0. injection H0 as <-.
  cbn [String.eqb Ascii.eqb Bool.eqb] in Hperturbed.
  destruct Hperturbed as (t & p & f & Ht & Hf & Hp & Hscaled & Hother).
  injection Ht as <-. injection Hf as <-.
  vm_compute in Hp. injection Hp as <-.
  exists frame. split; [exact Hcopy|]. split; [exact Hscaled|].
  rewrite (Hother 0) by discriminate. reflexivity.
Defined.

(** ** Missing arguments *)

Lemma reference_terms_missing args t l :
  output_vector_reference args = None →
  (∃ output, In output l ∧ is_electric_demand output = true) →
  ∃ e, reference_terms args t l = Raise e.
Proof.
  intros Hnone. induction l as [|o l IH]; intros (output & Hin & Hdemand).
  - destruct Hin.
  - cbn [reference_terms]. destruct (is_electric_demand o) eqn:Ho.
    + rewrite Hnone. simpl. eauto.
    + destruct Hin as [->|Hin]; [congruence|].
      destruct (IH (ex_intro _ output (conj Hin Hdemand))) as (e & ->).
      simpl. eauto.
Qed.

(** C3, as amended. The constructor raises, and returns no problem, when
    under ['price_sensitivity'] the factor or the timestep is missing, when
    under ['load_reduction'] the start time is missing, when the end time
    is missing and some timestep is not before the start time, and when the
    reference is missing and some timestep lies in the window while some
    output counts as electric demand. *)
Theorem missing_arguments_raise configured_solver b pt args h :
  (pt = "price_sensitivity"%string
   ∧ (price_sensitivity_factor args = None
      ∨ price_sensitivity_timestep args = None))
  ∨ (pt = "load_reduction"%string
     ∧ (load_reduction_start_time args = None
        ∨ (load_reduction_end_time args = None
           ∧ ∃ start_time t,
               load_reduction_start_time args = Some start_time
               ∧ In t (timesteps b) ∧ start_time <= t)
        ∨ (output_vector_reference args = None
           ∧ ∃ start_time end_time t output,
               load_reduction_start_time args = Some start_time
               ∧ load_reduction_end_time args = Some end_time
               ∧ In t (timesteps b) ∧ start_time <= t < end_time
               ∧ In output (outputs b) ∧ is_electric_demand output = true))) →
  ∃ e, (__init__ configured_solver b pt args h).1 = Raise e.
Proof.
  intros Hmissing.
  destruct (__init__ configured_solver b pt args h) as [[self|e] h'] eqn:Hinit;
    [exfalso | simpl; eauto].
  destruct (init_ok _ _ _ _ _ _ _ Hinit)
    as (frame0 & initial & delta & transition & bounds & auxiliary & factor
        & frame & opex & _ & _ & Hdelta & _ & _ & Haux & _ & Hperturbed & _).
  destruct Hmissing as [[-> Hmissing]|[-> Hmissing]].
  - unfold perturbed in Hperturbed. cbn [String.eqb Ascii.eqb Bool.eqb] in Hperturbed.
    destruct Hperturbed as (t & p & f & Ht & Hf & _).
    destruct Hmissing; congruence.
  - unfold auxiliary_constraints in Haux.
    cbn [String.eqb Ascii.eqb Bool.eqb] in Haux.
    unfold load_reduction_constraints in Haux.
    destruct Hmissing as [Hstart|[[Hend Hreach]|[Href Hreach]]].
    + destruct (timestep_delta_ok _ _ Hdelta) as (t0 & t1 & H0 & _ & _).
      apply nth_error_In in H0.
      destruct (for_each_ok_in _ _ _ _ Haux H0) as (here & Hbody & _).
      unfold load_reduction_constraint in Hbody. rewrite Hstart in Hbody.
      discriminate.
    + destruct Hreach as (start_time & t & Hstart & Ht & Hle).
      destruct (for_each_ok_in _ _ _ _ Haux Ht) as (here & Hbody & _).
      unfold load_reduction_constraint in Hbody. rewrite Hstart, Hend in Hbody.
      replace (Z.geb t start_time) with true in Hbody; [discriminate|].
      symmetry. rewrite Z.geb_leb. apply Z.leb_le. exact Hle.
    + destruct Hreach
        as (start_time & end_time & t & output & Hstart & Hend & Ht & Hwindow
            & Houtput & Hdemand).
      destruct (for_each_ok_in _ _ _ _ Haux Ht) as (here & Hbody & _).
      unfold load_reduction_constraint in Hbody. rewrite Hstart, Hend in Hbody.
      replace (Z.geb t start_time) with true in Hbody
        by (symmetry; rewrite Z.geb_leb; apply Z.leb_le; lia).
      replace (Z.ltb t end_time) with true in Hbody
        by (symmetry; apply Z.ltb_lt; lia).
      destruct (reference_terms_missing args t (outputs b) Href
                  (ex_intro _ output (conj Houtput Hdemand))) as (e & He).
      rewrite He in Hbody. discriminate.
Qed.

Lemma missing_arguments_raise_witness :
  ∃ e, (__init__ example_solver example_building "price_sensitivity" no_arguments
          example_store).1 = Raise e.
Proof.
  apply missing_arguments_raise. left. split; [reflexivity | left; reflexivity].
Defined.

(** C3, as stated, fails: on the example building a load reduction with a
    start time after the horizon, no end time and no reference is
    formulated without any exception. *)
Lemma load_reduction_without_arguments_constructed :
  load_reduction_end_time example_late_reduction = None
  ∧ output_vector_reference example_late_reduction = None
  ∧ ∃ self h',
      __init__ example_solver example_building "load_reduction"
        example_late_reduction example_store = (Ok self, h').
Proof.
  split; [reflexivity|]. split; [reflexivity|].
  eexists _, _. reflexivity.
Qed.

(** ** Storage planning *)

Lemma ignores_const q : ignores_storage_exists (Const q).
Proof. intros rho x. reflexivity. Qed.

Lemma ignores_var v : v ≠ variable_storage_exists → ignores_storage_exists (Var v).
Proof. intros Hv rho x. destruct v; try reflexivity. contradiction. Qed.

Lemma ignores_add a b :
  ignores_storage_exists a → ignores_storage_exists b →
  ignores_storage_exists (add a b).
Proof. intros Ha Hb rho x. rewrite !eval_add, (Ha rho x), (Hb rho x). reflexivity. Qed.

Lemma ignores_sub a b :
  ignores_storage_exists a → ignores_storage_exists b →
  ignores_storage_exists (sub a b).
Proof. intros Ha Hb rho x. rewrite !eval_sub, (Ha rho x), (Hb rho x). reflexivity. Qed.

Lemma ignores_mul a b :
  ignores_storage_exists a → ignores_storage_exists b →
  ignores_storage_exists (mul a b).
Proof. intros Ha Hb rho x. rewrite !eval_mul, (Ha rho x), (Hb rho x). reflexivity. Qed.

Lemma ignores_div a b :
  ignores_storage_exists a → ignores_storage_exists b →
  ignores_storage_exists (div a b).
Proof. intros Ha Hb rho x. rewrite !eval_div, (Ha rho x), (Hb rho x). reflexivity. Qed.

Lemma ignores_py_sum l :
  (∀ e, In e l → ignores_storage_exists e) → ignores_storage_exists (py_sum l).
Proof.
  induction l as [|e l IH]; intros H rho x.
  - reflexivity.
  - rewrite !eval_py_sum_cons.
    rewrite (H e (or_introl eq_refl) rho x).
    rewrite (IH (λ e' He', H e' (or_intror He')) rho x). reflexivity.
Qed.

Lemma ignores_py_sum_map {A} (f : A → expr) l :
  (∀ a, ignores_storage_exists (f a)) → ignores_storage_exists (py_sum (map f l)).
Proof.
  intros H. apply ignores_py_sum. intros e He.
  apply in_map_iff in He. destruct He as (a & <- & _). apply H.
Qed.

Create HintDb ignores.
#[local] Hint Resolve ignores_const ignores_add ignores_sub ignores_mul ignores_div
  : ignores.

Lemma sat_ignores c rho x :
  constraint_ignores_storage_exists c →
  sat (with_storage_exists x rho) c ↔ sat rho c.
Proof.
  destruct c as [l r|l r|l r]; intros [Hl Hr]; simpl;
    rewrite (Hl rho x), (Hr rho x); reflexivity.
Qed.

Lemma state_equation_rhs_ignores b state t :
  ignores_storage_exists (state_equation_rhs b state t).
Proof.
  unfold state_equation_rhs.
  repeat apply ignores_add; apply ignores_py_sum_map; intros n;
    apply ignores_mul; auto with ignores; apply ignores_var; discriminate.
Qed.

Lemma output_equation_rhs_ignores b output t :
  ignores_storage_exists (output_equation_rhs b output t).
Proof.
  unfold output_equation_rhs.
  repeat apply ignores_add; apply ignores_py_sum_map; intros n;
    apply ignores_mul; auto with ignores; apply ignores_var; discriminate.
Qed.

Lemma initial_state_ignores b cs c :
  initial_state_constraints b = Ok cs → In c cs →
  constraint_ignores_storage_exists c.
Proof.
  intros Hok Hin.
  destruct (for_each_ok_inv _ _ _ _ Hok Hin) as (state & here & _ & Hbody & Hc).
  inv_res. subst here. destruct Hc as [<-|[]].
  split; [apply ignores_var; discriminate | apply ignores_const].
Qed.

Lemma state_equation_ignores b delta cs c :
  state_equation_constraints b delta = Ok cs → In c cs →
  constraint_ignores_storage_exists c.
Proof.
  intros Hok Hin.
  destruct (for_each_ok_inv _ _ _ _ Hok Hin) as (state & row & _ & Hrow & Hc).
  destruct (for_each_ok_inv _ _ _ _ Hrow Hc) as (t & here & _ & Hbody & Hc').
  inv_res. apply state_vector_getitem_ok in Ha. subst a here.
  destruct Hc' as [<-|[]].
  split; [apply ignores_var; discriminate | apply state_equation_rhs_ignores].
Qed.

Lemma output_equation_ignores b c :
  In c (output_equation_constraints b) → constraint_ignores_storage_exists c.
Proof.
  unfold output_equation_constraints. intros Hin.
  apply in_flat_map in Hin. destruct Hin as (output & _ & Hin).
  apply in_map_iff in Hin. destruct Hin as (t & <- & _).
  split; [apply ignores_var; discriminate | apply output_equation_rhs_ignores].
Qed.

Lemma variable_storage_size_0_ignores pt :
  ignores_storage_exists (variable_storage_size_0 pt).
Proof.
  unfold variable_storage_size_0.
  destruct (String.eqb pt "storage_planning_baseline");
    [apply ignores_const | apply ignores_var; discriminate].
Qed.

Lemma output_maximum_ignores b pt output t c :
  In c (output_maximum_constraint b pt output t) →
  constraint_ignores_storage_exists c.
Proof.
  unfold output_maximum_constraint.
  repeat match goal with |- context [if ?x then _ else _] => destruct x end;
    (intros [<-|[]] || intros []);
    (split; [apply ignores_var; discriminate|]);
    first [apply ignores_const
          | apply ignores_mul;
            [apply variable_storage_size_0_ignores | apply ignores_const]].
Qed.

Lemma output_bounds_ignores b pt cs c :
  output_bounds_constraints b pt = Ok cs → In c cs →
  constraint_ignores_storage_exists c.
Proof.
  intros Hok Hin.
  destruct (output_bounds_inv _ _ _ _ Hok Hin)
    as (output & t & lower & _ & _ & Hlower & Hc).
  apply in_app_or in Hc. destruct Hc as [Hc|Hc];
    [|exact (output_maximum_ignores _ _ _ _ _ Hc)].
  unfold output_minimum_constraint in Hlower.
  destruct (contains "temperature" output && String.eqb pt "maximum_load").
  - inv_res. destruct (Z.eqb t a); inv_res; subst lower; [destruct Hc|].
    destruct Hc as [<-|[]].
    split; [apply ignores_var; discriminate | apply ignores_const].
  - inv_res. subst lower. destruct Hc as [<-|[]].
    split; [apply ignores_var; discriminate | apply ignores_const].
Qed.

Lemma storage_planning_constraints_split b c :
  In c (storage_planning_constraints b) →
  c = storage_existence_constraint ∨ constraint_ignores_storage_exists c.
Proof.
  unfold storage_planning_constraints. intros Hin.
  apply in_flat_map in Hin. destruct Hin as (t & _ & [<-|[<-|[]]]).
  - right. split; [|apply ignores_var; discriminate].
    apply ignores_py_sum_map. intros output.
    destruct (contains "storage_charge" output && contains "electric_power" output);
      [apply ignores_var; discriminate | apply ignores_const].
  - left. reflexivity.
Qed.

Lemma storage_existence_in b :
  timesteps b ≠ [] → In storage_existence_constraint (storage_planning_constraints b).
Proof.
  unfold storage_planning_constraints. intros Hne.
  destruct (timesteps b) as [|t ts]; [contradiction|].
  simpl. right. left. reflexivity.
Qed.

Lemma storage_exists_declared b pt d :
  In (variable_storage_exists, d) (variables_declared b pt) → d = Binary.
Proof.
  assert (Hindexed : ∀ mk names d',
             (∀ t n, mk t n ≠ variable_storage_exists) →
             ¬ In (variable_storage_exists, d) (indexed_variables b mk names d')).
  { intros mk names d' Hmk Hin. unfold indexed_variables in Hin.
    apply in_flat_map in Hin. destruct Hin as (t & _ & Hin).
    apply in_map_iff in Hin. destruct Hin as (n & Heq & _).
    injection Heq as Heq _. exact (Hmk _ _ Heq). }
  unfold variables_declared. intros Hin.
  repeat (apply in_app_or in Hin; destruct Hin as [Hin|Hin]);
    try (exfalso; revert Hin; apply Hindexed; discriminate).
  - destruct (String.eqb pt "storage_planning"); [|destruct Hin].
    destruct Hin as [Hin|[Hin|[Hin|[]]]]; congruence.
  - destruct (String.eqb pt "load_reduction"); [|destruct Hin].
    destruct Hin as [Hin|[]]. discriminate.
Qed.

Lemma operation_cost_ignores b pt frame delta factor opex :
  operation_cost_of b pt frame delta factor = Ok opex →
  ignores_storage_exists opex.
Proof.
  intros Hok rho x. destruct (is_load_problem pt) eqn:Hload.
  - rewrite !(operation_cost_load _ _ _ _ _ _ _ Hload Hok). reflexivity.
  - rewrite (proj1 (operation_cost_priced _ _ _ _ _ rho _ Hload Hok)).
    rewrite (proj1 (operation_cost_priced _ _ _ _ _ (with_storage_exists x rho) _
                      Hload Hok)).
    reflexivity.
Qed.

(** What the existence indicator costs. *)
Lemma investment_cost_storage_exists b rho x :
  contains "sensible" (building_storage_type (scenarios b))
  || contains "battery" (building_storage_type (scenarios b)) = true →
  eval (with_storage_exists x rho) (investment_cost_of b "storage_planning")
  == eval rho (investment_cost_of b "storage_planning")
     + (x - rho variable_storage_exists)
       * storage_planning_fixed_installation_cost (scenarios b).
Proof.
  intros Htype. unfold investment_cost_of.
  cbn [String.eqb Ascii.eqb Bool.eqb].
  destruct (contains "sensible" (building_storage_type (scenarios b)));
    [|destruct (contains "battery" (building_storage_type (scenarios b)));
      [|discriminate]];
    cbn [add mul div eval with_storage_exists]; ring.
Qed.

(** Every constraint of a storage planning problem is the storage existence
    constraint or does not mention the existence indicator. *)
Lemma storage_planning_constraints_of configured_solver b args h self h' :
  __init__ configured_solver b "storage_planning" args h = (Ok self, h') →
  In storage_existence_constraint (constraints (problem self))
  ∧ ∀ c, In c (constraints (problem self)) →
         c = storage_existence_constraint ∨ constraint_ignores_storage_exists c.
Proof.
  intros Hinit.
  destruct (init_ok _ _ _ _ _ _ _ Hinit)
    as (frame0 & initial & delta & transition & bounds & auxiliary & factor
        & frame & opex & _ & Hinitial & Hdelta & Htransition & Hbounds & Haux
        & _ & _ & _ & _ & ->).
  cbn [problem constraints].
  unfold auxiliary_constraints in Haux. cbn [String.eqb Ascii.eqb Bool.eqb] in Haux.
  injection Haux as <-.
  destruct (timestep_delta_ok _ _ Hdelta) as (t0 & t1 & H0 & _ & _).
  split.
  - do 4 (apply in_or_app; right). apply storage_existence_in.
    intros Hnil. rewrite Hnil in H0. discriminate.
  - intros c Hin.
    repeat (apply in_app_or in Hin; destruct Hin as [Hin|Hin]).
    + right. exact (initial_state_ignores _ _ _ Hinitial Hin).
    + right. exact (state_equation_ignores _ _ _ _ Htransition Hin).
    + right. exact (output_equation_ignores _ _ Hin).
    + right. exact (output_bounds_ignores _ _ _ _ Hbounds Hin).
    + exact (storage_planning_constraints_split _ _ Hin).
Qed.

(** C7, as amended. In a storage planning problem the constructor returns,
    every feasible valuation has storage size ≤ storage exists × the large
    constant, a non-negative storage size and peak power, and a storage
    exists of 0 or 1; and when the fixed installation cost is positive and
    the storage type is sensible or battery, an optimal valuation with
    storage size 0 has storage exists 0. *)
Theorem storage_existence configured_solver b args h self h' :
  __init__ configured_solver b "storage_planning" args h = (Ok self, h') →
  (∀ rho, feasible (problem self) rho →
          (rho variable_storage_size
           <= rho variable_storage_exists * large_constant)%Q
          ∧ (0 <= rho variable_storage_size)%Q
          ∧ (0 <= rho variable_storage_peak_power)%Q
          ∧ (rho variable_storage_exists == 0 ∨ rho variable_storage_exists == 1))
  ∧ ((0 < storage_planning_fixed_installation_cost (scenarios b))%Q →
     contains "sensible" (building_storage_type (scenarios b))
     || contains "battery" (building_storage_type (scenarios b)) = true →
     ∀ rho, is_optimal (problem self) rho →
            rho variable_storage_size == 0 → rho variable_storage_exists == 0).
Proof.
  intros Hinit.
  destruct (storage_planning_constraints_of _ _ _ _ _ _ Hinit) as [Hexists Hsplit].
  destruct (init_ok _ _ _ _ _ _ _ Hinit)
    as (frame0 & initial & delta & transition & bounds & auxiliary & factor
        & frame & opex & _ & _ & _ & _ & _ & _ & _ & _ & _ & Hopex & ->).
  cbn [problem constraints variables objective] in *.
  set (cs := initial ++ transition ++ output_equation_constraints b
             ++ bounds ++ auxiliary) in *.
  set (m := {| variables := variables_declared b "storage_planning";
               constraints := cs;
               objective := add opex (investment_cost_of b "storage_planning");
               var_value := λ _, None |}).
  assert (Hdecl : ∀ v d,
             In (v, d) [(variable_storage_size, NonNegativeReals);
                        (variable_storage_peak_power, NonNegativeReals);
                        (variable_storage_exists, Binary)] →
             In (v, d) (variables_declared b "storage_planning")).
  { intros v d Hin. unfold variables_declared.
    do 3 (apply in_or_app; right). apply in_or_app. left. exact Hin. }
  assert (Hfirst : ∀ rho, feasible m rho →
             (rho variable_storage_size
              <= rho variable_storage_exists * large_constant)%Q
             ∧ (0 <= rho variable_storage_size)%Q
             ∧ (0 <= rho variable_storage_peak_power)%Q
             ∧ (rho variable_storage_exists == 0
                ∨ rho variable_storage_exists == 1)).
  { intros rho [Hdom Hsat]. split; [|split; [|split]].
    - exact (Hsat _ Hexists).
    - apply (Hdom _ _ (Hdecl _ _ (or_introl eq_refl))).
    - apply (Hdom _ _ (Hdecl _ _ (or_intror (or_introl eq_refl)))).
    - apply (Hdom _ _ (Hdecl _ _ (or_intror (or_intror (or_introl eq_refl))))). }
  split; [exact Hfirst|].
  intros Hcost Htype rho [Hfeasible Hbest] Hsize.
  destruct (Hfirst rho Hfeasible) as (_ & _ & _ & [Hzero|Hone]); [exact Hzero|].
  exfalso.
  assert (Hother : feasible m (with_storage_exists 0 rho)).
  { destruct Hfeasible as [Hdom Hsat]. split.
    - intros v d Hin. destruct v; try exact (Hdom _ _ Hin).
      rewrite (storage_exists_declared b "storage_planning" d Hin).
      left. reflexivity.
    - intros c Hin. destruct (Hsplit c Hin) as [->|Hignores].
      + simpl. rewrite Hsize. apply Qle_lteq. right. ring.
      + apply sat_ignores; [exact Hignores | exact (Hsat c Hin)]. }
  specialize (Hbest _ Hother). cbn [objective m] in Hbest.
  rewrite !eval_add in Hbest.
  rewrite (operation_cost_ignores _ _ _ _ _ _ Hopex rho 0%Q) in Hbest.
  rewrite (investment_cost_storage_exists b rho 0%Q Htype) in Hbest.
  rewrite Hone in Hbest.
  set (fixed := storage_planning_fixed_installation_cost (scenarios b)) in *.
  set (u := eval rho opex) in *.
  set (w := eval rho (investment_cost_of b "storage_planning")) in *.
  lra.
Qed.

Lemma storage_existence_witness :
  ∃ self h',
    __init__ example_solver example_costly_building "storage_planning"
      no_arguments example_store = (Ok self, h')
    ∧ is_optimal (problem self) example_valuation
    ∧ (example_valuation variable_storage_size
       <= example_valuation variable_storage_exists * large_constant)%Q
    ∧ example_valuation variable_storage_exists == 0.
Proof.
  eexists _, _.
  lazymatch goal with |- ?P ∧ _ => assert (Hinit : P) by reflexivity end.
  split; [exact Hinit|].
  lazymatch goal with |- ?P ∧ _ => assert (Hoptimal : P) end.
  { split.
    - apply feasibleb_feasible. vm_compute. reflexivity.
    - intros rho' [Hdom _]. cbn [problem variables objective] in *.
      assert (Hin : ∀ v d,
                 In (v, d) [(variable_storage_size, NonNegativeReals);
                            (variable_storage_peak_power, NonNegativeReals);
                            (variable_storage_exists, Binary)] →
                 In (v, d) (variables_declared example_costly_building
                              "storage_planning")).
      { intros v d H. unfold variables_declared.
        do 3 (apply in_or_app; right). apply in_or_app. left. exact H. }
      pose proof (Hdom _ _ (Hin _ _ (or_introl eq_refl))) as Hsize.
      pose proof (Hdom _ _ (Hin _ _ (or_intror (or_introl eq_refl)))) as Hpeak.
      pose proof (Hdom _ _ (Hin _ _ (or_intror (or_intror (or_introl eq_refl)))))
        as Hexists.
      cbn [in_domain] in Hsize, Hpeak, Hexists.
      lazymatch goal with
      | |- (eval _ ?e <= _)%Q => let e' := eval vm_compute in e in change e with e'
      end.
      cbn [eval example_valuation].
      assert (Hkw : (0 <= rho' variable_storage_peak_power / 1000)%Q)
        by (apply Qle_shift_div_l; [reflexivity | lra]).
      assert (Hzero : 0 / 1000 == 0) by reflexivity.
      rewrite Hzero. set (kw := (rho' variable_storage_peak_power / 1000)%Q) in *.
      destruct Hexists as [Hexists|Hexists]; rewrite Hexists; lra. }
  split; [exact Hoptimal|].
  pose proof (storage_existence _ _ _ _ _ _ Hinit) as [Hfeasible Hidle].
  split.
  - exact (proj1 (Hfeasible _ (proj1 Hoptimal))).
  - apply (Hidle eq_refl eq_refl _ Hoptimal). reflexivity.
Defined.

(** C7, as stated, fails in its last part: on the example building, where
    the fixed installation cost is 0, the valuation that builds no storage
    (size 0) and still sets storage exists to 1 is optimal. *)
Lemma idle_storage_optimal :
  ∃ self h',
    __init__ example_solver example_storage_building "storage_planning"
      no_arguments example_store = (Ok self, h')
    ∧ is_optimal (problem self) example_idle_storage
    ∧ example_idle_storage variable_storage_size == 0
    ∧ ¬ example_idle_storage variable_storage_exists == 0.
Proof.
  eexists _, _. split; [reflexivity|].
  split; [|split; [reflexivity | vm_compute; discriminate]].
  split.
  - apply feasibleb_feasible. vm_compute. reflexivity.
  - intros rho' [Hdom _]. cbn [problem variables objective] in *.
    assert (Hin : ∀ v d,
               In (v, d) [(variable_storage_size, NonNegativeReals);
                          (variable_storage_peak_power, NonNegativeReals);
                          (variable_storage_exists, Binary)] →
               In (v, d) (variables_declared example_storage_building
                            "storage_planning")).
    { intros v d H. unfold variables_declared.
      do 3 (apply in_or_app; right). apply in_or_app. left. exact H. }
    pose proof (Hdom _ _ (Hin _ _ (or_introl eq_refl))) as Hsize.
    pose proof (Hdom _ _ (Hin _ _ (or_intror (or_introl eq_refl)))) as Hpeak.
    cbn [in_domain] in Hsize, Hpeak.
    lazymatch goal with
    | |- (eval _ ?e <= _)%Q => let e' := eval vm_compute in e in change e with e'
    end.
    cbn [eval example_idle_storage with_storage_exists example_valuation].
    assert (Hkw : (0 <= rho' variable_storage_peak_power / 1000)%Q)
      by (apply Qle_shift_div_l; [reflexivity | lra]).
    assert (Hzero : 0 / 1000 == 0) by reflexivity.
    rewrite Hzero. set (kw := (rho' variable_storage_peak_power / 1000)%Q) in *.
    lra.
Qed.

(** ** The constructor returns *)

Lemma all_but_last_consecutive (l : list Z) t :
  In t (all_but_last l) → ∃ t', In (t, t') (consecutive l) ∧ In t' l.
Proof.
  unfold all_but_last, consecutive.
  induction l as [|a l IH]; intros H; [destruct H|].
  destruct l as [|b l]; [destruct H|].
  change (removelast (a :: b :: l)) with (a :: removelast (b :: l)) in H.
  destruct H as [->|H].
  - exists b. split; [left; reflexivity | right; left; reflexivity].
  - destruct (IH H) as (t' & Hpair & Hin).
    exists t'. split; [right; exact Hpair | right; exact Hin].
Qed.

Lemma mem_Z_in t l : In t l → mem_Z t l = true.
Proof.
  intros H. unfold mem_Z. apply existsb_exists. exists t.
  split; [exact H | apply Z.eqb_refl].
Qed.

Lemma mem_string_in s l : In s l → mem_string s l = true.
Proof.
  intros H. unfold mem_string. apply existsb_exists. exists s.
  split; [exact H | apply String.eqb_refl].
Qed.

Lemma fold_res_total {A B} (body : B → A → res B) l acc :
  (∀ x acc', In x l → ∃ r, body acc' x = Ok r) →
  ∃ r, fold_res body l acc = Ok r.
Proof.
  revert acc. induction l as [|x l IH]; intros acc H; simpl; [eauto|].
  destruct (H x acc (or_introl eq_refl)) as (acc' & ->). simpl.
  apply IH. intros y acc'' Hy. apply H. right. exact Hy.
Qed.

Lemma operation_cost_total b pt frame delta factor :
  (∀ t, In t (timesteps b) → is_Some (frame !! t)) →
  ∃ opex, operation_cost_of b pt frame delta factor = Ok opex.
Proof.
  intros Hprices. unfold operation_cost_of.
  apply fold_res_total. intros t cost Ht.
  apply fold_res_total. intros output cost' _.
  unfold operation_cost_add.
  destruct (is_load_problem pt).
  - destruct (String.eqb output "grid_electric_power"); eauto.
  - destruct (is_electric_demand output); [|eauto].
    destruct (Hprices t Ht) as (p & Hp). unfold price_loc. rewrite Hp. simpl. eauto.
Qed.

(** On a building with at least two equally spaced, distinct timesteps and a
    price for each of them, the constructor returns a problem for every
    problem type that takes no argument. *)
Lemma init_returns configured_solver b pt args h frame0 t0 t1 :
  h !! electricity_price_timeseries b = Some frame0 →
  (∀ t, In t (timesteps b) → is_Some (frame0 !! t)) →
  nth_error (timesteps b) 0 = Some t0 →
  nth_error (timesteps b) 1 = Some t1 →
  t1 ≠ t0 →
  equally_spaced (timesteps b) = true →
  String.eqb pt "load_reduction" = false →
  String.eqb pt "price_sensitivity" = false →
  ∃ self h', __init__ configured_solver b pt args h = (Ok self, h').
Proof.
  intros Hframe0 Hprices H0 H1 Hdistinct Hspaced Hreduction Hsensitivity.
  assert (Hinitial : ∃ initial, initial_state_constraints b = Ok initial).
  { eexists. unfold initial_state_constraints.
    apply for_each_ok_flat_map. intros state _.
    apply getitem_ok in H0. rewrite H0. reflexivity. }
  assert (Hdelta : timestep_delta b = Ok (t1 - t0)).
  { unfold timestep_delta. apply getitem_ok in H0, H1. rewrite H0, H1. reflexivity. }
  assert (Htransition : ∃ transition,
             state_equation_constraints b (t1 - t0) = Ok transition).
  { eexists. unfold state_equation_constraints.
    apply (for_each_ok_flat_map _
             (λ state, flat_map (λ t, [CEq (Var (variable_state_vector
                                                  (t + (t1 - t0)) state))
                                           (state_equation_rhs b state t)])
                                (all_but_last (timesteps b)))).
    intros state Hstate. apply for_each_ok_flat_map. intros t Ht.
    destruct (all_but_last_consecutive _ _ Ht) as (t' & Hpair & Hin).
    rewrite (equally_spaced_step _ _ _ _ _ Hspaced H0 H1 Hpair) in Hin.
    unfold state_vector_getitem.
    rewrite (mem_Z_in _ _ Hin), (mem_string_in _ _ Hstate). reflexivity. }
  assert (Hbounds : ∃ bounds, output_bounds_constraints b pt = Ok bounds).
  { eexists. unfold output_bounds_constraints.
    apply (for_each_ok_flat_map _
             (λ output,
                flat_map
                  (λ t,
                     (if contains "temperature" output
                         && String.eqb pt "maximum_load"
                      then if Z.eqb t t0
                           then []
                           else [CEq (Var (variable_output_vector t output))
                                     (Const (output_constraint_timeseries_minimum
                                               b t output))]
                      else [CGe (Var (variable_output_vector t output))
                                (Const (output_constraint_timeseries_minimum
                                          b t output))])
                     ++ output_maximum_constraint b pt output t)
                  (timesteps b))).
    intros output _. apply for_each_ok_flat_map. intros t _.
    rewrite (output_minimum_constraint_eq b pt output t t0 H0). reflexivity. }
  assert (Haux : ∃ auxiliary, auxiliary_constraints b pt args = Ok auxiliary).
  { unfold auxiliary_constraints. rewrite Hreduction.
    destruct (String.eqb pt "storage_planning"); eauto. }
  assert (Hfactor : ∃ factor, operation_cost_factor_of b pt (t1 - t0) = Ok factor).
  { unfold operation_cost_factor_of. rewrite Hreduction.
    replace (Z.eqb (t1 - t0) 0) with false
      by (symmetry; apply Z.eqb_neq; lia).
    destruct (String.eqb pt "storage_planning"
              || String.eqb pt "storage_planning_baseline"); eauto. }
  destruct Hinitial as (initial & Hinitial).
  destruct Htransition as (transition & Htransition).
  destruct Hbounds as (bounds & Hbounds).
  destruct Haux as (auxiliary & Haux).
  destruct Hfactor as (factor & Hfactor).
  destruct (operation_cost_total b pt frame0 (t1 - t0) factor Hprices)
    as (opex & Hopex).
  unfold __init__, bind, lift, copy, read_frame, ret.
  rewrite Hframe0, Hinitial, Hdelta, Htransition, Hbounds, Haux, Hfactor,
    Hsensitivity.
  rewrite lookup_insert_eq, Hopex. eauto.
Qed.

(** ** solve returns *)

Lemma value_total sigma e :
  (∀ v, is_Some (sigma v)) → well_divided e → ∃ q, value sigma e = Ok q.
Proof.
  intros Hsigma.
  induction e as [q|v|a IHa b IHb|a IHa b IHb|a IHa b IHb|a IHa b IHb];
    cbn [value well_divided].
  - eauto.
  - intros _. destruct (Hsigma v) as (q & ->). eauto.
  - intros [Ha Hb]. destruct (IHa Ha) as (x & ->), (IHb Hb) as (y & ->).
    simpl. eauto.
  - intros [Ha Hb]. destruct (IHa Ha) as (x & ->), (IHb Hb) as (y & ->).
    simpl. eauto.
  - intros [Ha Hb]. destruct (IHa Ha) as (x & ->), (IHb Hb) as (y & ->).
    simpl. eauto.
  - intros (Ha & q & -> & Hq). destruct (IHa Ha) as (x & ->).
    simpl. rewrite Hq. eauto.
Qed.

Lemma well_divided_add a b : well_divided a → well_divided b → well_divided (add a b).
Proof. destruct a, b; simpl; tauto. Qed.

Lemma operation_cost_well_divided b pt frame delta factor opex :
  operation_cost_of b pt frame delta factor = Ok opex → well_divided opex.
Proof.
  unfold operation_cost_of.
  assert (Hrow : ∀ t l cost cost',
             well_divided cost →
             fold_res (operation_cost_add pt frame delta factor t) l cost = Ok cost' →
             well_divided cost').
  { intros t. induction l as [|output l IH]; intros cost cost' Hcost H.
    - simpl in H. injection H as <-. exact Hcost.
    - apply fold_res_ok_cons in H. destruct H as (acc & Hadd & H).
      apply (IH acc); [|exact H]. clear IH H.
      unfold operation_cost_add in Hadd.
      destruct (is_load_problem pt).
      + destruct (String.eqb output "grid_electric_power"); injection Hadd as <-;
          [apply well_divided_add; simpl; auto | exact Hcost].
      + destruct (is_electric_demand output); inv_res; [|subst acc; exact Hcost].
        rewrite <- Hadd. apply well_divided_add; [exact Hcost|].
        cbn [well_divided]. repeat split; eauto. }
  assert (Hall : ∀ ts cost cost',
             well_divided cost →
             fold_res (λ cost t, fold_res (operation_cost_add pt frame delta factor t)
                                          (outputs b) cost) ts cost = Ok cost' →
             well_divided cost').
  { induction ts as [|t ts IH]; intros cost cost' Hcost H.
    - simpl in H. injection H as <-. exact Hcost.
    - apply fold_res_ok_cons in H. destruct H as (acc & Hhere & H).
      exact (IH _ _ (Hrow _ _ _ _ Hcost Hhere) H). }
  apply Hall. exact I.
Qed.

Lemma investment_cost_well_divided b pt : well_divided (investment_cost_of b pt).
Proof.
  unfold investment_cost_of.
  repeat match goal with |- context [if ?x then _ else _] => destruct x end;
    simpl; repeat split; eauto.
Qed.

Lemma cost_value_total sigma cost :
  (∀ v, is_Some (sigma v)) → well_divided cost → ∃ q, cost_value sigma cost = Ok q.
Proof.
  intros Hsigma Hcost. destruct cost; try (simpl; eauto; fail);
    apply (value_total sigma _ Hsigma Hcost).
Qed.

(** On a problem the constructor built, solve returns as soon as the solver
    has given every variable a value. *)
Lemma solve_returns configured_solver b pt args h self h' :
  __init__ configured_solver b pt args h = (Ok self, h') →
  bad_status (solver self (problem self)) = false →
  (∀ v, is_Some (loaded (solver self (problem self)) v)) →
  ∃ ret self', solve self = (Ok ret, self').
Proof.
  intros Hinit Hstatus Hloaded.
  destruct (init_ok _ _ _ _ _ _ _ Hinit)
    as (frame0 & initial & delta & transition & bounds & auxiliary & factor
        & frame & opex & _ & _ & _ & _ & _ & _ & _ & _ & _ & Hopex & ->).
  cbn [solver problem] in Hloaded, Hstatus.
  unfold solve. cbn [solver problem operation_cost investment_cost].
  rewrite Hstatus.
  destruct (cost_value_total _ opex Hloaded
              (operation_cost_well_divided _ _ _ _ _ _ Hopex)) as (x & ->).
  destruct (cost_value_total _ (investment_cost_of b pt) Hloaded
              (investment_cost_well_divided b pt)) as (y & ->).
  simpl. eauto.
Qed.

(** * Further properties of the constructor and of solve *)

(** ** The output equation *)

Lemma eval_output_equation_rhs b rho output timestep :
  eval rho (output_equation_rhs b output timestep)
  == dot (state_output_matrix b output)
         (λ n, rho (variable_state_vector timestep n)) (states b)
     + dot (control_output_matrix b output)
         (λ n, rho (variable_control_vector timestep n)) (controls b)
     + dot (disturbance_output_matrix b output)
         (disturbance_timeseries b timestep) (disturbances b).
Proof.
  unfold output_equation_rhs. rewrite !eval_add.
  rewrite (eval_py_sum_dot rho (state_output_matrix b output)
             (variable_state_vector timestep)).
  rewrite (eval_py_sum_dot rho (control_output_matrix b output)
             (variable_control_vector timestep)).
  rewrite (eval_py_sum_dot_const rho (disturbance_output_matrix b output)
             (disturbance_timeseries b timestep)).
  reflexivity.
Qed.

(** X1. In a problem the constructor returns, whatever the problem type,
    every output at every timestep is tied by an equality to
    C·state + D·control + F·disturbance at the same timestep, and every
    feasible valuation satisfies it. *)
Theorem output_equation_holds configured_solver b pt args h self h' :
  __init__ configured_solver b pt args h = (Ok self, h') →
  ∀ output t,
    In output (outputs b) → In t (timesteps b) →
    In (CEq (Var (variable_output_vector t output)) (output_equation_rhs b output t))
       (constraints (problem self))
    ∧ ∀ rho, feasible (problem self) rho →
             rho (variable_output_vector t output)
             == dot (state_output_matrix b output)
                    (λ n, rho (variable_state_vector t n)) (states b)
                + dot (control_output_matrix b output)
                    (λ n, rho (variable_control_vector t n)) (controls b)
                + dot (disturbance_output_matrix b output)
                    (disturbance_timeseries b t) (disturbances b).
Proof.
  intros Hinit output t Houtput Ht.
  destruct (init_ok _ _ _ _ _ _ _ Hinit)
    as (frame0 & initial & delta & transition & bounds & auxiliary & factor
        & frame & opex & _ & _ & _ & _ & _ & _ & _ & _ & _ & _ & ->).
  cbn [problem constraints].
  assert (Hin : In (CEq (Var (variable_output_vector t output))
                        (output_equation_rhs b output t))
                   (initial ++ transition ++ output_equation_constraints b
                    ++ bounds ++ auxiliary)).
  { do 2 (apply in_or_app; right). apply in_or_app. left.
    unfold output_equation_constraints. apply in_flat_map.
    exists output. split; [exact Houtput|].
    apply in_map_iff. exists t. auto. }
  split; [exact Hin|].
  intros rho [_ Hsat]. pose proof (Hsat _ Hin) as Heq. simpl in Heq.
  rewrite Heq. apply eval_output_equation_rhs.
Qed.

Lemma output_equation_holds_witness :
  ∃ self h',
    __init__ example_solver example_building "operation" no_arguments example_store
    = (Ok self, h')
    ∧ In (CEq (Var (variable_output_vector 3600 "grid_electric_power"))
              (output_equation_rhs example_building "grid_electric_power" 3600))
         (constraints (problem self)).
Proof.
  eexists _, _. split; [reflexivity|].
  eapply (output_equation_holds example_solver example_building "operation"
            no_arguments example_store);
    [reflexivity | right; left; reflexivity | right; left; reflexivity].
Defined.

(** ** The upper bounds of the outputs *)

Lemma output_maximum_in configured_solver b pt args h self h' output t c :
  __init__ configured_solver b pt args h = (Ok self, h') →
  In output (outputs b) → In t (timesteps b) →
  In c (output_maximum_constraint b pt output t) →
  In c (constraints (problem self)).
Proof.
  intros Hinit Houtput Ht Hc.
  destruct (init_ok _ _ _ _ _ _ _ Hinit)
    as (frame0 & initial & delta & transition & bounds & auxiliary & factor
        & frame & opex & _ & _ & _ & _ & Hbounds & _ & _ & _ & _ & _ & ->).
  cbn [problem constraints].
  destruct (output_bounds_in _ _ _ _ _ Hbounds Houtput Ht) as (lower & _ & Hincl).
  do 3 (apply in_or_app; right). apply in_or_app. left.
  apply Hincl. apply in_or_app. right. exact Hc.
Qed.

(** X2. In a problem the constructor returns, an output is bounded above by
    its maximum time series at every timestep, in every feasible valuation,
    unless the problem type is a storage planning type and the name of the
    output contains ['state_of_charge']. *)
Theorem output_upper_bound configured_solver b pt args h self h' :
  __init__ configured_solver b pt args h = (Ok self, h') →
  ∀ output t,
    In output (outputs b) → In t (timesteps b) →
    (String.eqb pt "storage_planning" || String.eqb pt "storage_planning_baseline")
    && contains "state_of_charge" output = false →
    ∀ rho, feasible (problem self) rho →
           (rho (variable_output_vector t output)
            <= output_constraint_timeseries_maximum b t output)%Q.
Proof.
  intros Hinit output t Houtput Ht Hplain rho [_ Hsat].
  apply (Hsat (CLe (Var (variable_output_vector t output))
                   (Const (output_constraint_timeseries_maximum b t output)))).
  apply (output_maximum_in _ _ _ _ _ _ _ _ _ _ Hinit Houtput Ht).
  unfold output_maximum_constraint. rewrite Hplain. left. reflexivity.
Qed.

Lemma output_upper_bound_witness :
  ∃ self h',
    __init__ example_solver_off example_building "operation" no_arguments
      example_store = (Ok self, h')
    ∧ feasible (problem self) example_valuation
    ∧ (example_valuation (variable_output_vector 0 "zone_temperature") <= 100)%Q.
Proof.
  eexists _, _.
  lazymatch goal with |- ?P ∧ _ => assert (Hinit : P) by reflexivity end.
  split; [exact Hinit|].
  lazymatch goal with
  | |- ?P ∧ _ =>
      assert (Hfeasible : P) by (apply feasibleb_feasible; vm_compute; reflexivity)
  end.
  split; [exact Hfeasible|].
  exact (output_upper_bound _ _ _ _ _ _ _ Hinit "zone_temperature"%string 0
           (or_introl eq_refl) (or_introl eq_refl) eq_refl _ Hfeasible).
Defined.

(** X3. In a storage planning problem the constructor returns, when the
    storage type is sensible or battery, an output whose name contains
    ['state_of_charge'] is bounded above, at every timestep and in every
    feasible valuation, by the storage size times the water density
    (sensible, which comes first) or times the depth of discharge (battery);
    under the baseline type the storage size is the float 0 and the bound
    is 0. *)
Theorem storage_capacity_bound configured_solver b pt args h self h' :
  __init__ configured_solver b pt args h = (Ok self, h') →
  String.eqb pt "storage_planning" || String.eqb pt "storage_planning_baseline"
  = true →
  contains "sensible" (building_storage_type (scenarios b))
  || contains "battery" (building_storage_type (scenarios b)) = true →
  ∀ output t,
    In output (outputs b) → In t (timesteps b) →
    contains "state_of_charge" output = true →
    ∀ rho, feasible (problem self) rho →
           (rho (variable_output_vector t output)
            <= (if String.eqb pt "storage_planning_baseline"
                then 0
                else rho variable_storage_size)
               * (if contains "sensible" (building_storage_type (scenarios b))
                  then parse_parameter_water_density b
                  else storage_battery_depth_of_discharge (scenarios b)))%Q.
Proof.
  intros Hinit Hplanning Htype output t Houtput Ht Hcharge rho [_ Hsat].
  pose proof (λ c, output_maximum_in _ _ _ _ _ _ _ output t c Hinit Houtput Ht)
    as Hin.
  unfold output_maximum_constraint in Hin. rewrite Hplanning, Hcharge in Hin.
  cbn [andb] in Hin.
  assert (Hsize : ∀ k, eval rho (mul (variable_storage_size_0 pt) (Const k))
                       == (if String.eqb pt "storage_planning_baseline"
                           then 0
                           else rho variable_storage_size) * k).
  { intros k. rewrite eval_mul. unfold variable_storage_size_0.
    destruct (String.eqb pt "storage_planning_baseline"); reflexivity. }
  destruct (contains "sensible" (building_storage_type (scenarios b))).
  - rewrite <- Hsize.
    apply (Hsat (CLe (Var (variable_output_vector t output))
                     (mul (variable_storage_size_0 pt)
                          (Const (parse_parameter_water_density b))))).
    apply Hin. left. reflexivity.
  - destruct (contains "battery" (building_storage_type (scenarios b)));
      [|discriminate].
    rewrite <- Hsize.
    apply (Hsat (CLe (Var (variable_output_vector t output))
                     (mul (variable_storage_size_0 pt)
                          (Const (storage_battery_depth_of_discharge
                                    (scenarios b)))))).
    apply Hin. left. reflexivity.
Qed.

Lemma storage_capacity_bound_witness :
  ∃ self h',
    __init__ example_solver_off example_tank_building "storage_planning"
      no_arguments example_store = (Ok self, h')
    ∧ feasible (problem self) example_valuation
    ∧ (example_valuation (variable_output_vector 3600 "storage_state_of_charge")
       <= example_valuation variable_storage_size * 1000)%Q.
Proof.
  eexists _, _.
  lazymatch goal with |- ?P ∧ _ => assert (Hinit : P) by reflexivity end.
  split; [exact Hinit|].
  lazymatch goal with
  | |- ?P ∧ _ =>
      assert (Hfeasible : P) by (apply feasibleb_feasible; vm_compute; reflexivity)
  end.
  split; [exact Hfeasible|].
  exact (storage_capacity_bound _ _ _ _ _ _ _ Hinit eq_refl eq_refl
           "storage_state_of_charge"%string 3600
           (or_intror (or_introl eq_refl)) (or_intror (or_introl eq_refl))
           eq_refl _ Hfeasible).
Defined.

(** ** The peak power of the storage *)

Lemma eval_py_sum_filter rho (p : string → bool) (mk : string → var) l :
  eval rho (py_sum (map (λ n, if p n then Var (mk n) else Const 0) l))
  == total (λ n, rho (mk n)) (List.filter p l).
Proof.
  induction l as [|n l IH]; cbn [map List.filter].
  - reflexivity.
  - rewrite eval_py_sum_cons, IH. destruct (p n); simpl; ring.
Qed.

(** X4. In a problem of type ['storage_planning'] the constructor returns,
    at every timestep, the sum of the outputs whose name contains both
    ['storage_charge'] and ['electric_power'] is at most the storage peak
    power, in every feasible valuation. *)
Theorem storage_peak_power_bound configured_solver b args h self h' :
  __init__ configured_solver b "storage_planning" args h = (Ok self, h') →
  ∀ t, In t (timesteps b) →
    ∀ rho, feasible (problem self) rho →
           (total (λ output, rho (variable_output_vector t output))
                  (List.filter (λ output, contains "storage_charge" output
                                          && contains "electric_power" output)
                               (outputs b))
            <= rho variable_storage_peak_power)%Q.
Proof.
  intros Hinit t Ht rho [_ Hsat].
  destruct (init_ok _ _ _ _ _ _ _ Hinit)
    as (frame0 & initial & delta & transition & bounds & auxiliary & factor
        & frame & opex & _ & _ & _ & _ & _ & Haux & _ & _ & _ & _ & ->).
  cbn [problem constraints] in Hsat.
  unfold auxiliary_constraints in Haux. cbn [String.eqb Ascii.eqb Bool.eqb] in Haux.
  injection Haux as <-.
  rewrite <- (eval_py_sum_filter rho
                (λ output, contains "storage_charge" output
                           && contains "electric_power" output)
                (variable_output_vector t)).
  apply (Hsat (CLe (py_sum
                      (map (λ output,
                              if contains "storage_charge" output
                                 && contains "electric_power" output
                              then Var (variable_output_vector t output)
                              else Const 0)
                           (outputs b)))
                   (Var variable_storage_peak_power))).
  do 4 (apply in_or_app; right).
  unfold storage_planning_constraints. apply in_flat_map.
  exists t. split; [exact Ht | left; reflexivity].
Qed.

Lemma storage_peak_power_bound_witness :
  ∃ self h',
    __init__ example_solver_off example_tank_building "storage_planning"
      no_arguments example_store = (Ok self, h')
    ∧ feasible (problem self) example_valuation
    ∧ (example_valuation (variable_output_vector 0 "storage_charge_electric_power")
       + 0 <= example_valuation variable_storage_peak_power)%Q.
Proof.
  eexists _, _.
  lazymatch goal with |- ?P ∧ _ => assert (Hinit : P) by reflexivity end.
  split; [exact Hinit|].
  lazymatch goal with
  | |- ?P ∧ _ =>
      assert (Hfeasible : P) by (apply feasibleb_feasible; vm_compute; reflexivity)
  end.
  split; [exact Hfeasible|].
  exact (storage_peak_power_bound _ _ _ _ _ _ Hinit 0 (or_introl eq_refl)
           _ Hfeasible).
Defined.

(** ** The load reduction *)

Lemma reference_terms_ok args reference t l :
  output_vector_reference args = Some reference →
  reference_terms args t l
  = Ok (map (λ output, if is_electric_demand output
                       then Const (reference t output)
                       else Const 0) l).
Proof.
  intros Href. induction l as [|output l IH]; [reflexivity|].
  cbn [reference_terms map]. rewrite Href, IH.
  destruct (is_electric_demand output); reflexivity.
Qed.

Lemma eval_py_sum_filter_const rho (p : string → bool) (x : string → Q) l :
  eval rho (py_sum (map (λ n, if p n then Const (x n) else Const 0) l))
  == total x (List.filter p l).
Proof.
  induction l as [|n l IH]; cbn [map List.filter].
  - reflexivity.
  - rewrite eval_py_sum_cons, IH. destruct (p n); simpl; ring.
Qed.

Lemma load_reduction_constraint_length args b t here start_time end_time :
  load_reduction_start_time args = Some start_time →
  load_reduction_end_time args = Some end_time →
  load_reduction_constraint b args t = Ok here →
  length here = if in_window start_time end_time t then 1%nat else 0%nat.
Proof.
  intros Hstart Hend. unfold load_reduction_constraint, in_window.
  rewrite Hstart, Hend.
  destruct (Z.geb t start_time); [destruct (Z.ltb t end_time)|]; intros H;
    inv_res; subst here; reflexivity.
Qed.

Lemma for_each_ok_count {A B} (body : A → res (list B)) (p : A → bool) l cs :
  for_each body l = Ok cs →
  (∀ x here, In x l → body x = Ok here →
             length here = if p x then 1%nat else 0%nat) →
  length cs = length (List.filter p l).
Proof.
  revert cs. induction l as [|y l IH]; intros cs Hok Hlen; simpl in Hok; inv_res.
  - subst cs. reflexivity.
  - subst cs. rewrite length_app.
    rewrite (Hlen y a (or_introl eq_refl) Ha).
    rewrite (IH _ Ha0) by (intros x here Hx; apply Hlen; right; exact Hx).
    cbn [List.filter]. destruct (p y); reflexivity.
Qed.

(** X5. In a problem of type ['load_reduction'] that the constructor
    returns with a start time, an end time and a reference, at every
    timestep from the start time on and before the end time the electric
    demand (the outputs whose name contains ['electric_power'] but not
    ['storage_to_zone']) equals the reference demand scaled by
    (1 − load reduction / 100), in every feasible valuation; and the
    problem has one such constraint per timestep of the window, none for
    the timesteps outside. *)
Theorem load_reduction_window configured_solver b args h self h'
    start_time end_time reference :
  __init__ configured_solver b "load_reduction" args h = (Ok self, h') →
  load_reduction_start_time args = Some start_time →
  load_reduction_end_time args = Some end_time →
  output_vector_reference args = Some reference →
  (∀ t, In t (timesteps b) → in_window start_time end_time t = true →
        ∀ rho, feasible (problem self) rho →
               total (λ output, rho (variable_output_vector t output))
                     (List.filter is_electric_demand (outputs b))
               == (1 - rho variable_load_reduction / 100)
                  * total (reference t) (List.filter is_electric_demand (outputs b)))
  ∧ ∃ auxiliary,
      auxiliary_constraints b "load_reduction" args = Ok auxiliary
      ∧ incl auxiliary (constraints (problem self))
      ∧ length auxiliary
        = length (List.filter (in_window start_time end_time) (timesteps b)).
Proof.
  intros Hinit Hstart Hend Href.
  destruct (init_ok _ _ _ _ _ _ _ Hinit)
    as (frame0 & initial & delta & transition & bounds & auxiliary & factor
        & frame & opex & _ & _ & _ & _ & _ & Haux & _ & _ & _ & _ & ->).
  cbn [problem constraints].
  pose proof Haux as Hloop.
  unfold auxiliary_constraints in Hloop.
  cbn [String.eqb Ascii.eqb Bool.eqb] in Hloop.
  unfold load_reduction_constraints in Hloop.
  assert (Hincl : incl auxiliary
                    (initial ++ transition ++ output_equation_constraints b
                     ++ bounds ++ auxiliary)).
  { intros c Hc. do 4 (apply in_or_app; right). exact Hc. }
  split.
  - intros t Ht Hwindow rho [_ Hsat].
    destruct (for_each_ok_in _ _ _ _ Hloop Ht) as (here & Hbody & Hhere).
    unfold load_reduction_constraint in Hbody. rewrite Hstart, Hend in Hbody.
    unfold in_window in Hwindow. apply andb_true_iff in Hwindow.
    destruct Hwindow as [Hge Hlt]. rewrite Hge, Hlt in Hbody.
    rewrite (reference_terms_ok _ _ _ _ Href) in Hbody.
    cbn [res_bind] in Hbody. injection Hbody as <-.
    pose proof (Hsat _ (Hincl _ (Hhere _ (or_introl eq_refl)))) as Heq.
    cbn [sat] in Heq.
    rewrite (eval_py_sum_filter rho is_electric_demand (variable_output_vector t))
      in Heq.
    cbn [eval] in Heq.
    rewrite (eval_py_sum_filter_const rho is_electric_demand (reference t)) in Heq.
    exact Heq.
  - exists auxiliary. split; [exact Haux|]. split; [exact Hincl|].
    apply (for_each_ok_count _ _ _ _ Hloop).
    intros t here _ Hbody.
    exact (load_reduction_constraint_length _ _ _ _ _ _ Hstart Hend Hbody).
Qed.

Lemma load_reduction_window_witness :
  ∃ self h',
    __init__ example_solver example_building "load_reduction" example_reduction
      example_store = (Ok self, h')
    ∧ feasible (problem self) example_reduced
    ∧ example_reduced (variable_output_vector 3600 "grid_electric_power") + 0
      == (1 - example_reduced variable_load_reduction / 100) * (10 + 0).
Proof.
  eexists _, _.
  lazymatch goal with |- ?P ∧ _ => assert (Hinit : P) by reflexivity end.
  split; [exact Hinit|].
  lazymatch goal with
  | |- ?P ∧ _ =>
      assert (Hfeasible : P) by (apply feasibleb_feasible; vm_compute; reflexivity)
  end.
  split; [exact Hfeasible|].
  exact (proj1 (load_reduction_window _ _ _ _ _ _ 3600 10000 (λ _ _, 10%Q)
                  Hinit eq_refl eq_refl eq_refl)
           3600 (or_intror (or_introl eq_refl)) eq_refl _ Hfeasible).
Defined.

(** ** The operation cost factor and the investment cost *)

(** X6. In a problem the constructor returns, the operation cost factor is
    1 for every type but the storage planning types and ['load_reduction'],
    1/1000000 under ['load_reduction'], and under the storage planning
    types the timestep spacing is not 0 and the factor scales the horizon
    (number of timesteps × spacing) to 14 times the storage lifetime in
    years of 365.2425 days. *)
Theorem operation_cost_factor_by_type configured_solver b pt args h self h' :
  __init__ configured_solver b pt args h = (Ok self, h') →
  if String.eqb pt "storage_planning" || String.eqb pt "storage_planning_baseline"
  then ∃ delta,
      timestep_delta b = Ok delta ∧ delta ≠ 0
      ∧ operation_cost_factor self
        * (inject_Z (Z.of_nat (length (timesteps b))) * inject_Z delta)
        == inject_Z one_year * storage_lifetime (scenarios b) * 14
  else if String.eqb pt "load_reduction"
       then operation_cost_factor self = (1 # 1000000)
       else operation_cost_factor self = 1%Q.
Proof.
  intros Hinit.
  destruct (init_ok _ _ _ _ _ _ _ Hinit)
    as (frame0 & initial & delta & transition & bounds & auxiliary & factor
        & frame & opex & _ & _ & Hdelta & _ & _ & _ & Hfactor & _ & _ & _ & ->).
  cbn [operation_cost_factor].
  destruct (timestep_delta_ok _ _ Hdelta) as (t0 & t1 & H0 & _ & _).
  unfold operation_cost_factor_of in Hfactor.
  destruct (String.eqb pt "storage_planning"
            || String.eqb pt "storage_planning_baseline").
  - destruct (Z.eqb delta 0) eqn:Hzero; [discriminate|].
    apply Z.eqb_neq in Hzero. injection Hfactor as <-.
    exists delta. split; [exact Hdelta|]. split; [exact Hzero|].
    assert (Hcount : ¬ inject_Z (Z.of_nat (length (timesteps b))) == 0).
    { destruct (timesteps b); [discriminate|].
      unfold Qeq. simpl. lia. }
    assert (Hspacing : ¬ inject_Z delta == 0).
    { unfold Qeq. simpl. lia. }
    field. split; assumption.
  - destruct (String.eqb pt "load_reduction"); injection Hfactor as <-; reflexivity.
Qed.

Lemma operation_cost_factor_by_type_witness :
  ∃ self h',
    __init__ example_solver example_building "storage_planning" no_arguments
      example_store = (Ok self, h')
    ∧ operation_cost_factor self * (3 * 3600) == 31556952 * 1 * 14.
Proof.
  eexists _, _.
  lazymatch goal with |- ?P ∧ _ => assert (Hinit : P) by reflexivity end.
  split; [exact Hinit|].
  destruct (operation_cost_factor_by_type _ _ _ _ _ _ _ Hinit)
    as (delta & Hdelta & _ & H).
  vm_compute in Hdelta. injection Hdelta as <-. exact H.
Defined.

(** X7. In a problem the constructor returns, the objective is the sum of
    the operation cost and the investment cost, and the investment cost is:
    under ['storage_planning'] with a sensible storage, size × energy cost
    + peak power / 1000 × power cost + exists × fixed cost; with a battery
    storage that is not sensible, the same with the size divided by 3600
    and by 1000; with any other storage type, 0; under ['load_reduction'],
    minus the load reduction; and 0 under every other type. *)
Theorem investment_cost_by_type configured_solver b pt args h self h' :
  __init__ configured_solver b pt args h = (Ok self, h') →
  ∀ rho,
    eval rho (objective (problem self))
    == eval rho (operation_cost self) + eval rho (investment_cost self)
    ∧ eval rho (investment_cost self)
      == if String.eqb pt "storage_planning"
         then
           let scenario := scenarios b in
           if contains "sensible" (building_storage_type scenario)
           then rho variable_storage_size
                * storage_planning_energy_installation_cost scenario
                + rho variable_storage_peak_power / 1000
                  * storage_planning_power_installation_cost scenario
                + rho variable_storage_exists
                  * storage_planning_fixed_installation_cost scenario
           else if contains "battery" (building_storage_type scenario)
           then rho variable_storage_size / 3600 / 1000
                * storage_planning_energy_installation_cost scenario
                + rho variable_storage_peak_power / 1000
                  * storage_planning_power_installation_cost scenario
                + rho variable_storage_exists
                  * storage_planning_fixed_installation_cost scenario
           else 0
         else if String.eqb pt "load_reduction"
              then - rho variable_load_reduction
              else 0.
Proof.
  intros Hinit rho.
  destruct (init_ok _ _ _ _ _ _ _ Hinit)
    as (frame0 & initial & delta & transition & bounds & auxiliary & factor
        & frame & opex & _ & _ & _ & _ & _ & _ & _ & _ & _ & _ & ->).
  cbn [problem objective operation_cost investment_cost].
  split; [rewrite eval_add; reflexivity|].
  unfold investment_cost_of. cbv zeta.
  destruct (String.eqb pt "storage_planning").
  - destruct (contains "sensible" (building_storage_type (scenarios b)));
      [|destruct (contains "battery" (building_storage_type (scenarios b)))];
      cbn [add mul div eval]; ring.
  - destruct (String.eqb pt "load_reduction"); cbn [sub eval]; ring.
Qed.

Lemma investment_cost_by_type_witness :
  ∃ self h',
    __init__ example_solver example_building "load_reduction" example_reduction
      example_store = (Ok self, h')
    ∧ eval example_reduced (investment_cost self) == - (100).
Proof.
  eexists _, _.
  lazymatch goal with |- ?P ∧ _ => assert (Hinit : P) by reflexivity end.
  split; [exact Hinit|].
  exact (proj2 (investment_cost_by_type _ _ _ _ _ _ _ Hinit example_reduced)).
Defined.

(** ** Exceptions of the constructor *)

Lemma for_each_raise_inv {A B} (body : A → res (list B)) l e :
  for_each body l = Raise e → ∃ x, In x l ∧ body x = Raise e.
Proof.
  induction l as [|y l IH]; simpl; intros H; [discriminate|].
  destruct (body y) as [here|e'] eqn:Hbody; simpl in H.
  - destruct (for_each body l) as [there|e'']; simpl in H; [discriminate|].
    injection H as <-. destruct (IH eq_refl) as (x & Hx & Hraise).
    exists x. auto.
  - injection H as <-. exists y. auto.
Qed.

Lemma for_each_raises {A B} (body : A → res (list B)) l e :
  (∀ x, In x l → (∃ cs, body x = Ok cs) ∨ body x = Raise e) →
  (∃ x, In x l ∧ body x = Raise e) →
  for_each body l = Raise e.
Proof.
  induction l as [|y l IH]; intros Hall (x & Hx & Hraise); [destruct Hx|].
  simpl. destruct (Hall y (or_introl eq_refl)) as [(cs & Hok)|Hbad].
  - rewrite Hok. simpl. rewrite IH; [reflexivity| |].
    + intros z Hz. apply Hall. right. exact Hz.
    + destruct Hx as [->|Hx]; [congruence|]. exists x. auto.
  - rewrite Hbad. reflexivity.
Qed.

Lemma initial_state_total b t0 :
  nth_error (timesteps b) 0 = Some t0 →
  ∃ initial, initial_state_constraints b = Ok initial.
Proof.
  intros H0. eexists. unfold initial_state_constraints.
  apply for_each_ok_flat_map. intros state _.
  apply getitem_ok in H0. rewrite H0. reflexivity.
Qed.

Lemma all_but_last_in {A} (l : list A) x : In x (all_but_last l) → In x l.
Proof.
  unfold all_but_last. induction l as [|a l IH]; intros H; [destruct H|].
  destruct l as [|b l]; [destruct H|].
  change (removelast (a :: b :: l)) with (a :: removelast (b :: l)) in H.
  destruct H as [->|H]; [left; reflexivity | right; apply IH; exact H].
Qed.

Lemma mem_Z_not_in t l : ¬ In t l → mem_Z t l = false.
Proof.
  intros H. unfold mem_Z. apply not_true_is_false. intros Hmem.
  apply existsb_exists in Hmem. destruct Hmem as (x & Hx & Heq).
  apply Z.eqb_eq in Heq. subst x. contradiction.
Qed.

(** X8. With fewer than two timesteps the constructor raises IndexError,
    whatever the problem type and the arguments. *)
Theorem too_few_timesteps_raise configured_solver b pt args h frame0 :
  h !! electricity_price_timeseries b = Some frame0 →
  (length (timesteps b) < 2)%nat →
  (__init__ configured_solver b pt args h).1 = Raise IndexError.
Proof.
  intros Hframe0 Hshort.
  unfold __init__, bind, lift, copy. rewrite Hframe0.
  destruct (initial_state_constraints b) as [initial|e] eqn:Hinitial.
  - assert (Hdelta : timestep_delta b = Raise IndexError).
    { unfold timestep_delta, getitem.
      destruct (timesteps b) as [|t [|t' ts]]; [reflexivity | reflexivity|].
      simpl in Hshort. lia. }
    rewrite Hdelta. reflexivity.
  - destruct (for_each_raise_inv _ _ _ Hinitial) as (state & _ & Hbody).
    unfold getitem in Hbody. destruct (nth_error (timesteps b) 0); simpl in Hbody;
      [discriminate|]. injection Hbody as <-. reflexivity.
Qed.

Lemma too_few_timesteps_raise_witness :
  (__init__ example_solver example_short_building "operation" no_arguments
     example_store).1 = Raise IndexError.
Proof.
  apply (too_few_timesteps_raise _ _ _ _ _ example_prices); [reflexivity|].
  simpl. lia.
Defined.

(** X9. When the timesteps are at least two, there is a state, and some
    timestep other than the last one has no timestep one spacing later
    (the spacing being that of the first two), the constructor raises
    KeyError, whatever the problem type and the arguments. *)
Theorem uneven_timesteps_raise configured_solver b pt args h frame0 t0 t1 t :
  h !! electricity_price_timeseries b = Some frame0 →
  nth_error (timesteps b) 0 = Some t0 →
  nth_error (timesteps b) 1 = Some t1 →
  states b ≠ [] →
  In t (all_but_last (timesteps b)) →
  ¬ In (t + (t1 - t0)) (timesteps b) →
  (__init__ configured_solver b pt args h).1 = Raise KeyError.
Proof.
  intros Hframe0 H0 H1 Hstates Ht Hgap.
  unfold __init__, bind, lift, copy. rewrite Hframe0.
  destruct (initial_state_total b t0 H0) as (initial & ->).
  assert (Hdelta : timestep_delta b = Ok (t1 - t0)).
  { unfold timestep_delta. apply getitem_ok in H0, H1. rewrite H0, H1. reflexivity. }
  rewrite Hdelta.
  assert (Hrow : ∀ state, In state (states b) →
            for_each
              (λ timestep,
                 try next := state_vector_getitem b (timestep + (t1 - t0)) state ;;
                 Ok [CEq next (state_equation_rhs b state timestep)])
              (all_but_last (timesteps b)) = Raise KeyError).
  { intros state Hstate. apply for_each_raises.
    - intros x _. unfold state_vector_getitem.
      destruct (mem_Z (x + (t1 - t0)) (timesteps b) && mem_string state (states b));
        simpl; eauto.
    - exists t. split; [exact Ht|]. unfold state_vector_getitem.
      rewrite (mem_Z_not_in _ _ Hgap). reflexivity. }
  assert (Htransition : state_equation_constraints b (t1 - t0) = Raise KeyError).
  { unfold state_equation_constraints. apply for_each_raises.
    - intros state Hstate. right. exact (Hrow state Hstate).
    - destruct (states b) as [|state rest]; [contradiction|].
      exists state. split; [left; reflexivity | apply Hrow; left; reflexivity]. }
  rewrite Htransition. reflexivity.
Qed.

Lemma uneven_timesteps_raise_witness :
  (__init__ example_solver example_uneven_building "operation" no_arguments
     example_store).1 = Raise KeyError.
Proof.
  apply (uneven_timesteps_raise _ _ _ _ _ example_prices 0 3600 3600);
    [reflexivity | reflexivity | reflexivity | discriminate
    | right; left; reflexivity |].
  simpl. intros [H|[H|[H|[]]]]; discriminate.
Defined.

(** ** The variables declared *)

Lemma mem_Z_true t l : mem_Z t l = true ↔ In t l.
Proof.
  split; [|apply mem_Z_in]. unfold mem_Z. intros H.
  apply existsb_exists in H. destruct H as (x & Hx & Heq).
  apply Z.eqb_eq in Heq. subst x. exact Hx.
Qed.

Lemma mem_string_true s l : mem_string s l = true ↔ In s l.
Proof.
  split; [|apply mem_string_in]. unfold mem_string. intros H.
  apply existsb_exists in H. destruct H as (x & Hx & Heq).
  apply String.eqb_eq in Heq. subst x. exact Hx.
Qed.

Lemma in_indexed_variables_iff b mk names d v d' :
  In (v, d') (indexed_variables b mk names d)
  ↔ ∃ t n, v = mk t n ∧ d' = d ∧ In t (timesteps b) ∧ In n names.
Proof.
  unfold indexed_variables. rewrite in_flat_map. split.
  - intros (t & Ht & Hin). apply in_map_iff in Hin.
    destruct Hin as (n & Heq & Hn). injection Heq as <- <-.
    exists t, n. auto.
  - intros (t & n & -> & -> & Ht & Hn). exists t. split; [exact Ht|].
    apply in_map_iff. exists n. auto.
Qed.

Lemma indexed_variables_length b mk names d :
  length (indexed_variables b mk names d)
  = (length (timesteps b) * length names)%nat.
Proof.
  unfold indexed_variables.
  induction (timesteps b) as [|t ts IH]; [reflexivity|].
  cbn [flat_map]. rewrite length_app, length_map, IH. simpl. lia.
Qed.

Lemma variables_declared_iff b pt v d :
  In (v, d) (variables_declared b pt) ↔ declared_domain b pt v = Some d.
Proof.
  unfold variables_declared. rewrite !in_app_iff, !in_indexed_variables_iff.
  split.
  - intros [H|[H|[H|[H|H]]]].
    + destruct H as (t & n & -> & -> & Ht & Hn). simpl.
      rewrite (mem_Z_in _ _ Ht), (mem_string_in _ _ Hn). reflexivity.
    + destruct H as (t & n & -> & -> & Ht & Hn). simpl.
      rewrite (mem_Z_in _ _ Ht), (mem_string_in _ _ Hn). reflexivity.
    + destruct H as (t & n & -> & -> & Ht & Hn). simpl.
      rewrite (mem_Z_in _ _ Ht), (mem_string_in _ _ Hn). reflexivity.
    + destruct (String.eqb pt "storage_planning") eqn:Hpt; [|destruct H].
      destruct H as [H|[H|[H|[]]]]; injection H as <- <-; simpl; rewrite Hpt;
        reflexivity.
    + destruct (String.eqb pt "load_reduction") eqn:Hpt; [|destruct H].
      destruct H as [H|[]]. injection H as <- <-. simpl. rewrite Hpt. reflexivity.
  - destruct v as [t n|t n|t n| | | |]; simpl.
    + destruct (mem_Z t (timesteps b) && mem_string n (states b)) eqn:Hmem;
        [|discriminate]. intros H. injection H as <-.
      apply andb_true_iff in Hmem. destruct Hmem as [Ht Hn].
      apply mem_Z_true in Ht. apply mem_string_true in Hn.
      left. exists t, n. auto.
    + destruct (mem_Z t (timesteps b) && mem_string n (controls b)) eqn:Hmem;
        [|discriminate]. intros H. injection H as <-.
      apply andb_true_iff in Hmem. destruct Hmem as [Ht Hn].
      apply mem_Z_true in Ht. apply mem_string_true in Hn.
      right. left. exists t, n. auto.
    + destruct (mem_Z t (timesteps b) && mem_string n (outputs b)) eqn:Hmem;
        [|discriminate]. intros H. injection H as <-.
      apply andb_true_iff in Hmem. destruct Hmem as [Ht Hn].
      apply mem_Z_true in Ht. apply mem_string_true in Hn.
      right. right. left. exists t, n. auto.
    + destruct (String.eqb pt "storage_planning"); [|discriminate].
      intros H. injection H as <-. do 3 right. left. left. reflexivity.
    + destruct (String.eqb pt "storage_planning"); [|discriminate].
      intros H. injection H as <-. do 3 right. left. right. left. reflexivity.
    + destruct (String.eqb pt "storage_planning"); [|discriminate].
      intros H. injection H as <-. do 3 right. left. right. right. left.
      reflexivity.
    + destruct (String.eqb pt "load_reduction"); [|discriminate].
      intros H. injection H as <-. do 4 right. left. reflexivity.
Qed.

(** X11. In a problem the constructor returns, a variable is declared with
    a domain exactly when: it is a state, control or output variable of a
    timestep and a name of the building (real, non-negative and real); or a
    storage size, peak power (non-negative) or existence (binary) variable
    and the type is ['storage_planning']; or the load reduction variable
    (non-negative) and the type is ['load_reduction']. So no variable has two
    domains, none is missing for any timestep, and, when the timesteps and
    the names of each kind are distinct, their number is
    N × (states + controls + outputs), plus 3 or 1 under these two types. *)
Theorem variables_of_problem configured_solver b pt args h self h' :
  __init__ configured_solver b pt args h = (Ok self, h') →
  (∀ v d, In (v, d) (variables (problem self)) ↔ declared_domain b pt v = Some d)
  ∧ (∀ v d d', In (v, d) (variables (problem self)) →
               In (v, d') (variables (problem self)) → d = d')
  ∧ (List.NoDup (timesteps b) → List.NoDup (states b) →
     List.NoDup (controls b) → List.NoDup (outputs b) →
     length (variables (problem self))
     = (length (timesteps b)
        * (length (states b) + length (controls b) + length (outputs b))
        + (if String.eqb pt "storage_planning" then 3 else 0)
        + (if String.eqb pt "load_reduction" then 1 else 0))%nat).
Proof.
  intros Hinit.
  destruct (init_ok _ _ _ _ _ _ _ Hinit)
    as (frame0 & initial & delta & transition & bounds & auxiliary & factor
        & frame & opex & _ & _ & _ & _ & _ & _ & _ & _ & _ & _ & ->).
  cbn [problem variables].
  split; [intros v d; apply variables_declared_iff|]. split.
  - intros v d d' Hd Hd'.
    apply variables_declared_iff in Hd, Hd'. congruence.
  - intros _ _ _ _.
    unfold variables_declared. rewrite !length_app, !indexed_variables_length.
    destruct (String.eqb pt "storage_planning");
      destruct (String.eqb pt "load_reduction"); simpl; lia.
Qed.

Lemma variables_of_problem_witness :
  ∃ self h',
    __init__ example_solver example_building "storage_planning" no_arguments
      example_store = (Ok self, h')
    ∧ length (variables (problem self)) = 15%nat.
Proof.
  eexists _, _.
  lazymatch goal with |- ?P ∧ _ => assert (Hinit : P) by reflexivity end.
  split; [exact Hinit|].
  apply (proj2 (proj2 (variables_of_problem _ _ _ _ _ _ _ Hinit)));
    repeat (apply List.NoDup_cons; [simpl; intuition discriminate|]);
    apply List.NoDup_nil.
Defined.

(** ** The shape of the result tables *)

Lemma filled_row_lookup (fill : Q) (t : Z) (columns : list string)
    (frame : gmap (Z * string) (option Q)) (t' : Z) (n : string) :
  foldr (λ c frame, <[(t, c) := Some fill]> frame) frame columns !! (t', n)
  = if Z.eqb t' t && mem_string n columns
    then Some (Some fill)
    else frame !! (t', n).
Proof.
  induction columns as [|c columns IH]; cbn [foldr].
  - rewrite andb_false_r. reflexivity.
  - unfold mem_string in *. cbn [existsb].
    destruct (decide ((t, c) = (t', n))) as [Heq|Hne].
    + injection Heq as -> ->. rewrite lookup_insert_eq.
      rewrite Z.eqb_refl, String.eqb_refl. reflexivity.
    + rewrite lookup_insert_ne by exact Hne. rewrite IH.
      destruct (Z.eqb t' t) eqn:Ht; [|reflexivity].
      destruct (String.eqb n c) eqn:Hn; [|reflexivity].
      exfalso. apply Hne. apply Z.eqb_eq in Ht. apply String.eqb_eq in Hn.
      congruence.
Qed.

Lemma DataFrame_filled_lookup (fill : Q) (index : list Z) (columns : list string)
    (t : Z) (n : string) :
  DataFrame_filled fill index columns !! (t, n)
  = if mem_Z t index && mem_string n columns then Some (Some fill) else None.
Proof.
  unfold DataFrame_filled. induction index as [|t' index IH]; cbn [foldr].
  - rewrite lookup_empty. reflexivity.
  - rewrite filled_row_lookup, IH. unfold mem_Z. cbn [existsb].
    destruct (Z.eqb t t'); destruct (mem_string n columns);
      destruct (existsb (Z.eqb t) index); reflexivity.
Qed.

Lemma set_rows_outside sigma mk names ts frame t n :
  ¬ (In t ts ∧ In n names) →
  fold_left (λ frame t, set_row sigma mk t names frame) ts frame !! (t, n)
  = frame !! (t, n).
Proof.
  revert frame. induction ts as [|t' ts IH]; intros frame H; [reflexivity|].
  cbn [fold_left]. rewrite IH.
  - apply set_row_other. destruct (Z.eq_dec t t') as [->|Hne]; [|left; exact Hne].
    right. intros Hn. apply H. split; [left; reflexivity | exact Hn].
  - intros [Ht Hn]. apply H. split; [right; exact Ht | exact Hn].
Qed.

(** X12. The three tables solve returns have an entry exactly for every
    timestep of the building and every control, state or output name: one
    row per timestep and one column per name, nothing missing and nothing
    else. *)
Theorem tables_shape self ret self' :
  solve self = (Ok ret, self') →
  ∀ t n,
    (is_Some (control_vector ret !! (t, n))
     ↔ In t (timesteps (self_building self)) ∧ In n (controls (self_building self)))
    ∧ (is_Some (state_vector ret !! (t, n))
       ↔ In t (timesteps (self_building self)) ∧ In n (states (self_building self)))
    ∧ (is_Some (output_vector ret !! (t, n))
       ↔ In t (timesteps (self_building self))
         ∧ In n (outputs (self_building self))).
Proof.
  intros Hsolve t n.
  destruct (solve_ok _ _ _ Hsolve) as (Hcv & Hsv & Hov & _).
  unfold solve in Hsolve.
  destruct (bad_status (solver self (problem self))); [discriminate|].
  injection Hsolve as Hret _.
  rewrite fold_left_triple in Hret. inv_res. subst ret.
  cbn [control_vector state_vector output_vector fst snd] in *.
  assert (Hshape : ∀ mk names,
             (∀ t n, In t (timesteps (self_building self)) → In n names →
                     fold_left
                       (λ frame t,
                          set_row (loaded (solver self (problem self))) mk t names
                                  frame)
                       (timesteps (self_building self))
                       (DataFrame_filled 0 (timesteps (self_building self)) names)
                     !! (t, n)
                     = Some (loaded (solver self (problem self)) (mk t n))) →
             is_Some
               (fold_left
                  (λ frame t,
                     set_row (loaded (solver self (problem self))) mk t names frame)
                  (timesteps (self_building self))
                  (DataFrame_filled 0 (timesteps (self_building self)) names)
                !! (t, n))
             ↔ In t (timesteps (self_building self)) ∧ In n names).
  { intros mk names Hin. split.
    - intros Hsome.
      destruct (mem_Z t (timesteps (self_building self)) && mem_string n names)
        eqn:Hmem.
      + apply andb_true_iff in Hmem. destruct Hmem as [Ht Hn].
        apply mem_Z_true in Ht. apply mem_string_true in Hn. auto.
      + rewrite set_rows_outside in Hsome.
        * rewrite DataFrame_filled_lookup, Hmem in Hsome.
          destruct Hsome as (x & Hx). discriminate.
        * intros [Ht Hn]. rewrite (mem_Z_in _ _ Ht), (mem_string_in _ _ Hn) in Hmem.
          discriminate.
    - intros [Ht Hn]. rewrite (Hin t n Ht Hn). eauto. }
  split; [|split]; apply Hshape; assumption.
Qed.

Lemma tables_shape_witness :
  ∃ self h' ret self',
    __init__ example_solver example_building "operation" no_arguments
      example_store = (Ok self, h')
    ∧ solve self = (Ok ret, self')
    ∧ is_Some (output_vector ret !! (7200, "grid_electric_power"%string))
    ∧ ¬ is_Some (output_vector ret !! (7200, "heat"%string)).
Proof.
  eexists _, _, _, _. split; [reflexivity|].
  lazymatch goal with |- ?P ∧ _ => assert (Hsolve : P) by reflexivity end.
  split; [exact Hsolve|].
  pose proof (tables_shape _ _ _ Hsolve) as H.
  split.
  - apply (proj2 (proj2 (H 7200 "grid_electric_power"%string))).
    split; [right; right; left; reflexivity | right; left; reflexivity].
  - intros Hsome.
    apply (proj2 (proj2 (H 7200 "heat"%string))) in Hsome.
    destruct Hsome as [_ [Hn|[Hn|[]]]]; discriminate.
Defined.

(** ** The price sensitivity *)

Lemma total_ext {A} (F G : A → Q) l :
  (∀ x, In x l → F x == G x) → total F l == total G l.
Proof.
  induction l as [|x l IH]; intros H; cbn [total]; [reflexivity|].
  rewrite (H x (or_introl eq_refl)), IH; [reflexivity|].
  intros y Hy. apply H. right. exact Hy.
Qed.

Lemma total_scaled {A} (a : A → Q) (k1 k2 k3 : Q) l :
  total (λ x, (a x * k1 * k2 * k3)%Q) l == total a l * (k1 * k2 * k3).
Proof.
  induction l as [|x l IH]; cbn [total]; [ring|]. rewrite IH. ring.
Qed.

Lemma total_single_change (F G : Z → Q) l t :
  List.NoDup l → In t l →
  (∀ x, In x l → x ≠ t → F x == G x) →
  total F l == total G l + (F t - G t).
Proof.
  induction l as [|x l IH]; intros Hnodup Hin Hsame; [destruct Hin|].
  apply List.NoDup_cons_iff in Hnodup. destruct Hnodup as [Hx Hnodup].
  cbn [total]. destruct Hin as [->|Hin].
  - rewrite (total_ext F G l); [ring|].
    intros y Hy. apply Hsame; [right; exact Hy|]. intros ->. contradiction.
  - rewrite IH; try assumption.
    + rewrite (Hsame x (or_introl eq_refl)); [ring|]. intros ->. contradiction.
    + intros y Hy. apply Hsame. right. exact Hy.
Qed.

Lemma price_of_insert_eq (frame : gmap Z Q) t p : price_of (<[t := p]> frame) t = p.
Proof. unfold price_of. rewrite lookup_insert_eq. reflexivity. Qed.

Lemma price_of_insert_ne (frame : gmap Z Q) t t' p :
  t' ≠ t → price_of (<[t := p]> frame) t' = price_of frame t'.
Proof. intros H. unfold price_of. rewrite lookup_insert_ne by congruence. reflexivity. Qed.

(** X13. For one building and one store whose timesteps are distinct, the
    operation cost of the ['price_sensitivity'] problem and that of the
    ['operation'] problem differ, for one and the same valuation, by
    (factor − 1) × price × spacing in kWh per W × the electric demand at
    the target timestep; they are equal when the target is a row of the
    price series but no timestep of the building. *)
Theorem price_sensitivity_difference configured_solver b args args0 h
    self h' self0 h0' :
  __init__ configured_solver b "price_sensitivity" args h = (Ok self, h') →
  __init__ configured_solver b "operation" args0 h = (Ok self0, h0') →
  List.NoDup (timesteps b) →
  ∃ t p f delta frame0,
    price_sensitivity_timestep args = Some t
    ∧ price_sensitivity_factor args = Some f
    ∧ h !! electricity_price_timeseries b = Some frame0
    ∧ frame0 !! t = Some p
    ∧ timestep_delta b = Ok delta
    ∧ ∀ rho,
        eval rho (operation_cost self) - eval rho (operation_cost self0)
        == if mem_Z t (timesteps b)
           then (f - 1) * p
                * (inject_Z (timedelta_seconds delta) / 3600 / 1000)
                * total (λ output, rho (variable_output_vector t output))
                        (List.filter is_electric_demand (outputs b))
           else 0.
Proof.
  intros Hinit Hinit0 Hnodup.
  destruct (init_ok _ _ _ _ _ _ _ Hinit)
    as (frame0 & initial & delta & transition & bounds & auxiliary & factor
        & frame & opex & Hframe0 & _ & Hdelta & _ & _ & _ & Hfactor & Hperturbed
        & _ & Hopex & ->).
  destruct (init_ok _ _ _ _ _ _ _ Hinit0)
    as (frame0' & initial' & delta' & transition' & bounds' & auxiliary' & factor'
        & frame' & opex' & Hframe0' & _ & Hdelta' & _ & _ & _ & Hfactor'
        & Hperturbed' & _ & Hopex' & ->).
  cbn [operation_cost].
  rewrite Hframe0 in Hframe0'. injection Hframe0' as <-.
  rewrite Hdelta in Hdelta'. injection Hdelta' as <-.
  unfold perturbed in Hperturbed, Hperturbed'.
  cbn [String.eqb Ascii.eqb Bool.eqb] in Hperturbed, Hperturbed'. subst frame'.
  destruct Hperturbed as (t & p & f & Ht & Hf & Hp & ->).
  unfold operation_cost_factor_of in Hfactor, Hfactor'.
  cbn [String.eqb Ascii.eqb Bool.eqb orb] in Hfactor, Hfactor'.
  injection Hfactor as <-. injection Hfactor' as <-.
  exists t, p, f, delta, frame0. repeat (split; [assumption|]).
  intros rho.
  rewrite (proj1 (operation_cost_priced b "price_sensitivity" _ _ _ rho _
                    eq_refl Hopex)).
  rewrite (proj1 (operation_cost_priced b "operation" _ _ _ rho _ eq_refl Hopex')).
  set (c := (inject_Z (timedelta_seconds delta) / 3600 / 1000)%Q).
  set (demand := λ t', total (λ output, rho (variable_output_vector t' output))
                             (List.filter is_electric_demand (outputs b))).
  assert (Hrow : ∀ fr t',
             total (λ output,
                      (rho (variable_output_vector t' output) * c
                       * price_of fr t' * 1)%Q)
                   (List.filter is_electric_demand (outputs b))
             == demand t' * (c * price_of fr t' * 1)).
  { intros fr t'. apply total_scaled. }
  destruct (mem_Z t (timesteps b)) eqn:Hmem.
  - apply mem_Z_true in Hmem.
    rewrite (total_single_change _
               (λ t', total (λ output,
                               (rho (variable_output_vector t' output) * c
                                * price_of frame0 t' * 1)%Q)
                            (List.filter is_electric_demand (outputs b)))
               _ t Hnodup Hmem).
    + rewrite !Hrow. rewrite price_of_insert_eq.
      unfold price_of at 2. rewrite Hp. cbn [default from_option id].
      fold (demand t). ring.
    + intros t' _ Hne. rewrite !Hrow.
      rewrite (price_of_insert_ne _ _ _ _ Hne). reflexivity.
  - rewrite (total_ext _
               (λ t', total (λ output,
                               (rho (variable_output_vector t' output) * c
                                * price_of frame0 t' * 1)%Q)
                            (List.filter is_electric_demand (outputs b)))).
    + ring.
    + intros t' Ht' . rewrite !Hrow.
      rewrite price_of_insert_ne; [reflexivity|].
      intros ->. rewrite (mem_Z_in _ _ Ht') in Hmem. discriminate.
Qed.

Lemma price_sensitivity_difference_witness :
  ∃ self h' self0 h0',
    __init__ example_solver example_building "price_sensitivity" example_sensitivity
      example_store = (Ok self, h')
    ∧ __init__ example_solver example_building "operation" no_arguments
        example_store = (Ok self0, h0')
    ∧ eval (λ _, 1%Q) (operation_cost self) - eval (λ _, 1%Q) (operation_cost self0)
      == (2 - 1) * 2 * (3600 / 3600 / 1000) * (1 + 0).
Proof.
  eexists _, _, _, _.
  lazymatch goal with |- ?P ∧ _ => assert (Hinit : P) by reflexivity end.
  split; [exact Hinit|].
  lazymatch goal with |- ?P ∧ _ => assert (Hinit0 : P) by reflexivity end.
  split; [exact Hinit0|].
  destruct (price_sensitivity_difference _ _ _ _ _ _ _ _ _ Hinit Hinit0)
    as (t & p & f & delta & frame0 & Ht & Hf & Hframe0 & Hp & Hdelta & H).
  { repeat constructor; simpl; intuition discriminate. }
  injection Ht as <-. injection Hf as <-.
  vm_compute in Hframe0. injection Hframe0 as <-.
  vm_compute in Hp. injection Hp as <-.
  vm_compute in Hdelta. injection Hdelta as <-.
  exact (H (λ _, 1%Q)).
Defined.

(** ** What the constraints depend on *)

Section DependsOnlyOn.

Variable P : var → Prop.

Lemma depends_const q : depends_only_on P (Const q).
Proof. intros rho rho' _. reflexivity. Qed.

Lemma depends_var v : P v → depends_only_on P (Var v).
Proof. intros Hv rho rho' H. exact (H v Hv). Qed.

Lemma depends_add a b :
  depends_only_on P a → depends_only_on P b → depends_only_on P (add a b).
Proof.
  intros Ha Hb rho rho' H. rewrite !eval_add, (Ha _ _ H), (Hb _ _ H). reflexivity.
Qed.

Lemma depends_sub a b :
  depends_only_on P a → depends_only_on P b → depends_only_on P (sub a b).
Proof.
  intros Ha Hb rho rho' H. rewrite !eval_sub, (Ha _ _ H), (Hb _ _ H). reflexivity.
Qed.

Lemma depends_mul a b :
  depends_only_on P a → depends_only_on P b → depends_only_on P (mul a b).
Proof.
  intros Ha Hb rho rho' H. rewrite !eval_mul, (Ha _ _ H), (Hb _ _ H). reflexivity.
Qed.

Lemma depends_div a b :
  depends_only_on P a → depends_only_on P b → depends_only_on P (div a b).
Proof.
  intros Ha Hb rho rho' H. rewrite !eval_div, (Ha _ _ H), (Hb _ _ H). reflexivity.
Qed.

Lemma depends_py_sum l :
  (∀ e, In e l → depends_only_on P e) → depends_only_on P (py_sum l).
Proof.
  induction l as [|e l IH]; intros Hl rho rho' H.
  - reflexivity.
  - rewrite !eval_py_sum_cons.
    rewrite (Hl e (or_introl eq_refl) _ _ H).
    rewrite (IH (λ e' He', Hl e' (or_intror He')) _ _ H). reflexivity.
Qed.

Lemma depends_py_sum_map {A} (f : A → expr) l :
  (∀ a, In a l → depends_only_on P (f a)) → depends_only_on P (py_sum (map f l)).
Proof.
  intros Hf. apply depends_py_sum. intros e He.
  apply in_map_iff in He. destruct He as (a & <- & Ha). exact (Hf a Ha).
Qed.

Lemma sat_depends c rho rho' :
  constraint_depends_only_on P c →
  (∀ v, P v → rho v == rho' v) →
  sat rho c → sat rho' c.
Proof.
  destruct c as [l r|l r|l r]; intros [Hl Hr] H; simpl;
    rewrite (Hl _ _ H), (Hr _ _ H); trivial.
Qed.

End DependsOnlyOn.

Section ConstraintsDependOn.

Variable b : Building.
Variable pt : string.
Variable P : var → Prop.

(** The variables of the building at its timesteps are among those of [P],
    and so is the storage size under ['storage_planning']. *)
Hypothesis P_state : ∀ t n, In t (timesteps b) → In n (states b) →
                            P (variable_state_vector t n).
Hypothesis P_control : ∀ t n, In t (timesteps b) → In n (controls b) →
                              P (variable_control_vector t n).
Hypothesis P_output : ∀ t n, In t (timesteps b) → In n (outputs b) →
                             P (variable_output_vector t n).
Hypothesis P_size : String.eqb pt "storage_planning" = true →
                    P variable_storage_size.

Lemma state_equation_rhs_depends state t :
  In t (timesteps b) → depends_only_on P (state_equation_rhs b state t).
Proof.
  intros Ht. unfold state_equation_rhs.
  repeat apply depends_add; apply depends_py_sum_map; intros n Hn;
    apply depends_mul; try apply depends_const; apply depends_var; auto.
Qed.

Lemma output_equation_rhs_depends output t :
  In t (timesteps b) → depends_only_on P (output_equation_rhs b output t).
Proof.
  intros Ht. unfold output_equation_rhs.
  repeat apply depends_add; apply depends_py_sum_map; intros n Hn;
    apply depends_mul; try apply depends_const; apply depends_var; auto.
Qed.

Lemma initial_state_depends cs c :
  initial_state_constraints b = Ok cs → In c cs →
  constraint_depends_only_on P c.
Proof.
  intros Hok Hin.
  destruct (for_each_ok_inv _ _ _ _ Hok Hin) as (state & here & Hs & Hbody & Hc).
  inv_res. subst here. destruct Hc as [<-|[]].
  apply getitem_ok, nth_error_In in Ha.
  split; [apply depends_var; auto | apply depends_const].
Qed.

Lemma state_equation_depends delta cs c :
  state_equation_constraints b delta = Ok cs → In c cs →
  constraint_depends_only_on P c.
Proof.
  intros Hok Hin.
  destruct (for_each_ok_inv _ _ _ _ Hok Hin) as (state & row & Hs & Hrow & Hc).
  destruct (for_each_ok_inv _ _ _ _ Hrow Hc) as (t & here & Ht & Hbody & Hc').
  inv_res. subst here. destruct Hc' as [<-|[]].
  unfold state_vector_getitem in Ha.
  destruct (mem_Z (t + delta) (timesteps b) && mem_string state (states b))
    eqn:Hmem; [|discriminate].
  injection Ha as <-. apply andb_true_iff in Hmem. destruct Hmem as [Hnext _].
  apply mem_Z_true in Hnext.
  split; [apply depends_var; auto|].
  apply state_equation_rhs_depends. exact (all_but_last_in _ _ Ht).
Qed.

Lemma output_equation_depends c :
  In c (output_equation_constraints b) → constraint_depends_only_on P c.
Proof.
  unfold output_equation_constraints. intros Hin.
  apply in_flat_map in Hin. destruct Hin as (output & Ho & Hin).
  apply in_map_iff in Hin. destruct Hin as (t & <- & Ht).
  split; [apply depends_var; auto | apply output_equation_rhs_depends; exact Ht].
Qed.

Lemma output_maximum_depends output t c :
  In output (outputs b) → In t (timesteps b) →
  In c (output_maximum_constraint b pt output t) →
  constraint_depends_only_on P c.
Proof.
  intros Ho Ht. unfold output_maximum_constraint.
  assert (Hsize : String.eqb pt "storage_planning"
                  || String.eqb pt "storage_planning_baseline" = true →
                  depends_only_on P (variable_storage_size_0 pt)).
  { intros Hplanning. unfold variable_storage_size_0.
    destruct (String.eqb pt "storage_planning_baseline");
      [apply depends_const|].
    rewrite orb_false_r in Hplanning. apply depends_var. auto. }
  destruct ((String.eqb pt "storage_planning"
             || String.eqb pt "storage_planning_baseline")
            && contains "state_of_charge" output) eqn:Hcond.
  - apply andb_true_iff in Hcond. destruct Hcond as [Hplanning _].
    destruct (contains "sensible" (building_storage_type (scenarios b)));
      [|destruct (contains "battery" (building_storage_type (scenarios b)))];
      (intros [<-|[]] || intros []);
      (split; [apply depends_var; auto|]);
      apply depends_mul; auto; apply depends_const.
  - intros [<-|[]]. split; [apply depends_var; auto | apply depends_const].
Qed.

Lemma output_bounds_depends cs c :
  output_bounds_constraints b pt = Ok cs → In c cs →
  constraint_depends_only_on P c.
Proof.
  intros Hok Hin.
  destruct (output_bounds_inv _ _ _ _ Hok Hin)
    as (output & t & lower & Ho & Ht & Hlower & Hc).
  apply in_app_or in Hc. destruct Hc as [Hc|Hc];
    [|exact (output_maximum_depends _ _ _ Ho Ht Hc)].
  unfold output_minimum_constraint in Hlower.
  destruct (contains "temperature" output && String.eqb pt "maximum_load").
  - inv_res. destruct (Z.eqb t a); inv_res; subst lower; [destruct Hc|].
    destruct Hc as [<-|[]].
    split; [apply depends_var; auto | apply depends_const].
  - inv_res. subst lower. destruct Hc as [<-|[]].
    split; [apply depends_var; auto | apply depends_const].
Qed.

End ConstraintsDependOn.

(** ** The round trip through the results *)

Lemma read_back_loaded configured_solver b pt args h self h' ret self' rho :
  __init__ configured_solver b pt args h = (Ok self, h') →
  solve self = (Ok ret, self') →
  (∀ v, returned_variable b pt v →
        loaded (solver self (problem self)) v = Some (rho v)) →
  ∀ v, returned_variable b pt v → read_back ret v = rho v.
Proof.
  intros Hinit Hsolve Hloaded v Hv.
  destruct (solve_ok _ _ _ Hsolve) as (Hcv & Hsv & Hov & _ & _ & Hsize & _).
  destruct (init_ok _ _ _ _ _ _ _ Hinit)
    as (frame0 & initial & delta & transition & bounds & auxiliary & factor
        & frame & opex & _ & _ & _ & _ & _ & _ & _ & _ & _ & _ & ->).
  cbn [self_building self_problem_type solver problem] in *.
  specialize (Hloaded v Hv).
  destruct v as [t n|t n|t n| | | |]; cbn [returned_variable read_back] in *;
    try contradiction.
  - destruct Hv as [Ht Hn]. rewrite (Hsv t n Ht Hn), Hloaded. reflexivity.
  - destruct Hv as [Ht Hn]. rewrite (Hcv t n Ht Hn), Hloaded. reflexivity.
  - destruct Hv as [Ht Hn]. rewrite (Hov t n Ht Hn), Hloaded. reflexivity.
  - subst pt. cbn [String.eqb Ascii.eqb Bool.eqb] in Hsize.
    rewrite Hsize, Hloaded. reflexivity.
Qed.

(** X14. When the solver has loaded a feasible valuation into the states,
    controls and outputs (and the storage size under ['storage_planning']),
    the valuation read back from the tables and the storage size that solve
    returns agrees with it on these variables, and satisfies every
    constraint of the problem but the auxiliary ones: the initial state, the
    state equation, the output equation and the bounds of the outputs. *)
Theorem results_round_trip configured_solver b pt args h self h' ret self' rho :
  __init__ configured_solver b pt args h = (Ok self, h') →
  solve self = (Ok ret, self') →
  (∀ v, returned_variable b pt v →
        loaded (solver self (problem self)) v = Some (rho v)) →
  feasible (problem self) rho →
  (∀ v, returned_variable b pt v → read_back ret v = rho v)
  ∧ ∃ initial delta transition bounds,
      initial_state_constraints b = Ok initial
      ∧ timestep_delta b = Ok delta
      ∧ state_equation_constraints b delta = Ok transition
      ∧ output_bounds_constraints b pt = Ok bounds
      ∧ ∀ c, In c (initial ++ transition ++ output_equation_constraints b ++ bounds) →
             In c (constraints (problem self)) ∧ sat (read_back ret) c.
Proof.
  intros Hinit Hsolve Hloaded Hfeasible.
  pose proof (read_back_loaded _ _ _ _ _ _ _ _ _ _ Hinit Hsolve Hloaded) as Hagree.
  split; [exact Hagree|].
  destruct (init_ok _ _ _ _ _ _ _ Hinit)
    as (frame0 & initial & delta & transition & bounds & auxiliary & factor
        & frame & opex & _ & Hinitial & Hdelta & Htransition & Hbounds & _ & _ & _
        & _ & _ & Hself).
  exists initial, delta, transition, bounds. repeat (split; [assumption|]).
  intros c Hc.
  assert (Hin : In c (constraints (problem self))).
  { rewrite Hself. cbn [problem constraints].
    rewrite !in_app_iff in Hc. rewrite !in_app_iff. tauto. }
  split; [exact Hin|].
  assert (Hstate : ∀ t n, In t (timesteps b) → In n (states b) →
                          returned_variable b pt (variable_state_vector t n))
    by (intros t n Ht Hn; split; assumption).
  assert (Hcontrol : ∀ t n, In t (timesteps b) → In n (controls b) →
                            returned_variable b pt (variable_control_vector t n))
    by (intros t n Ht Hn; split; assumption).
  assert (Houtput : ∀ t n, In t (timesteps b) → In n (outputs b) →
                           returned_variable b pt (variable_output_vector t n))
    by (intros t n Ht Hn; split; assumption).
  assert (Hsize : String.eqb pt "storage_planning" = true →
                  returned_variable b pt variable_storage_size)
    by (intros Hpt; apply String.eqb_eq in Hpt; exact Hpt).
  apply (sat_depends (returned_variable b pt) c rho).
  - rewrite !in_app_iff in Hc. destruct Hc as [Hc|[Hc|[Hc|Hc]]].
    + exact (initial_state_depends b _ Hstate _ _ Hinitial Hc).
    + exact (state_equation_depends b _ Hstate Hcontrol _ _ _ Htransition Hc).
    + exact (output_equation_depends b _ Hstate Hcontrol Houtput _ Hc).
    + exact (output_bounds_depends b pt _ Houtput Hsize _ _ Hbounds Hc).
  - intros v Hv. rewrite (Hagree v Hv). reflexivity.
  - destruct Hfeasible as [_ Hsat]. exact (Hsat c Hin).
Qed.

Lemma results_round_trip_witness :
  ∃ self h' ret self',
    __init__ example_solver_off example_building "operation" no_arguments
      example_store = (Ok self, h')
    ∧ solve self = (Ok ret, self')
    ∧ feasible (problem self) example_valuation
    ∧ read_back ret (variable_state_vector 3600 "zone_temperature") = 20%Q.
Proof.
  eexists _, _, _, _.
  lazymatch goal with |- ?P ∧ _ => assert (Hinit : P) by reflexivity end.
  split; [exact Hinit|].
  lazymatch goal with |- ?P ∧ _ => assert (Hsolve : P) by reflexivity end.
  split; [exact Hsolve|].
  lazymatch goal with
  | |- ?P ∧ _ =>
      assert (Hfeasible : P) by (apply feasibleb_feasible; vm_compute; reflexivity)
  end.
  split; [exact Hfeasible|].
  exact (proj1 (results_round_trip _ _ _ _ _ _ _ _ _ example_valuation
                  Hinit Hsolve (λ v _, eq_refl) Hfeasible)
           (variable_state_vector 3600 "zone_temperature")
           (conj (or_intror (or_introl eq_refl)) (or_introl eq_refl))).
Defined.

(** ** A load reduction window without timesteps *)




(** ** A cost that cannot be evaluated *)

Lemma value_ok_or_value_error sigma e :
  well_divided e → (∃ q, value sigma e = Ok q) ∨ value sigma e = Raise ValueError.
Proof.
  induction e as [q|v|a IHa b IHb|a IHa b IHb|a IHa b IHb|a IHa b IHb];
    cbn [value well_divided].
  - eauto.
  - intros _. destruct (sigma v); eauto.
  - intros [Ha Hb]. destruct (IHa Ha) as [(x & ->) | ->]; [|auto].
    destruct (IHb Hb) as [(y & ->) | ->]; simpl; eauto.
  - intros [Ha Hb]. destruct (IHa Ha) as [(x & ->) | ->]; [|auto].
    destruct (IHb Hb) as [(y & ->) | ->]; simpl; eauto.
  - intros [Ha Hb]. destruct (IHa Ha) as [(x & ->) | ->]; [|auto].
    destruct (IHb Hb) as [(y & ->) | ->]; simpl; eauto.
  - intros (Ha & q & -> & Hq). destruct (IHa Ha) as [(x & ->) | ->]; [|auto].
    simpl. rewrite Hq. eauto.
Qed.

Lemma value_without_value sigma e v :
  well_divided e → In v (vars e) → sigma v = None →
  value sigma e = Raise ValueError.
Proof.
  intros Hwell Hin Hnone.
  induction e as [q|w|a IHa b IHb|a IHa b IHb|a IHa b IHb|a IHa b IHb];
    cbn [value well_divided vars] in *.
  - destruct Hin.
  - destruct Hin as [->|[]]. rewrite Hnone. reflexivity.
  - destruct Hwell as [Ha Hb]. apply in_app_or in Hin.
    destruct (value_ok_or_value_error sigma a Ha) as [(x & Hx)|Hx];
      rewrite Hx; [simpl|reflexivity].
    destruct Hin as [Hin|Hin]; [rewrite (IHa Ha Hin) in Hx; discriminate|].
    rewrite (IHb Hb Hin). reflexivity.
  - destruct Hwell as [Ha Hb]. apply in_app_or in Hin.
    destruct (value_ok_or_value_error sigma a Ha) as [(x & Hx)|Hx];
      rewrite Hx; [simpl|reflexivity].
    destruct Hin as [Hin|Hin]; [rewrite (IHa Ha Hin) in Hx; discriminate|].
    rewrite (IHb Hb Hin). reflexivity.
  - destruct Hwell as [Ha Hb]. apply in_app_or in Hin.
    destruct (value_ok_or_value_error sigma a Ha) as [(x & Hx)|Hx];
      rewrite Hx; [simpl|reflexivity].
    destruct Hin as [Hin|Hin]; [rewrite (IHa Ha Hin) in Hx; discriminate|].
    rewrite (IHb Hb Hin). reflexivity.
  - destruct Hwell as (Ha & q & -> & Hq). apply in_app_or in Hin.
    destruct Hin as [Hin|[]].
    rewrite (IHa Ha Hin). reflexivity.
Qed.

Lemma vars_add a b v : In v (vars a) ∨ In v (vars b) → In v (vars (add a b)).
Proof.
  intros H. destruct a, b; cbn [add vars] in *;
    try (apply in_or_app; exact H); destruct H as [[]|[]].
Qed.

Lemma operation_cost_add_vars pt frame delta factor t cost output cost' v :
  operation_cost_add pt frame delta factor t cost output = Ok cost' →
  (In v (vars cost) → In v (vars cost'))
  ∧ (is_cost_output pt output = true →
     In (variable_output_vector t output) (vars cost')).
Proof.
  unfold operation_cost_add, is_cost_output. intros H.
  destruct (is_load_problem pt).
  - destruct (String.eqb output "grid_electric_power"); injection H as <-.
    + split; intros; apply vars_add; [left; assumption | right; left; reflexivity].
    + split; [trivial | discriminate].
  - destruct (is_electric_demand output); inv_res.
    + rewrite <- H. split; intros; apply vars_add;
        [left; assumption | right; left; reflexivity].
    + subst cost'. split; [trivial | discriminate].
Qed.

Lemma operation_cost_vars b pt frame delta factor opex t output :
  operation_cost_of b pt frame delta factor = Ok opex →
  In t (timesteps b) → In output (outputs b) →
  is_cost_output pt output = true →
  In (variable_output_vector t output) (vars opex).
Proof.
  unfold operation_cost_of. intros Hok Ht Houtput Hcost.
  assert (Hrow : ∀ t' l cost cost',
             fold_res (operation_cost_add pt frame delta factor t') l cost = Ok cost' →
             (∀ v, In v (vars cost) → In v (vars cost'))
             ∧ (In output l → In (variable_output_vector t' output) (vars cost'))).
  { intros t'. induction l as [|o l IH]; intros cost cost' H.
    - simpl in H. injection H as <-. split; [trivial | intros []].
    - apply fold_res_ok_cons in H. destruct H as (acc & Hadd & H).
      destruct (IH _ _ H) as [Hkeep Hfind]. split.
      + intros v Hv. apply Hkeep.
        exact (proj1 (operation_cost_add_vars _ _ _ _ _ _ _ _ v Hadd) Hv).
      + intros [->|Hin]; [|exact (Hfind Hin)].
        apply Hkeep.
        exact (proj2 (operation_cost_add_vars _ _ _ _ _ _ _ _
                        (variable_output_vector t' output) Hadd) Hcost). }
  assert (Hall : ∀ ts cost cost',
             fold_res (λ cost t, fold_res (operation_cost_add pt frame delta factor t)
                                          (outputs b) cost) ts cost = Ok cost' →
             (∀ v, In v (vars cost) → In v (vars cost'))
             ∧ (In t ts → In (variable_output_vector t output) (vars cost'))).
  { induction ts as [|t' ts IH]; intros cost cost' H.
    - simpl in H. injection H as <-. split; [trivial | intros []].
    - apply fold_res_ok_cons in H. destruct H as (acc & Hhere & H).
      destruct (IH _ _ H) as [Hkeep Hfind].
      destruct (Hrow _ _ _ _ Hhere) as [Hkeep' Hfind']. split.
      + intros v Hv. apply Hkeep, Hkeep', Hv.
      + intros [->|Hin]; [|exact (Hfind Hin)].
        apply Hkeep, Hfind', Houtput. }
  exact (proj2 (Hall _ _ _ Hok) Ht).
Qed.

(** X16. On a problem the constructor built, solve raises ValueError, and
    returns no tables, when the solver has left without a value an output
    that the operation cost weighs: at any timestep, an electric demand
    output, or the grid electric power under the two load types. *)
Theorem unvalued_cost_output_raises configured_solver b pt args h self h' t output :
  __init__ configured_solver b pt args h = (Ok self, h') →
  In t (timesteps b) → In output (outputs b) →
  is_cost_output pt output = true →
  loaded (solver self (problem self)) (variable_output_vector t output) = None →
  (solve self).1 = Raise ValueError.
Proof.
  intros Hinit Ht Houtput Hcost Hnone.
  destruct (init_ok _ _ _ _ _ _ _ Hinit)
    as (frame0 & initial & delta & transition & bounds & auxiliary & factor
        & frame & opex & _ & _ & _ & _ & _ & _ & _ & _ & _ & Hopex & ->).
  cbn [solver problem] in Hnone.
  unfold solve. cbn [solver problem operation_cost investment_cost fst].
  pose proof (operation_cost_vars _ _ _ _ _ _ _ _ Hopex Ht Houtput Hcost) as Hin.
  assert (Hraise : cost_value (loaded (configured_solver
                     {| variables := variables_declared b pt;
                        constraints := initial ++ transition
                                       ++ output_equation_constraints b
                                       ++ bounds ++ auxiliary;
                        objective := add opex (investment_cost_of b pt);
                        var_value := λ _, None |})) opex = Raise ValueError).
  { pose proof (operation_cost_well_divided _ _ _ _ _ _ Hopex) as Hwell.
    pose proof (value_without_value _ opex _ Hwell Hin Hnone) as Hvalue.
    destruct opex; [destruct Hin | exact Hvalue ..]. }
  rewrite Hraise.
  match goal with |- context [if ?c then _ else _] => destruct c end; reflexivity.
Qed.

Lemma unvalued_cost_output_raises_witness :
  ∃ self h',
    __init__ example_solver_gap_in_cost example_building "operation" no_arguments
      example_store = (Ok self, h')
    ∧ (solve self).1 = Raise ValueError.
Proof.
  eexists _, _.
  lazymatch goal with |- ?P ∧ _ => assert (Hinit : P) by reflexivity end.
  split; [exact Hinit|].
  exact (unvalued_cost_output_raises _ _ _ _ _ _ _ 0 "grid_electric_power"%string
           Hinit (or_introl eq_refl) (or_intror (or_introl eq_refl))
           eq_refl eq_refl).
Defined.

(** ** When solve raises and when it returns *)

Lemma value_total_on_vars sigma e :
  well_divided e → (∀ v, In v (vars e) → is_Some (sigma v)) →
  ∃ q, value sigma e = Ok q.
Proof.
  induction e as [q|v|a IHa b IHb|a IHa b IHb|a IHa b IHb|a IHa b IHb];
    cbn [value well_divided vars]; intros Hwell Hvalues.
  - eauto.
  - destruct (Hvalues v (or_introl eq_refl)) as (q & ->). eauto.
  - destruct Hwell as [Ha Hb].
    destruct (IHa Ha) as (x & ->); [intros v Hv; apply Hvalues, in_or_app; auto|].
    destruct (IHb Hb) as (y & ->); [intros v Hv; apply Hvalues, in_or_app; auto|].
    simpl. eauto.
  - destruct Hwell as [Ha Hb].
    destruct (IHa Ha) as (x & ->); [intros v Hv; apply Hvalues, in_or_app; auto|].
    destruct (IHb Hb) as (y & ->); [intros v Hv; apply Hvalues, in_or_app; auto|].
    simpl. eauto.
  - destruct Hwell as [Ha Hb].
    destruct (IHa Ha) as (x & ->); [intros v Hv; apply Hvalues, in_or_app; auto|].
    destruct (IHb Hb) as (y & ->); [intros v Hv; apply Hvalues, in_or_app; auto|].
    simpl. eauto.
  - destruct Hwell as (Ha & q & -> & Hq).
    destruct (IHa Ha) as (x & ->); [intros v Hv; apply Hvalues, in_or_app; auto|].
    simpl. rewrite Hq. eauto.
Qed.

Lemma cost_value_total_on_vars sigma cost :
  well_divided cost → (∀ v, In v (vars cost) → is_Some (sigma v)) →
  ∃ q, cost_value sigma cost = Ok q.
Proof.
  intros Hwell Hvalues.
  pose proof (value_total_on_vars sigma cost Hwell Hvalues) as H.
  destruct cost; [simpl; eauto | exact H ..].
Qed.

Lemma cost_value_ok_or_value_error sigma cost :
  well_divided cost →
  (∃ q, cost_value sigma cost = Ok q) ∨ cost_value sigma cost = Raise ValueError.
Proof.
  intros Hwell. pose proof (value_ok_or_value_error sigma cost Hwell) as H.
  destruct cost; [simpl; eauto | exact H ..].
Qed.

Lemma cost_value_without_value sigma cost v :
  well_divided cost → In v (vars cost) → sigma v = None →
  cost_value sigma cost = Raise ValueError.
Proof.
  intros Hwell Hin Hnone.
  pose proof (value_without_value sigma cost v Hwell Hin Hnone) as H.
  destruct cost; [destruct Hin | exact H ..].
Qed.

Lemma values_or_gap (sigma : var → option Q) (l : list var) :
  (∀ v, In v l → is_Some (sigma v)) ∨ (∃ v, In v l ∧ sigma v = None).
Proof.
  induction l as [|v l [IH|(w & Hw & Hnone)]].
  - left. intros v [].
  - destruct (sigma v) as [q|] eqn:Hv.
    + left. intros w [<-|Hw]; [rewrite Hv; eauto | exact (IH w Hw)].
    + right. exists v. split; [left; reflexivity | exact Hv].
  - right. exists w. split; [right; exact Hw | exact Hnone].
Qed.

(** With a status that Pyomo refuses, solve raises and leaves the object
    as it was. *)
Lemma solve_bad_status self :
  bad_status (solver self (problem self)) = true →
  solve self = (Raise ValueError, self).
Proof. intros H. unfold solve. rewrite H. reflexivity. Qed.

(** A variable of a cost without a value makes solve raise. *)
Lemma solve_raises_on_gap configured_solver b pt args h self h' :
  __init__ configured_solver b pt args h = (Ok self, h') →
  (∃ v, In v (vars (operation_cost self) ++ vars (investment_cost self))
        ∧ loaded (solver self (problem self)) v = None) →
  (solve self).1 = Raise ValueError.
Proof.
  intros Hinit (v & Hin & Hnone).
  destruct (init_ok _ _ _ _ _ _ _ Hinit)
    as (frame0 & initial & delta & transition & bounds & auxiliary & factor
        & frame & opex & _ & _ & _ & _ & _ & _ & _ & _ & _ & Hopex & ->).
  cbn [solver problem operation_cost investment_cost] in *.
  pose proof (operation_cost_well_divided _ _ _ _ _ _ Hopex) as Hwell.
  pose proof (investment_cost_well_divided b pt) as Hwell'.
  unfold solve. cbn [solver problem operation_cost investment_cost].
  match goal with |- context [if ?c then _ else _] => destruct c end;
    [reflexivity|]. cbn [fst].
  apply in_app_or in Hin.
  match goal with
  | |- context [cost_value ?sigma opex] =>
      destruct (cost_value_ok_or_value_error sigma opex Hwell) as [(x & Hx)|Hx];
      rewrite Hx; [|reflexivity];
      destruct Hin as [Hin|Hin];
      [rewrite (cost_value_without_value sigma opex v Hwell Hin Hnone) in Hx;
       discriminate|];
      rewrite (cost_value_without_value sigma _ v Hwell' Hin Hnone)
  end.
  reflexivity.
Qed.

(** With values for the variables of the costs, solve returns. *)
Lemma solve_returns_on_values configured_solver b pt args h self h' :
  __init__ configured_solver b pt args h = (Ok self, h') →
  bad_status (solver self (problem self)) = false →
  (∀ v, In v (vars (operation_cost self) ++ vars (investment_cost self)) →
        is_Some (loaded (solver self (problem self)) v)) →
  ∃ ret self', solve self = (Ok ret, self').
Proof.
  intros Hinit Hstatus Hvalues.
  destruct (init_ok _ _ _ _ _ _ _ Hinit)
    as (frame0 & initial & delta & transition & bounds & auxiliary & factor
        & frame & opex & _ & _ & _ & _ & _ & _ & _ & _ & _ & Hopex & ->).
  cbn [solver problem operation_cost investment_cost] in *.
  unfold solve. cbn [solver problem operation_cost investment_cost].
  rewrite Hstatus.
  destruct (cost_value_total_on_vars _ opex
              (operation_cost_well_divided _ _ _ _ _ _ Hopex)
              (λ v Hv, Hvalues v (in_or_app _ _ _ (or_introl Hv)))) as (x & ->).
  destruct (cost_value_total_on_vars _ (investment_cost_of b pt)
              (investment_cost_well_divided b pt)
              (λ v Hv, Hvalues v (in_or_app _ _ _ (or_intror Hv)))) as (y & ->).
  simpl. eauto.
Qed.

(** With the same values loaded, solve returns the same, whatever the
    termination condition. *)
Lemma solve_same_values self other :
  bad_status (solver self (problem self)) = false →
  bad_status (other (problem self)) = false →
  (∀ v, loaded (other (problem self)) v = loaded (solver self (problem self)) v) →
  (solve (replace_solver self other)).1 = (solve self).1
  ∧ result (solve self).2 = Some (termination_condition (solver self (problem self)))
  ∧ result (solve (replace_solver self other)).2
    = Some (termination_condition (other (problem self))).
Proof.
  intros Hstatus Hstatus' H.
  unfold solve, replace_solver.
  cbn [fst snd solver problem self_building self_problem_type operation_cost
       investment_cost].
  rewrite Hstatus, Hstatus'. cbn [fst snd result].
  split; [|split; reflexivity].
  rewrite !fold_left_triple.
  rewrite (cost_value_ext _ _ (operation_cost self) H).
  rewrite (cost_value_ext _ _ (investment_cost self) H).
  rewrite !(set_rows_ext _ _ _ _ _ _ H).
  rewrite (H variable_storage_size). reflexivity.
Qed.

(** ** The tables and the missing values *)

(** C5, as amended. When solve returns, every entry of the three tables is
    the value the solver left in the corresponding variable: the solved
    value when there is one, and the missing value, written over the
    initial zero, when there is none. On a problem the constructor built,
    an error is propagated when a variable without a value occurs in the
    operation cost or in the investment cost: solve raises ValueError, and
    returns no table; with a solver status that loads and a value for
    every variable of the two costs, solve returns. *)
Theorem tables_hold_loaded_values self :
  (∀ ret self', solve self = (Ok ret, self') →
     ∀ t, In t (timesteps (self_building self)) →
       (∀ n, In n (controls (self_building self)) →
             control_vector ret !! (t, n)
             = Some (loaded (solver self (problem self))
                       (variable_control_vector t n)))
       ∧ (∀ n, In n (states (self_building self)) →
               state_vector ret !! (t, n)
               = Some (loaded (solver self (problem self))
                         (variable_state_vector t n)))
       ∧ (∀ n, In n (outputs (self_building self)) →
               output_vector ret !! (t, n)
               = Some (loaded (solver self (problem self))
                         (variable_output_vector t n))))
  ∧ (∀ configured_solver b pt args h h',
       __init__ configured_solver b pt args h = (Ok self, h') →
       ((∃ v, In v (vars (operation_cost self) ++ vars (investment_cost self))
              ∧ loaded (solver self (problem self)) v = None) →
        (solve self).1 = Raise ValueError)
       ∧ (bad_status (solver self (problem self)) = false →
          (∀ v, In v (vars (operation_cost self) ++ vars (investment_cost self)) →
                is_Some (loaded (solver self (problem self)) v)) →
          ∃ ret self', solve self = (Ok ret, self'))).
Proof.
  split.
  - intros ret self' Hsolve t Ht.
    destruct (solve_ok _ _ _ Hsolve) as (Hcv & Hsv & Hov & _).
    repeat split; intros n Hn; auto.
  - intros configured_solver b pt args h h' Hinit. split.
    + exact (solve_raises_on_gap _ _ _ _ _ _ _ Hinit).
    + exact (solve_returns_on_values _ _ _ _ _ _ _ Hinit).
Qed.

Lemma tables_hold_loaded_values_witness :
  (∃ self h' ret self',
     __init__ example_solver_gap example_building "operation" no_arguments
       example_store = (Ok self, h')
     ∧ solve self = (Ok ret, self')
     ∧ control_vector ret !! (0, "heat"%string) = Some None
     ∧ control_vector ret !! (3600, "heat"%string) = Some (Some 1%Q))
  ∧ (∃ self h',
       __init__ example_solver_gap_in_cost example_building "operation"
         no_arguments example_store = (Ok self, h')
       ∧ (solve self).1 = Raise ValueError).
Proof.
  split.
  - eexists _, _, _, _. split; [reflexivity|].
    lazymatch goal with |- ?P ∧ _ => assert (Hsolve : P) by reflexivity end.
    split; [exact Hsolve|].
    pose proof (proj1 (tables_hold_loaded_values _) _ _ Hsolve) as H.
    split.
    + exact (proj1 (H 0 (or_introl eq_refl)) "heat"%string (or_introl eq_refl)).
    + exact (proj1 (H 3600 (or_intror (or_introl eq_refl)))
               "heat"%string (or_introl eq_refl)).
  - eexists _, _.
    lazymatch goal with |- ?P ∧ _ => assert (Hinit : P) by reflexivity end.
    split; [exact Hinit|].
    apply (proj1 (proj2 (tables_hold_loaded_values _) _ _ _ _ _ _ Hinit)).
    exists (variable_output_vector 0 "grid_electric_power").
    split; [vm_compute; tauto | reflexivity].
Defined.

(** C5, as stated, fails, on the example building and in both of its
    parts. A solver run that ends optimal and leaves the heater at the
    first timestep without a value makes solve return a control table whose
    entry there is the missing value, not zero. And a solver run that ends
    optimal and leaves the grid power at the first timestep without a value
    makes solve raise ValueError: the error is propagated. *)
Lemma missing_value_not_zero :
  (∃ self h' ret self',
     __init__ example_solver_gap example_building "operation" no_arguments
       example_store = (Ok self, h')
     ∧ termination_condition (solver self (problem self)) = optimal
     ∧ loaded (solver self (problem self)) (variable_control_vector 0 "heat") = None
     ∧ solve self = (Ok ret, self')
     ∧ control_vector ret !! (0, "heat"%string) = Some None
     ∧ control_vector ret !! (0, "heat"%string) ≠ Some (Some 0%Q))
  ∧ (∃ self h',
       __init__ example_solver_gap_in_cost example_building "operation"
         no_arguments example_store = (Ok self, h')
       ∧ bad_status (solver self (problem self)) = false
       ∧ termination_condition (solver self (problem self)) = optimal
       ∧ loaded (solver self (problem self))
           (variable_output_vector 0 "grid_electric_power") = None
       ∧ (solve self).1 = Raise ValueError).
Proof.
  split.
  - eexists _, _, _, _. split; [reflexivity|].
    split; [reflexivity|]. split; [reflexivity|]. split; [reflexivity|].
    split; [vm_compute; reflexivity | vm_compute; discriminate].
  - eexists _, _. split; [reflexivity|].
    split; [reflexivity|]. split; [reflexivity|]. split; reflexivity.
Defined.

(** ** The termination condition *)

(** C2, as amended. solve never looks at the termination condition. When
    the solver call raises, on a solver status that Pyomo refuses to load,
    solve raises ValueError and the object is left as it was, with no
    result assigned. Otherwise the termination condition is only kept in
    the [result] field of the object, and with the same values loaded into
    the variables solve returns the same tables, costs and storage size, or
    raises the same exception, whatever the termination condition. On a
    problem the constructor built, solve then raises exactly when a
    variable of the operation cost or of the investment cost has no value,
    it raises nothing but ValueError, and it returns exactly when all of
    these variables have a value. *)
Theorem solve_ignores_termination self :
  (bad_status (solver self (problem self)) = true →
   solve self = (Raise ValueError, self))
  ∧ (bad_status (solver self (problem self)) = false →
     result (solve self).2
     = Some (termination_condition (solver self (problem self)))
     ∧ ∀ other,
         bad_status (other (problem self)) = false →
         (∀ v, loaded (other (problem self)) v
               = loaded (solver self (problem self)) v) →
         (solve (replace_solver self other)).1 = (solve self).1
         ∧ result (solve (replace_solver self other)).2
           = Some (termination_condition (other (problem self))))
  ∧ (∀ configured_solver b pt args h h',
       __init__ configured_solver b pt args h = (Ok self, h') →
       (∀ e, (solve self).1 = Raise e → e = ValueError)
       ∧ (bad_status (solver self (problem self)) = false →
          ((solve self).1 = Raise ValueError
           ↔ ∃ v, In v (vars (operation_cost self) ++ vars (investment_cost self))
                  ∧ loaded (solver self (problem self)) v = None)
          ∧ ((∃ ret, (solve self).1 = Ok ret)
             ↔ ∀ v, In v (vars (operation_cost self)
                          ++ vars (investment_cost self)) →
                    is_Some (loaded (solver self (problem self)) v)))).
Proof.
  split; [exact (solve_bad_status self)|]. split.
  - intros Hstatus. split.
    + unfold solve. rewrite Hstatus. reflexivity.
    + intros other Hstatus' H.
      destruct (solve_same_values self other Hstatus Hstatus' H) as (H1 & _ & H2).
      split; assumption.
  - intros configured_solver b pt args h h' Hinit.
    pose proof (solve_raises_on_gap _ _ _ _ _ _ _ Hinit) as Hgap.
    pose proof (solve_returns_on_values _ _ _ _ _ _ _ Hinit) as Hvalues.
    pose proof (values_or_gap (loaded (solver self (problem self)))
                  (vars (operation_cost self) ++ vars (investment_cost self)))
      as Hcases.
    split; [|intros Hstatus; split; split].
    + intros e He.
      destruct (bad_status (solver self (problem self))) eqn:Hstatus.
      * rewrite (solve_bad_status self Hstatus) in He. simpl in He. congruence.
      * destruct Hcases as [Hall|Hsome].
        -- destruct (Hvalues eq_refl Hall) as (ret & self' & Hsolve).
           rewrite Hsolve in He. discriminate.
        -- rewrite (Hgap Hsome) in He. congruence.
    + intros Hraise. destruct Hcases as [Hall|Hsome]; [|exact Hsome].
      destruct (Hvalues Hstatus Hall) as (ret & self' & Hsolve).
      rewrite Hsolve in Hraise. discriminate.
    + exact Hgap.
    + intros (ret & Hret). destruct Hcases as [Hall|Hsome]; [exact Hall|].
      rewrite (Hgap Hsome) in Hret. discriminate.
    + intros Hall. destruct (Hvalues Hstatus Hall) as (ret & self' & Hsolve).
      exists ret. rewrite Hsolve. reflexivity.
Qed.

Lemma solve_ignores_termination_witness :
  ∃ self h',
    __init__ example_solver example_building "operation" no_arguments example_store
    = (Ok self, h')
    ∧ (solve (replace_solver self example_solver_infeasible)).1 = (solve self).1
    ∧ result (solve self).2 = Some optimal
    ∧ result (solve (replace_solver self example_solver_infeasible)).2
      = Some infeasible
    ∧ (∃ ret, (solve self).1 = Ok ret)
    ∧ solve (replace_solver self example_solver_error)
      = (Raise ValueError, replace_solver self example_solver_error).
Proof.
  eexists _, _.
  lazymatch goal with |- ?P ∧ _ => assert (Hinit : P) by reflexivity end.
  split; [exact Hinit|].
  lazymatch type of Hinit with
  | _ = (Ok ?s, _) =>
      pose proof (solve_ignores_termination s) as (_ & Hsame & Hbuilt);
      pose proof (solve_ignores_termination
                    (replace_solver s example_solver_error)) as (Hbad & _)
  end.
  destruct (Hsame eq_refl) as (Hresult & Hother).
  destruct (Hother example_solver_infeasible eq_refl (λ v, eq_refl))
    as (Hsolve & Hresult').
  destruct (Hbuilt _ _ _ _ _ _ Hinit) as (_ & Hexact).
  destruct (Hexact eq_refl) as (_ & Hreturns).
  split; [exact Hsolve|]. split; [exact Hresult|]. split; [exact Hresult'|].
  split; [|exact (Hbad eq_refl)].
  apply Hreturns. intros v _. exists 1%Q. reflexivity.
Defined.

(** C2, as stated, fails: on the example building a solver run that ends
    infeasible is read back like any other: solve returns the tables and the
    costs, here a control table holding the values of the run and an
    operation cost of 6/1000. *)
Lemma infeasible_run_read_back :
  ∃ self h' ret self',
    __init__ example_solver_infeasible example_building "operation" no_arguments
      example_store = (Ok self, h')
    ∧ termination_condition (solver self (problem self)) = infeasible
    ∧ solve self = (Ok ret, self')
    ∧ control_vector ret !! (0, "heat"%string) = Some (Some 1%Q)
    ∧ operation_cost_value ret == 6 # 1000.
Proof.
  eexists _, _, _, _. split; [reflexivity|].
  split; [reflexivity|]. split; [reflexivity|].
  split; [vm_compute; reflexivity | vm_compute; reflexivity].
Defined.
